(** * Helpdesk ticket backend: a shallow embedding of [backend/helpdesk]

    The repository is a Django REST Framework application: one model
    ([models.py]), three serializers ([serializers.py]), two generic views
    and a statistics view ([views.py]), a filter set ([filters.py]), the
    URL table ([urls.py]) and the admin registration ([admin.py]), run on
    SQLite ([test_settings.py]).  The Python classes are embedded as Rocq
    functions over an explicit store; the framework behaviour the classes
    inherit (field validation of [rest_framework.fields], the serializer
    loop, [ModelSerializer.create/update], the automatic timestamps of
    [django.db.models.DateTimeField], the filter and ordering backends,
    page number pagination, the [LIKE] operator of the database) is
    written out where a class of the repository relies on it, each
    definition naming the method it follows. *)

From Stdlib Require Import List String Ascii Bool Arith ZArith NArith Lia
  DecimalString.
From Stdlib Require Permutation Sorted DecimalZ.
Import ListNotations.

(* ------------------------------------------------------------------ *)
(** ** Python strings                                                  *)
(* ------------------------------------------------------------------ *)

Module PyStr.

(** A Python [str]: the sequence of its code points.  A text parsed
    from JSON can hold any code point, lone surrogates included. *)
Definition str : Type := list N.

(** A string literal of the source. *)
Definition lit (s : string) : str := map N_of_ascii (list_ascii_of_string s).

(** [a == b] *)
Fixpoint eqb (a b : str) : bool :=
  match a, b with
  | [], [] => true
  | x :: a', y :: b' => N.eqb x y && eqb a' b'
  | _, _ => false
  end.

Definition str_dec : forall a b : str, {a = b} + {a <> b} :=
  list_eq_dec N.eq_dec.

(** The order of two texts by code points, the shorter of two texts
    first when it begins the longer. *)
Fixpoint compare (a b : str) : comparison :=
  match a, b with
  | [], [] => Eq
  | [], _ :: _ => Lt
  | _ :: _, [] => Gt
  | x :: a', y :: b' =>
      match N.compare x y with
      | Eq => compare a' b'
      | c => c
      end
  end.

(** [str.isspace] on one character, which is what [str.strip] removes:
    TAB..CR, FS..US, SPACE, NEL, NBSP, OGHAM SPACE MARK, EN QUAD..HAIR
    SPACE, LINE and PARAGRAPH SEPARATOR, NARROW NO-BREAK SPACE, MEDIUM
    MATHEMATICAL SPACE, IDEOGRAPHIC SPACE. *)
Definition isspace (c : N) : bool :=
  ((9 <=? c) && (c <=? 13) || (28 <=? c) && (c <=? 32)
   || (c =? 0x85) || (c =? 0xA0) || (c =? 0x1680)
   || (0x2000 <=? c) && (c <=? 0x200A)
   || (c =? 0x2028) || (c =? 0x2029) || (c =? 0x202F)
   || (c =? 0x205F) || (c =? 0x3000))%N.

Fixpoint lstrip (s : str) : str :=
  match s with
  | [] => []
  | c :: r => if isspace c then lstrip r else s
  end.

Fixpoint rstrip (s : str) : str :=
  match s with
  | [] => []
  | c :: r =>
      match rstrip r with
      | [] => if isspace c then [] else [c]
      | r' => c :: r'
      end
  end.

(** [s.strip()] *)
Definition strip (s : str) : str := rstrip (lstrip s).

(** [len(s)] *)
Definition len (s : str) : nat := List.length s.

(** [s.startswith(p)] *)
Fixpoint startswith (p s : str) : bool :=
  match p, s with
  | [], _ => true
  | a :: p', b :: s' => N.eqb a b && startswith p' s'
  | _ :: _, [] => false
  end.

(** [needle in hay] *)
Fixpoint contains (needle hay : str) : bool :=
  startswith needle hay
  || match hay with
     | [] => false
     | _ :: r => contains needle r
     end.

(** Whether the text holds the character of code 0. *)
Fixpoint has_nul (s : str) : bool :=
  match s with
  | [] => false
  | c :: r => (c =? 0)%N || has_nul r
  end.

(** A surrogate code point: U+D800 to U+DFFF. *)
Definition is_surrogate (c : N) : bool := ((0xD800 <=? c) && (c <=? 0xDFFF))%N.

(** The first surrogate of the text, if it holds one. *)
Definition first_surrogate (s : str) : option N := find is_surrogate s.

Definition has_surrogate (s : str) : bool := existsb is_surrogate s.

Definition hex_digit (d : N) : N := (if d <? 10 then 48 + d else 55 + d)%N.

Fixpoint hex_digits (fuel : nat) (c : N) : str :=
  match fuel with
  | O => []
  | S k => (if (c <? 16)%N then [] else hex_digits k (c / 16)%N)
           ++ [hex_digit (c mod 16)%N]
  end.

(** [format(code_point, 'X')]; a code point has at most six digits. *)
Definition format_X (c : N) : str := hex_digits 6 c.

(** [str(n)] for an [int]. *)
Definition str_int (n : Z) : str := lit (NilEmpty.string_of_int (Z.to_int n)).

(** [str(n)] for a length. *)
Definition decimal (n : nat) : str := lit (NilEmpty.string_of_uint (Nat.to_uint n)).

End PyStr.

(* ------------------------------------------------------------------ *)
(** ** The database: SQLite's [LIKE]                                   *)
(* ------------------------------------------------------------------ *)

(** The [icontains] lookup of the ORM on SQLite: the term is escaped by
    [prep_for_like_query] and put between two percent signs, and the
    column is matched with [LIKE ... ESCAPE '\'].  SQLite's [likeFunc]
    refuses a pattern of more than 50000 bytes, reads pattern and text as
    C strings, which end at the first NUL, and compares with
    [patternCompare], folding the letters A to Z only. *)
Module Sqlite.

Import PyStr.

(** [sqlite3_value_text] read as a C string: the text up to its first
    NUL. *)
Fixpoint c_string (s : str) : str :=
  match s with
  | [] => []
  | c :: r => if (c =? 0)%N then [] else c :: c_string r
  end.

(** [sqlite3Tolower]: A..Z to a..z; no other character is changed. *)
Definition tolower (c : N) : N :=
  (if (65 <=? c) && (c <=? 90) then c + 32 else c)%N.

(** The bytes of one code point in UTF-8. *)
Definition utf8_bytes (c : N) : N :=
  (if c <? 0x80 then 1
   else if c <? 0x800 then 2
   else if c <? 0x10000 then 3
   else 4)%N.

(** [sqlite3_value_bytes] *)
Definition value_bytes (s : str) : N :=
  fold_right (fun c n => (utf8_bytes c + n)%N) 0%N s.

Definition backslash : N := 92%N.
Definition percent : N := 37%N.
Definition underscore : N := 95%N.

(** [prep_for_like_query]: a backslash before each backslash, percent
    sign and underscore. *)
Definition prep_for_like_query (x : str) : str :=
  flat_map (fun c => if (c =? backslash)%N || (c =? percent)%N || (c =? underscore)%N
                     then [backslash; c] else [c]) x.

(** ["%%%s%%" % prep_for_like_query(term)] *)
Definition contains_pattern (term : str) : str :=
  [percent] ++ prep_for_like_query term ++ [percent].

(** [SQLITE_MAX_LIKE_PATTERN_LENGTH] *)
Definition SQLITE_MAX_LIKE_PATTERN_LENGTH : N := 50000%N.

(** "LIKE or GLOB pattern too complex" *)
Definition too_complex (pattern : str) : bool :=
  (SQLITE_MAX_LIKE_PATTERN_LENGTH <? value_bytes pattern)%N.

(** What [patternCompare] reads of a pattern. *)
Inductive Token : Type :=
| MatchAll
| MatchOne
| Literal (c : N).

(** The pattern as [patternCompare] reads it with the escape character
    backslash: the character after a backslash stands for itself; a
    backslash that ends the pattern matches nothing. *)
Fixpoint tokens (escaped : bool) (pattern : str) : option (list Token) :=
  match pattern with
  | [] => if escaped then None else Some []
  | c :: r =>
      if escaped then option_map (cons (Literal c)) (tokens false r)
      else if (c =? backslash)%N then tokens true r
      else if (c =? percent)%N then option_map (cons MatchAll) (tokens false r)
      else if (c =? underscore)%N then option_map (cons MatchOne) (tokens false r)
      else option_map (cons (Literal c)) (tokens false r)
  end.

(** [patternCompare] with [noCase]. *)
Fixpoint patternCompare (pattern : list Token) (s : str) {struct pattern} : bool :=
  match pattern with
  | [] => match s with [] => true | _ :: _ => false end
  | MatchAll :: rest =>
      (fix scan (s : str) : bool :=
         patternCompare rest s
         || match s with
            | [] => false
            | _ :: s' => scan s'
            end) s
  | MatchOne :: rest =>
      match s with
      | [] => false
      | _ :: s' => patternCompare rest s'
      end
  | Literal c :: rest =>
      match s with
      | [] => false
      | d :: s' => (tolower c =? tolower d)%N && patternCompare rest s'
      end
  end.

(** [text LIKE pattern ESCAPE '\'], for a pattern within the limit. *)
Definition like (pattern text : str) : bool :=
  match tokens false (c_string pattern) with
  | Some p => patternCompare p (c_string text)
  | None => false
  end.

(** [Q(column__icontains=term)] on one value of the column. *)
Definition icontains (term text : str) : bool :=
  like (contains_pattern term) text.

(** Two characters that [LIKE] takes for the same: equal, or the same
    letter of A..Z and a..z in its two cases. *)
Definition same_letter (a b : N) : Prop :=
  a = b
  \/ ((65 <= a <= 90)%N /\ b = (a + 32)%N)
  \/ ((65 <= b <= 90)%N /\ a = (b + 32)%N).

(** [p] is the text [s] up to its first NUL. *)
Definition up_to_nul (s p : str) : Prop :=
  ~ In 0%N p /\ (s = p \/ exists rest, s = p ++ 0%N :: rest).

(** The term occurs in the text, the case of the letters A to Z
    ignored. *)
Definition ci_substring (term text : str) : Prop :=
  exists pre mid post,
    text = pre ++ mid ++ post /\ Forall2 same_letter term mid.

(** The term ends the text, the case of the letters A to Z ignored. *)
Definition ci_suffix (term text : str) : Prop :=
  exists pre mid, text = pre ++ mid /\ Forall2 same_letter term mid.

(** What a search term selects: of a text read up to its first NUL, a
    term without NUL the texts it occurs in; a term with a NUL the texts
    that end with the part of the term before the NUL. *)
Definition selects (term text : str) : Prop :=
  exists text', up_to_nul text text'
    /\ ((~ In 0%N term /\ ci_substring term text')
        \/ (In 0%N term
            /\ exists term', up_to_nul term term' /\ ci_suffix term' text')).

End Sqlite.

(* ------------------------------------------------------------------ *)
(** ** models.py                                                       *)
(* ------------------------------------------------------------------ *)

Module Models.

Import PyStr.

(** [class Ticket(models.Model)].  Timestamps are integers (microseconds);
    [contact_phone] is nullable; [status] is stored as text. *)
Record Ticket : Type := mkTicket {
  id : Z;
  title : str;
  description : str;
  contact_email : str;
  contact_phone : option str;
  status : str;
  created_at : Z;
  updated_at : Z
}.

(** [Ticket.STATUS_CHOICES] *)
Definition STATUS_CHOICES : list (str * str) :=
  [ (lit "pending", lit "Pending"); (lit "accepted", lit "Accepted");
    (lit "resolved", lit "Resolved"); (lit "rejected", lit "Rejected") ].

(** The stored values of the choices. *)
Definition status_values : list str := map fst STATUS_CHOICES.

(** The table [helpdesk_ticket] with its primary key sequence, and the
    wall clock: [clock k] is what the k-th call of [timezone.now()]
    returns, [ticks] counts the calls made so far. *)
Record World : Type := mkWorld {
  rows : list Ticket;
  next_pk : Z;
  clock : nat -> Z;
  ticks : nat
}.

(** [timezone.now()] *)
Definition timezone_now (w : World) : Z * World :=
  (clock w (ticks w), mkWorld (rows w) (next_pk w) (clock w) (S (ticks w))).

Definition with_rows (w : World) (rs : list Ticket) : World :=
  mkWorld rs (next_pk w) (clock w) (ticks w).

(** [Ticket()] with the field defaults: [status] defaults to pending, a
    nullable column to NULL, text to the empty string. *)
Definition Ticket_init : Ticket :=
  mkTicket 0 [] [] [] None (lit "pending") 0 0.

(** [setattr(instance, attr, value)] for the editable columns; [None] is
    Python's [None], which only the nullable [contact_phone] can hold. *)
Definition setattr (t : Ticket) (attr : str) (value : option str) : Ticket :=
  let keep (set : str -> Ticket) :=
    match value with Some v => set v | None => t end in
  if eqb attr (lit "title") then
    keep (fun v => mkTicket (id t) v (description t) (contact_email t)
                     (contact_phone t) (status t) (created_at t) (updated_at t))
  else if eqb attr (lit "description") then
    keep (fun v => mkTicket (id t) (title t) v (contact_email t)
                     (contact_phone t) (status t) (created_at t) (updated_at t))
  else if eqb attr (lit "contact_email") then
    keep (fun v => mkTicket (id t) (title t) (description t) v
                     (contact_phone t) (status t) (created_at t) (updated_at t))
  else if eqb attr (lit "contact_phone") then
    mkTicket (id t) (title t) (description t) (contact_email t)
      value (status t) (created_at t) (updated_at t)
  else if eqb attr (lit "status") then
    keep (fun v => mkTicket (id t) (title t) (description t) (contact_email t)
                     (contact_phone t) v (created_at t) (updated_at t))
  else t.

(** [for attr, value in validated_data.items(): setattr(instance, attr, value)] *)
Definition setattrs (t : Ticket) (kwargs : list (str * option str)) : Ticket :=
  fold_left (fun acc kv => setattr acc (fst kv) (snd kv)) kwargs t.

(** [Model.save()] of a new instance: an INSERT.  The key comes from the
    sequence; [created_at] ([auto_now_add]) and [updated_at] ([auto_now])
    are stamped by [DateTimeField.pre_save], one [timezone.now()] call per
    column, in the order the columns are declared. *)
Definition save_new (t : Ticket) (w : World) : Ticket * World :=
  let (stamp_created, w1) := timezone_now w in
  let (stamp_updated, w2) := timezone_now w1 in
  let t' := mkTicket (next_pk w) (title t) (description t) (contact_email t)
              (contact_phone t) (status t) stamp_created stamp_updated in
  (t', mkWorld (rows w2 ++ [t']) (next_pk w + 1)%Z (clock w2) (ticks w2)).

(** [Model.save()] of a loaded instance: an UPDATE of the row with its
    key; only [updated_at] ([auto_now]) is stamped. *)
Definition save (t : Ticket) (w : World) : Ticket * World :=
  let (stamp_updated, w1) := timezone_now w in
  let t' := mkTicket (id t) (title t) (description t) (contact_email t)
              (contact_phone t) (status t) (created_at t) stamp_updated in
  (t', with_rows w1
         (map (fun r => if Z.eqb (id r) (id t) then t' else r) (rows w1))).

(** [Ticket.objects.create] with the validated data as keyword arguments. *)
Definition objects_create (kwargs : list (str * option str)) (w : World)
  : Ticket * World :=
  save_new (setattrs Ticket_init kwargs) w.

(** [Ticket.objects.get(pk=pk)], [None] for [DoesNotExist]. *)
Definition objects_get (pk : Z) (w : World) : option Ticket :=
  find (fun t => Z.eqb (id t) pk) (rows w).

(** [Ticket.objects.filter(pk=pk).delete()]: what a deletion would do. *)
Definition objects_delete (pk : Z) (w : World) : World :=
  with_rows w (filter (fun t => negb (Z.eqb (id t) pk)) (rows w)).

(** The value of an editable column by its name, [None] for another name. *)
Definition getattr (t : Ticket) (attr : str) : option (option str) :=
  if eqb attr (lit "title") then Some (Some (title t))
  else if eqb attr (lit "description") then Some (Some (description t))
  else if eqb attr (lit "contact_email") then Some (Some (contact_email t))
  else if eqb attr (lit "contact_phone") then Some (contact_phone t)
  else if eqb attr (lit "status") then Some (Some (status t))
  else None.

(** The columns whose value cannot be NULL. *)
Definition text_attrs : list str :=
  [lit "title"; lit "description"; lit "contact_email"; lit "status"].

(** [def __str__(self)]: the key after a hash sign, a dash between
    spaces, the title. *)
Definition __str__ (self : Ticket) : str :=
  lit "#" ++ str_int (id self) ++ lit " - " ++ title self.

(** No character of the text is a space. *)
Fixpoint spaceless (s : str) : Prop :=
  match s with
  | [] => True
  | c :: r => c <> 32%N /\ spaceless r
  end.

End Models.

(* ------------------------------------------------------------------ *)
(** ** rest_framework: fields and the serializer loop                  *)
(* ------------------------------------------------------------------ *)

Module Fields.

Import PyStr.

(** A value of the parsed JSON request body.  A number ([int] or
    [float]) and a composite (list or dict) are carried by the text
    [str()] gives for them, which is all the fields read of them. *)
Inductive JValue : Type :=
| JNull
| JBool (b : bool)
| JNumber (text : str)
| JString (s : str)
| JComposite (text : str).

(** [str(data)] *)
Definition str_of (data : JValue) : str :=
  match data with
  | JNull => lit "None"
  | JBool true => lit "True"
  | JBool false => lit "False"
  | JNumber text => text
  | JString s => s
  | JComposite text => text
  end.

(** The parsed JSON body, a dict, as an association list read by the
    first binding of a key; keys no field asks for are never read. *)
Definition Data : Type := list (str * JValue).

Definition ErrorDetail : Type := list str.

(** [serializer.errors]: field name to messages, in field order. *)
Definition Errors : Type := list (str * ErrorDetail).

(** [serializer.validated_data]: attribute to value, [None] for null. *)
Definition ValidatedData : Type := list (str * option str).

(** What validating one field ends in: the [SkipField] exception, a value,
    or a [ValidationError] with its messages. *)
Inductive Outcome : Type :=
| SkipField
| Validated (value : option str)
| ValidationError (detail : ErrorDetail).

(** A validator: [None] when the value passes, else the message. *)
Definition Validator : Type := str -> option str.

Definition dquote : str := [34%N].

Definition msg_required : str := lit "This field is required.".
Definition msg_null : str := lit "This field may not be null.".
Definition msg_blank : str := lit "This field may not be blank.".
Definition msg_invalid : str := lit "Not a valid string.".
Definition msg_nul : str := lit "Null characters are not allowed.".
Definition msg_email : str := lit "Enter a valid email address.".
Definition msg_max_length (limit : nat) : str :=
  lit "Ensure this field has no more than " ++ decimal limit ++ lit " characters.".
Definition msg_invalid_choice (input : str) : str :=
  dquote ++ input ++ dquote ++ lit " is not a valid choice.".
Definition msg_surrogate (code_point : N) : str :=
  lit "Surrogate characters are not allowed: U+" ++ format_X code_point ++ lit ".".

Definition MaxLengthValidator (limit : nat) : Validator :=
  fun value => if Nat.ltb limit (len value) then Some (msg_max_length limit) else None.

Definition ProhibitNullCharactersValidator : Validator :=
  fun value => if has_nul value then Some msg_nul else None.

(** The first surrogate of the value raises. *)
Definition ProhibitSurrogateCharactersValidator : Validator :=
  fun value => option_map msg_surrogate (first_surrogate value).

(** [EmailValidator], given the verdict of Django's address check. *)
Definition EmailValidator (well_formed : str -> bool) : Validator :=
  fun value => if well_formed value then None else Some msg_email.

Inductive Kind : Type :=
| CharKind
| ChoiceKind (choices : list str).

Record Field : Type := mkField {
  field_name : str;
  kind : Kind;
  required : bool;
  allow_null : bool;
  allow_blank : bool;
  validators : list Validator
}.

(** [CharField(...)]: the length limit first, then the check for null
    characters and the check for surrogates. *)
Definition CharField (name : str) (required allow_null allow_blank : bool)
  (max_length : option nat) : Field :=
  mkField name CharKind required allow_null allow_blank
    (match max_length with Some n => [MaxLengthValidator n] | None => [] end
     ++ [ProhibitNullCharactersValidator; ProhibitSurrogateCharactersValidator]).

(** [EmailField(...)]: a [CharField] with the address check appended. *)
Definition EmailField (well_formed : str -> bool) (name : str)
  (required allow_null allow_blank : bool) (max_length : option nat) : Field :=
  let f := CharField name required allow_null allow_blank max_length in
  mkField name CharKind required allow_null allow_blank
    (validators f ++ [EmailValidator well_formed]).

(** [ChoiceField(choices=...)] *)
Definition ChoiceField (name : str) (required allow_null allow_blank : bool)
  (choices : list str) : Field :=
  mkField name (ChoiceKind choices) required allow_null allow_blank [].

(** [dictionary.get(key, empty)]: [None] is the [empty] marker. *)
Definition lookup (key : str) (data : Data) : option JValue :=
  option_map snd (find (fun kv => eqb (fst kv) key) data).

(** [Field.get_value]: [dictionary.get(self.field_name, empty)]. *)
Definition get_value (f : Field) (data : Data) : option JValue :=
  lookup (field_name f) data.

(** [Field.run_validators]: every validator runs, the messages add up. *)
Definition run_validators (f : Field) (value : str) : ErrorDetail :=
  flat_map (fun v => match v value with Some m => [m] | None => [] end)
           (validators f).

Definition validated (f : Field) (value : str) : Outcome :=
  match run_validators f value with
  | [] => Validated (Some value)
  | detail => ValidationError detail
  end.

(** [to_internal_value] of the field.  [CharField]: a bool and a
    composite are not valid strings; a string or a number is taken as
    [str(data)], stripped.  [ChoiceField]: the empty string when blank is
    allowed, else [str(data)] must be one of the choices. *)
Definition to_internal_value_of (f : Field) (data : JValue) : str + ErrorDetail :=
  match kind f with
  | CharKind =>
      match data with
      | JBool _ | JComposite _ => inr [msg_invalid]
      | _ => inl (strip (str_of data))
      end
  | ChoiceKind choices =>
      if match data with JString [] => allow_blank f | _ => false end
      then inl []
      else if existsb (eqb (str_of data)) choices then inl (str_of data)
      else inr [msg_invalid_choice (str_of data)]
  end.

(** [Field.run_validation]: [validate_empty_values], [to_internal_value],
    [run_validators]. *)
Definition field_run_validation (partial : bool) (f : Field) (data : option JValue)
  : Outcome :=
  match data with
  | None =>
      if partial then SkipField
      else if required f then ValidationError [msg_required]
      else SkipField
  | Some JNull =>
      if allow_null f then Validated None else ValidationError [msg_null]
  | Some d =>
      match to_internal_value_of f d with
      | inl value => validated f value
      | inr detail => ValidationError detail
      end
  end.

(** [run_validation] of the field.  [CharField.run_validation] first
    tests for the blank string: [data == ''] or
    [str(data).strip() == ''], before anything else is looked at. *)
Definition run_validation (partial : bool) (f : Field) (data : option JValue)
  : Outcome :=
  match kind f, data with
  | CharKind, Some d =>
      if eqb (strip (str_of d)) [] then
        if allow_blank f then Validated (Some [])
        else ValidationError [msg_blank]
      else field_run_validation partial f data
  | _, _ => field_run_validation partial f data
  end.

(** A [validate_<field_name>] method: the value it returns, or the
    messages of the [ValidationError] it raises. *)
Definition ValidateMethod : Type := str -> str + ErrorDetail.

(** One turn of the loop of [Serializer.to_internal_value]: the field is
    validated, then its [validate_<field_name>] method, if the class has
    one, is applied to the value (a text: the fields that have such a
    method here do not allow null). *)
Definition validate_field (partial : bool)
  (validate_method : str -> option ValidateMethod)
  (f : Field) (data : Data) : Outcome :=
  match run_validation partial f (get_value f data) with
  | Validated (Some v) =>
      match validate_method (field_name f) with
      | Some method =>
          match method v with
          | inl v' => Validated (Some v')
          | inr detail => ValidationError detail
          end
      | None => Validated (Some v)
      end
  | o => o
  end.

(** [Serializer.to_internal_value]: all fields are visited; the errors
    and the values are collected side by side. *)
Fixpoint to_internal_value (partial : bool)
  (validate_method : str -> option ValidateMethod)
  (fields : list Field) (data : Data) : Errors * ValidatedData :=
  match fields with
  | [] => ([], [])
  | f :: rest =>
      let (errors, ret) := to_internal_value partial validate_method rest data in
      match validate_field partial validate_method f data with
      | SkipField => (errors, ret)
      | Validated v => (errors, (field_name f, v) :: ret)
      | ValidationError detail => ((field_name f, detail) :: errors, ret)
      end
  end.

(** [Serializer.run_validation]: [raise ValidationError(errors)] when any
    field failed, the validated data otherwise. *)
Definition serializer_run_validation (partial : bool)
  (validate_method : str -> option ValidateMethod)
  (fields : list Field) (data : Data) : Errors + ValidatedData :=
  match to_internal_value partial validate_method fields data with
  | ([], ret) => inr ret
  | (errors, _) => inl errors
  end.

(** The field names under which a validation answers errors. *)
Definition error_keys (r : Errors + ValidatedData) : list str :=
  match r with
  | inl errors => map fst errors
  | inr _ => []
  end.

End Fields.

(* ------------------------------------------------------------------ *)
(** ** serializers.py                                                  *)
(* ------------------------------------------------------------------ *)

(** The serializer fields a [ModelSerializer] builds from the columns of
    [models.py]: required unless the column has a default, is blank or
    nullable; [max_length] carried over; a column with choices becomes a
    [ChoiceField]. *)
Module ModelFields.

Import PyStr Fields.

Section Email.

(** The verdict of Django's address check ([EmailValidator]). *)
Variable well_formed_email : str -> bool.

(** [title = models.CharField(max_length=200)] *)
Definition title : Field := CharField (lit "title") true false false (Some 200).

(** [description = models.TextField()] *)
Definition description : Field :=
  CharField (lit "description") true false false None.

(** [contact_email = models.EmailField()], whose [max_length] is 254. *)
Definition contact_email : Field :=
  EmailField well_formed_email (lit "contact_email") true false false (Some 254).

(** [contact_phone = models.CharField(max_length=20, blank=True, null=True)] *)
Definition contact_phone : Field :=
  CharField (lit "contact_phone") false true true (Some 20).

(** [status = models.CharField(max_length=20, choices=STATUS_CHOICES,
    default='pending')] *)
Definition status : Field :=
  ChoiceField (lit "status") false false false Models.status_values.

End Email.

End ModelFields.

Module TicketSerializer.

Import PyStr Fields.

Definition validate_title (value : str) : str + ErrorDetail :=
  if Nat.ltb (len (strip value)) 3 then
    inr [lit "Title must be at least 3 characters long."]
  else inl (strip value).

Definition validate_description (value : str) : str + ErrorDetail :=
  if Nat.ltb (len (strip value)) 10 then
    inr [lit "Description must be at least 10 characters long."]
  else inl (strip value).

(** [getattr(self, 'validate_' + field.field_name, None)] *)
Definition validate_method (name : str) : option ValidateMethod :=
  if eqb name (lit "title") then Some validate_title
  else if eqb name (lit "description") then Some validate_description
  else None.

(** The writable fields of [Meta.fields]; [id], [created_at] and
    [updated_at] are read-only and never read from the input. *)
Definition fields (well_formed_email : str -> bool) : list Field :=
  [ ModelFields.title; ModelFields.description;
    ModelFields.contact_email well_formed_email;
    ModelFields.contact_phone; ModelFields.status ].

(** [serializer.data]: the full view shows every column of the row. *)
Definition data (t : Models.Ticket) : Models.Ticket := t.

(** [serializer.is_valid()] of [TicketSerializer(data=data)], as the
    serializer tests use it. *)
Definition run_validation (well_formed_email : str -> bool) (data : Data)
  : Errors + ValidatedData :=
  serializer_run_validation false validate_method (fields well_formed_email) data.

(** [serializer.save()] with no instance: [ModelSerializer.create]. *)
Definition save (validated_data : ValidatedData) (w : Models.World)
  : Models.Ticket * Models.World :=
  Models.objects_create validated_data w.

End TicketSerializer.

Module TicketCreateSerializer.

Import PyStr Fields.

Definition validate_title (value : str) : str + ErrorDetail :=
  if Nat.ltb (len (strip value)) 3 then
    inr [lit "Title must be at least 3 characters long."]
  else inl (strip value).

Definition validate_description (value : str) : str + ErrorDetail :=
  if Nat.ltb (len (strip value)) 10 then
    inr [lit "Description must be at least 10 characters long."]
  else inl (strip value).

Definition validate_method (name : str) : option ValidateMethod :=
  if eqb name (lit "title") then Some validate_title
  else if eqb name (lit "description") then Some validate_description
  else None.

(** [Meta.fields]: no [status]. *)
Definition fields (well_formed_email : str -> bool) : list Field :=
  [ ModelFields.title; ModelFields.description;
    ModelFields.contact_email well_formed_email;
    ModelFields.contact_phone ].

(** [serializer.is_valid()] of [TicketCreateSerializer(data=data)]. *)
Definition run_validation (well_formed_email : str -> bool) (data : Data)
  : Errors + ValidatedData :=
  serializer_run_validation false validate_method (fields well_formed_email) data.

(** [serializer.save()]: [ModelSerializer.create]. *)
Definition save (validated_data : ValidatedData) (w : Models.World)
  : Models.Ticket * Models.World :=
  Models.objects_create validated_data w.

End TicketCreateSerializer.

Module TicketUpdateSerializer.

Import PyStr Fields.

Definition validate_title (value : str) : str + ErrorDetail :=
  if Nat.ltb (len (strip value)) 3 then
    inr [lit "Title must be at least 3 characters long."]
  else inl (strip value).

Definition validate_description (value : str) : str + ErrorDetail :=
  if Nat.ltb (len (strip value)) 10 then
    inr [lit "Description must be at least 10 characters long."]
  else inl (strip value).

Definition validate_method (name : str) : option ValidateMethod :=
  if eqb name (lit "title") then Some validate_title
  else if eqb name (lit "description") then Some validate_description
  else None.

Definition fields (well_formed_email : str -> bool) : list Field :=
  [ ModelFields.title; ModelFields.description;
    ModelFields.contact_email well_formed_email;
    ModelFields.contact_phone; ModelFields.status ].

(** [serializer.is_valid()] of
    [TicketUpdateSerializer(instance, data=data, partial=partial)]. *)
Definition run_validation (well_formed_email : str -> bool) (partial : bool)
  (data : Data) : Errors + ValidatedData :=
  serializer_run_validation partial validate_method (fields well_formed_email) data.

(** [serializer.save()]: [ModelSerializer.update], that is the [setattr]
    loop over the validated data and [instance.save()]. *)
Definition save (instance : Models.Ticket) (validated_data : ValidatedData)
  (w : Models.World) : Models.Ticket * Models.World :=
  Models.save (Models.setattrs instance validated_data) w.

End TicketUpdateSerializer.

(* ------------------------------------------------------------------ *)
(** ** filters.py                                                      *)
(* ------------------------------------------------------------------ *)

(** [class TicketFilter(django_filters.FilterSet)], from the cleaned
    values of its form on: [None] is a parameter that was not given. *)
Module TicketFilter.

Import PyStr Models.

Record Cleaned : Type := mkCleaned {
  status : option str;
  created_after : option Z;
  created_before : option Z;
  title : option str
}.

(** [Filter.filter] for a text value: a value among the empty values
    leaves the query set as it is. *)
Definition text_filter (value : option str) (keep : str -> Ticket -> bool)
  (qs : list Ticket) : list Ticket :=
  match value with
  | None => qs
  | Some v => if eqb v [] then qs else filter (keep v) qs
  end.

Definition stamp_filter (value : option Z) (keep : Z -> Ticket -> bool)
  (qs : list Ticket) : list Ticket :=
  match value with
  | None => qs
  | Some v => filter (keep v) qs
  end.

(** [FilterSet.filter_queryset]: the declared filters, one after the
    other: [status] exact, [created_at] [gte] and [lte], [title]
    [icontains]. *)
Definition filter_queryset (c : Cleaned) (qs : list Ticket) : list Ticket :=
  let qs := text_filter (status c)
              (fun v t => eqb (Models.status t) v) qs in
  let qs := stamp_filter (created_after c)
              (fun v t => Z.leb v (created_at t)) qs in
  let qs := stamp_filter (created_before c)
              (fun v t => Z.leb (created_at t) v) qs in
  let qs := text_filter (title c)
              (fun v t => Sqlite.icontains v (Models.title t)) qs in
  qs.

End TicketFilter.

(* ------------------------------------------------------------------ *)
(** ** views.py                                                        *)
(* ------------------------------------------------------------------ *)

Module Http.

Import PyStr Fields Models.

(** [request.query_params], a [QueryDict]: the pairs of the query string
    in order. *)
Definition QueryParams : Type := list (str * str).

(** [query_params.get(key, None)]: the last value given for the key. *)
Definition query_get (key : str) (q : QueryParams) : option str :=
  fold_left (fun acc kv => if eqb (fst kv) key then Some (snd kv) else acc)
            q None.

(** The query string with every pair for [key] left out. *)
Definition omit (key : str) (q : QueryParams) : QueryParams :=
  filter (fun kv => negb (eqb (fst kv) key)) q.

(** The five counts of the statistics view. *)
Record Stats : Type := mkStats {
  total : nat;
  pending : nat;
  accepted : nat;
  resolved : nat;
  rejected : nat
}.

(** The body of a paginated list answer: the number of tickets the
    query selects, the numbers of the pages the [next] and [previous]
    links lead to, and the tickets of the page. *)
Record Page : Type := mkPage {
  count : nat;
  next : option Z;
  previous : option Z;
  results : list Ticket
}.

(** What a view answers. *)
Inductive Response : Type :=
| HTTP_200_OK (body : Ticket)
| HTTP_200_LIST (page : Page)
| HTTP_200_STATS (stats : Stats)
| HTTP_201_CREATED (body : Ticket)
| HTTP_302_FOUND
| HTTP_400_BAD_REQUEST (errors : Errors)
| HTTP_403_FORBIDDEN
| HTTP_404_NOT_FOUND
| HTTP_405_METHOD_NOT_ALLOWED
| HTTP_500_INTERNAL_SERVER_ERROR
| ADMIN_FORM_ERRORS (fields : list str)
| ADMIN_CHANGELIST (results : list Ticket).

(** The truth value of [x] in [if x:] for a query parameter. *)
Definition truthy (v : option str) : option str :=
  match v with
  | Some s => if eqb s [] then None else Some s
  | None => None
  end.

End Http.

(** [filters.OrderingFilter] with the attributes of
    [TicketListCreateAPIView]. *)
Module Ordering.

Import PyStr Models Http.

(** [ordering_fields = ['created_at', 'updated_at', 'status']] *)
Definition ordering_fields : list str :=
  [lit "created_at"; lit "updated_at"; lit "status"].

(** [ordering = ['-updated_at']] *)
Definition ordering : list str := [lit "-updated_at"].

Definition comma : N := 44%N.
Definition minus : N := 45%N.

(** [params.split(',')] *)
Fixpoint split_commas (s : str) : list str :=
  match s with
  | [] => [[]]
  | c :: r =>
      if (c =? comma)%N then [] :: split_commas r
      else match split_commas r with
           | p :: ps => (c :: p) :: ps
           | [] => [[c]]
           end
  end.

(** The field a term names: the term without its leading minus sign. *)
Definition term_field (term : str) : str :=
  match term with
  | c :: r => if (c =? minus)%N then r else term
  | [] => term
  end.

Definition descending (term : str) : bool :=
  match term with
  | c :: _ => (c =? minus)%N
  | [] => false
  end.

(** [term_valid] of [remove_invalid_fields] *)
Definition term_valid (term : str) : bool :=
  existsb (eqb (term_field term)) ordering_fields.

(** [OrderingFilter.get_ordering]: the valid terms of the [ordering]
    parameter, or the ordering of the view when there is none. *)
Definition get_ordering (q : QueryParams) : list str :=
  match truthy (query_get (lit "ordering") q) with
  | Some params =>
      let fields := map strip (split_commas params) in
      match filter term_valid fields with
      | [] => ordering
      | terms => terms
      end
  | None => ordering
  end.

(** How two tickets compare on one column. *)
Definition compare_on (field : str) (a b : Ticket) : comparison :=
  if eqb field (lit "created_at") then Z.compare (created_at a) (created_at b)
  else if eqb field (lit "updated_at") then Z.compare (updated_at a) (updated_at b)
  else if eqb field (lit "status") then PyStr.compare (status a) (status b)
  else Eq.

(** How two tickets compare under [ORDER BY] the terms, the first term
    that tells them apart deciding. *)
Fixpoint compare_by (terms : list str) (a b : Ticket) : comparison :=
  match terms with
  | [] => Eq
  | term :: rest =>
      match (if descending term
             then compare_on (term_field term) b a
             else compare_on (term_field term) a b) with
      | Eq => compare_by rest a b
      | c => c
      end
  end.

Definition precedes (terms : list str) (a b : Ticket) : bool :=
  match compare_by terms a b with
  | Gt => false
  | _ => true
  end.

Fixpoint insert (terms : list str) (x : Ticket) (l : list Ticket) : list Ticket :=
  match l with
  | [] => [x]
  | y :: r => if precedes terms x y then x :: l else y :: insert terms x r
  end.

(** [queryset.order_by] with the terms as arguments; rows the terms do
    not tell apart stay in the order of the query set. *)
Definition order_by (terms : list str) (qs : list Ticket) : list Ticket :=
  fold_right (insert terms) [] qs.

(** [OrderingFilter.filter_queryset] *)
Definition filter_queryset (q : QueryParams) (qs : list Ticket) : list Ticket :=
  order_by (get_ordering q) qs.

End Ordering.

(** [pagination.PageNumberPagination] with [PAGE_SIZE] 20, over
    [django.core.paginator.Paginator]. *)
Module Pagination.

Import PyStr Models Http.

Definition PAGE_SIZE : nat := 20.

(** [Paginator.num_pages]: [ceil(max(1, count) / per_page)], an empty
    first page being allowed. *)
Definition num_pages (count : nat) : nat :=
  (Nat.max 1 count + (PAGE_SIZE - 1)) / PAGE_SIZE.

(** [Paginator.page(number)] for a valid number, as the body of the
    answer: [object_list[bottom:top]] with the count and the links. *)
Definition page (number : nat) (object_list : list Ticket) : Page :=
  let count := List.length object_list in
  mkPage count
    (if Nat.ltb number (num_pages count) then Some (Z.of_nat number + 1)%Z else None)
    (if Nat.ltb 1 number then Some (Z.of_nat number - 1)%Z else None)
    (firstn PAGE_SIZE (skipn ((number - 1) * PAGE_SIZE) object_list)).

(** How the pagination ends: a page, [NotFound] for an [InvalidPage],
    or the error of the database when the query cannot be run. *)
Inductive Paginated : Type :=
| Found (p : Page)
| NotFound
| OperationalError.

(** [PageNumberPagination.paginate_queryset].  The page number is
    [request.query_params.get('page') or 1], [last] standing for the last
    page; [Paginator.validate_number] takes [int(number)] and refuses
    what is no integer or is below 1 before the rows are counted, and
    what is above the number of pages after.  [evaluated] is what the
    database answers for the query set, [None] when it raises. *)
Definition paginate_queryset (int : str -> option Z) (q : QueryParams)
  (evaluated : option (list Ticket)) : Paginated :=
  let run (number : list Ticket -> option nat) :=
    match evaluated with
    | None => OperationalError
    | Some object_list =>
        match number object_list with
        | Some n => Found (page n object_list)
        | None => NotFound
        end
    end in
  match truthy (query_get (lit "page") q) with
  | None => run (fun _ => Some 1)
  | Some page_number =>
      if eqb page_number (lit "last")
      then run (fun l => Some (num_pages (List.length l)))
      else match int page_number with
           | None => NotFound
           | Some n =>
               if (n <? 1)%Z then NotFound
               else run (fun l => if (n <=? Z.of_nat (num_pages (List.length l)))%Z
                                  then Some (Z.to_nat n) else None)
           end
  end.

End Pagination.

Module TicketListCreateAPIView.

Import PyStr Fields Models Http.

(** [filterset_fields = ['status']] *)
Definition filterset_fields : list str := [lit "status"].

Definition get_queryset (q : QueryParams) (w : World) : list Ticket :=
  let queryset := rows w in
  (* Filter by status *)
  let status_filter := query_get (lit "status") q in
  let queryset :=
    match truthy status_filter with
    | Some st => filter (fun t => eqb (status t) st) queryset
    | None => queryset
    end in
  (* Search functionality *)
  let search := query_get (lit "search") q in
  let queryset :=
    match truthy search with
    | Some term =>
        filter (fun t => Sqlite.icontains term (title t)
                         || Sqlite.icontains term (description t)
                         || Sqlite.icontains term (contact_email t)) queryset
    | None => queryset
    end in
  queryset.

Definition msg_select_valid_choice (value : str) : str :=
  lit "Select a valid choice. " ++ value
  ++ lit " is not one of the available choices.".

(** [DjangoFilterBackend.filter_queryset] for the filter set generated
    from [filterset_fields]: one exact-match choice filter on [status].
    An empty value filters nothing, a value outside the choices makes the
    filter set invalid, which the backend raises as a [ValidationError];
    no other query parameter is read. *)
Definition filter_queryset (q : QueryParams) (queryset : list Ticket)
  : Errors + list Ticket :=
  match truthy (query_get (lit "status") q) with
  | None => inr queryset
  | Some value =>
      if existsb (eqb value) status_values then
        inr (filter (fun t => eqb (status t) value) queryset)
      else inl [(lit "status", [msg_select_valid_choice value])]
  end.

(** What the database answers when the query set is run: the rows, or
    [None] for its "pattern too complex" error, which the [LIKE] of a
    search raises on the first row it is asked to match when the pattern
    built from the term is longer than the limit. *)
Definition evaluate (q : QueryParams) (w : World) (queryset : list Ticket)
  : option (list Ticket) :=
  match truthy (query_get (lit "search") q) with
  | Some term =>
      if Sqlite.too_complex (Sqlite.contains_pattern term)
         && negb (Nat.eqb (List.length (rows w)) 0)
      then None else Some queryset
  | None => Some queryset
  end.

(** [ListCreateAPIView.get], that is [ListModelMixin.list]:
    [self.filter_queryset(self.get_queryset())] through the two entries
    of [filter_backends], then [self.paginate_queryset] and the
    paginated response of the serialized page.  The query set is lazy:
    the database is asked when the paginator counts. *)
Definition get (int : str -> option Z) (q : QueryParams) (w : World) : Response :=
  match filter_queryset q (get_queryset q w) with
  | inl errors => HTTP_400_BAD_REQUEST errors
  | inr queryset =>
      let queryset := Ordering.filter_queryset q queryset in
      match Pagination.paginate_queryset int q (evaluate q w queryset) with
      | Pagination.Found p =>
          HTTP_200_LIST (mkPage (count p) (next p) (previous p)
                           (map TicketSerializer.data (results p)))
      | Pagination.NotFound => HTTP_404_NOT_FOUND
      | Pagination.OperationalError => HTTP_500_INTERNAL_SERVER_ERROR
      end
  end.

(** The tickets a list answer carries; another answer carries none. *)
Definition results_of (r : Response) : list Ticket :=
  match r with
  | HTTP_200_LIST p => results p
  | _ => []
  end.

(** The count a list answer reports. *)
Definition count_of (r : Response) : nat :=
  match r with
  | HTTP_200_LIST p => count p
  | _ => 0
  end.

Section Email.

Variable well_formed_email : str -> bool.

Definition create (data : Data) (w : World) : Response * World :=
  match TicketCreateSerializer.run_validation well_formed_email data with
  | inr validated_data =>
      let (ticket, w') := TicketCreateSerializer.save validated_data w in
      (* Return full ticket data using TicketSerializer *)
      (HTTP_201_CREATED (TicketSerializer.data ticket), w')
  | inl errors => (HTTP_400_BAD_REQUEST errors, w)
  end.

End Email.

End TicketListCreateAPIView.

Module TicketRetrieveUpdateAPIView.

Import PyStr Fields Models Http.

(** [self.get_object()]: the row with the key of the URL, [None] when
    the lookup raises [Http404]. *)
Definition get_object (pk : Z) (w : World) : option Ticket := objects_get pk w.

(** [RetrieveModelMixin.retrieve] *)
Definition retrieve (pk : Z) (w : World) : Response :=
  match get_object pk w with
  | Some instance => HTTP_200_OK (TicketSerializer.data instance)
  | None => HTTP_404_NOT_FOUND
  end.

Section Email.

Variable well_formed_email : str -> bool.

(** [update(self, request, *args, **kwargs)], with
    [partial = kwargs.pop('partial', False)] as its first argument. *)
Definition update (partial : bool) (pk : Z) (data : Data) (w : World)
  : Response * World :=
  match get_object pk w with
  | None => (HTTP_404_NOT_FOUND, w)
  | Some instance =>
      match TicketUpdateSerializer.run_validation well_formed_email partial data with
      | inr validated_data =>
          let (ticket, w') := TicketUpdateSerializer.save instance validated_data w in
          (* Return full ticket data using TicketSerializer *)
          (HTTP_200_OK (TicketSerializer.data ticket), w')
      | inl errors => (HTTP_400_BAD_REQUEST errors, w)
      end
  end.

(** [UpdateModelMixin.partial_update]: [kwargs['partial'] = True], then
    [self.update]. *)
Definition partial_update (pk : Z) (data : Data) (w : World) : Response * World :=
  update true pk data w.

(** [RetrieveUpdateAPIView.put] and [.patch] *)
Definition put (pk : Z) (data : Data) (w : World) : Response * World :=
  update false pk data w.

Definition patch (pk : Z) (data : Data) (w : World) : Response * World :=
  partial_update pk data w.

End Email.

End TicketRetrieveUpdateAPIView.

Module StatsView.

Import PyStr Models Http.

(** [Ticket.objects.filter(status=value).count()] *)
Definition count_status (value : str) (w : World) : nat :=
  List.length (filter (fun t => eqb (status t) value) (rows w)).

(** [ticket_stats(request)]: the request is not read. *)
Definition ticket_stats (q : QueryParams) (w : World) : Response :=
  HTTP_200_STATS
    (mkStats (List.length (rows w))
             (count_status (lit "pending") w)
             (count_status (lit "accepted") w)
             (count_status (lit "resolved") w)
             (count_status (lit "rejected") w)).

End StatsView.

(* ------------------------------------------------------------------ *)
(** ** admin.py                                                        *)
(* ------------------------------------------------------------------ *)

Module TicketAdmin.

Import PyStr Fields Models Http.

(** [def has_delete_permission(self, request, obj=None): return False] *)
Definition has_delete_permission (obj : option Ticket) : bool := false.

(** The change form: the editable fields of [fieldsets]; the fields of
    [readonly_fields] are shown and never read.  A form posts text. *)
Record Form : Type := mkForm {
  form_title : str;
  form_description : str;
  form_status : str;
  form_contact_email : str;
  form_contact_phone : str
}.

(** What the console can be asked to do with tickets. *)
Inductive AdminRequest : Type :=
| changelist_view
| add_view (form : Form)
| change_view (pk : Z) (form : Form)
| delete_view (pk : Z)
| delete_selected (selected : list Z).

(** The change list is built with its filters: of the three entries of
    [list_filter], [created_at] and [updated_at] are date filters, and
    each reads the clock once for its "Today" and "Past 7 days" links. *)
Definition date_filters (w : World) : World :=
  snd (timezone_now (snd (timezone_now w))).

(** [log_addition] and [log_change]: the [LogEntry] of a saved form takes
    its [action_time] from the clock. *)
Definition log_entry (w : World) : World := snd (timezone_now w).

Section Email.

Variable well_formed_email : str -> bool.

(** Whether a stripped text passes a form field with this length limit. *)
Definition text_ok (max_length : option nat) (value : str) : bool :=
  negb (eqb value [])
  && match max_length with Some n => Nat.leb (len value) n | None => true end
  && negb (has_nul value).

(** [ModelForm.is_valid()]: the names of the failing fields and the
    cleaned values.  Text is stripped; an empty phone number is stored as
    NULL; the status must be one of the choices. *)
Definition clean (form : Form) : list str * ValidatedData :=
  let title := strip (form_title form) in
  let description := strip (form_description form) in
  let email := strip (form_contact_email form) in
  let phone := strip (form_contact_phone form) in
  let bad :=
    (if text_ok (Some 200) title then [] else [lit "title"])
    ++ (if text_ok None description then [] else [lit "description"])
    ++ (if existsb (eqb (form_status form)) status_values
        then [] else [lit "status"])
    ++ (if text_ok (Some 254) email && well_formed_email email
        then [] else [lit "contact_email"])
    ++ (if eqb phone [] || text_ok (Some 20) phone
        then [] else [lit "contact_phone"]) in
  (bad,
   [ (lit "title", Some title); (lit "description", Some description);
     (lit "status", Some (form_status form)); (lit "contact_email", Some email);
     (lit "contact_phone", if eqb phone [] then None else Some phone) ]).

(** The views of [ModelAdmin] for this registration.  [delete_view]
    raises [PermissionDenied]; the [delete_selected] action is not
    offered unless [has_delete_permission] grants it, so a request for it
    shows the change list. *)
Definition handle (req : AdminRequest) (w : World) : Response * World :=
  match req with
  | changelist_view => (ADMIN_CHANGELIST (rows w), date_filters w)
  | add_view form =>
      match clean form with
      | ([], cleaned) =>
          let (_, w') := objects_create cleaned w in (HTTP_302_FOUND, log_entry w')
      | (bad, _) => (ADMIN_FORM_ERRORS bad, w)
      end
  | change_view pk form =>
      match objects_get pk w with
      | None => (HTTP_302_FOUND, w)
      | Some obj =>
          match clean form with
          | ([], cleaned) =>
              let (_, w') := save (setattrs obj cleaned) w in
              (HTTP_302_FOUND, log_entry w')
          | (bad, _) => (ADMIN_FORM_ERRORS bad, w)
          end
      end
  | delete_view pk =>
      if has_delete_permission (objects_get pk w)
      then (HTTP_302_FOUND, objects_delete pk w)
      else (HTTP_403_FORBIDDEN, w)
  | delete_selected selected =>
      if has_delete_permission None
      then (HTTP_302_FOUND, fold_left (fun acc pk => objects_delete pk acc) selected w)
      else (ADMIN_CHANGELIST (rows w), date_filters w)
  end.

End Email.

End TicketAdmin.

(* ------------------------------------------------------------------ *)
(** ** urls.py                                                         *)
(* ------------------------------------------------------------------ *)

Module Urls.

Import PyStr Fields Models Http.

(** The request methods that name an operation on tickets; HEAD and
    OPTIONS only read. *)
Inductive Method : Type := GET | POST | PUT | PATCH | DELETE.

(** The three entries of [urlpatterns], by their names. *)
Inductive Path : Type :=
| ticket_list_create
| ticket_detail (pk : Z)
| ticket_stats.

Record Request : Type := mkRequest {
  method : Method;
  path : Path;
  query_params : QueryParams;
  data : Data
}.

Section Builtins.

(** The verdict of Django's address check, and Python's [int] on a
    [str], [None] when it raises [ValueError]. *)
Variable well_formed_email : str -> bool.
Variable int : str -> option Z.

(** The resolver and the method dispatch of the views: a generic view
    answers the methods its class defines ([ListCreateAPIView]: get and
    post; [RetrieveUpdateAPIView]: get, put and patch), [ticket_stats] is
    an [api_view] for GET, and [<int:pk>] matches no negative number. *)
Definition dispatch (r : Request) (w : World) : Response * World :=
  match path r, method r with
  | ticket_list_create, GET =>
      (TicketListCreateAPIView.get int (query_params r) w, w)
  | ticket_list_create, POST =>
      TicketListCreateAPIView.create well_formed_email (data r) w
  | ticket_detail pk, m =>
      if Z.ltb pk 0 then (HTTP_404_NOT_FOUND, w)
      else match m with
           | GET => (TicketRetrieveUpdateAPIView.retrieve pk w, w)
           | PUT => TicketRetrieveUpdateAPIView.put well_formed_email pk (data r) w
           | PATCH => TicketRetrieveUpdateAPIView.patch well_formed_email pk (data r) w
           | _ => (HTTP_405_METHOD_NOT_ALLOWED, w)
           end
  | ticket_stats, GET => (StatsView.ticket_stats (query_params r) w, w)
  | _, _ => (HTTP_405_METHOD_NOT_ALLOWED, w)
  end.

(** One operation on the running system: a request to the API or an
    action in the administrative console. *)
Inductive Operation : Type :=
| Api (r : Request)
| Console (a : TicketAdmin.AdminRequest).

Definition step (op : Operation) (w : World) : Response * World :=
  match op with
  | Api r => dispatch r w
  | Console a => TicketAdmin.handle well_formed_email a w
  end.

(** The store after a sequence of operations. *)
Definition run (ops : list Operation) (w : World) : World :=
  fold_left (fun acc op => snd (step op acc)) ops w.

End Builtins.

End Urls.

(* ------------------------------------------------------------------ *)
(** ** Sample data for the worked examples                             *)
(* ------------------------------------------------------------------ *)

Module Sample.

Import PyStr Fields Models Http.

(** A stand-in verdict for the address check: the text has an at sign
    after its first character. *)
Definition address_check (s : str) : bool :=
  match s with
  | [] => false
  | _ :: r => contains (lit "@") r
  end.

(** A stand-in for [int]: a text of the digits 0 to 9 is its number, any
    other text raises. *)
Fixpoint digits (acc : Z) (s : str) : option Z :=
  match s with
  | [] => Some acc
  | c :: r =>
      if ((48 <=? c) && (c <=? 57))%N
      then digits (10 * acc + Z.of_N (c - 48))%Z r
      else None
  end.

Definition parse_int (s : str) : option Z :=
  match s with
  | [] => None
  | _ => digits 0 s
  end.

(** A clock that advances by one microsecond per reading. *)
Definition ticking (start : Z) : nat -> Z := fun k => (start + Z.of_nat k)%Z.

Definition ticket1 : Ticket :=
  mkTicket 1 (lit "Printer offline") (lit "The office printer does not respond")
           (lit "ann@example.com") (Some (lit "555-0100")) (lit "pending") 100 100.

Definition world1 : World := mkWorld [ticket1] 2 (ticking 1000) 0.

Definition of_status (pk : Z) (st : string) : Ticket :=
  mkTicket pk (lit "Test Ticket") (lit "This is a test ticket description")
           (lit "test@example.com") None (lit st) 10 10.

(** Three pending, two accepted, four resolved and one rejected ticket. *)
Definition world10 : World :=
  mkWorld [ of_status 1 "pending"; of_status 2 "accepted"; of_status 3 "resolved";
            of_status 4 "pending"; of_status 5 "resolved"; of_status 6 "rejected";
            of_status 7 "accepted"; of_status 8 "resolved"; of_status 9 "pending";
            of_status 10 "resolved" ] 11 (ticking 1000) 0.

Definition valid_body : Data :=
  [ (lit "title", JString (lit "  New Support Request "));
    (lit "description",
     JString (lit "This is a detailed description of the support request"));
    (lit "contact_email", JString (lit "user@example.com"));
    (lit "contact_phone", JString (lit "1234567890")) ].





End Sample.

(* ------------------------------------------------------------------ *)
(** ** Predicates on the store                                         *)
(* ------------------------------------------------------------------ *)

Module Invariants.

Import PyStr Fields Models Http.

(** The keys are pairwise different and below the next key. *)
Definition keys_fresh (w : World) : Prop :=
  NoDup (map id (rows w)) /\ forall t, In t (rows w) -> (id t < next_pk w)%Z.

(** Every row has one of the four statuses. *)
Definition statuses_valid (w : World) : Prop :=
  forall t, In t (rows w) -> In (status t) status_values.

(** A clock that never runs backwards. *)
Definition monotone (clock : nat -> Z) : Prop :=
  forall i j, i <= j -> (clock i <= clock j)%Z.

(** No row was updated before it was created, nor after a reading the
    clock has yet to give. *)
Definition stamps_ordered (w : World) : Prop :=
  forall t, In t (rows w) ->
    (created_at t <= updated_at t)%Z
    /\ forall j, ticks w <= j -> (updated_at t <= clock w j)%Z.

(** A stored text: stripped, free of null characters and of surrogates,
    within its limits. *)
Definition stored_text (min_length : nat) (max_length : option nat) (v : str)
  : Prop :=
  strip v = v /\ has_nul v = false /\ first_surrogate v = None
  /\ min_length <= len v
  /\ match max_length with Some n => len v <= n | None => True end.

(** What the serializers let through for an attribute. *)
Definition attr_ok (ev : str -> bool) (attr : str) (value : option str)
  : Prop :=
  if eqb attr (lit "title") then
    match value with
    | Some v => stored_text 3 (Some 200) v
    | None => False
    end
  else if eqb attr (lit "description") then
    match value with
    | Some v => stored_text 10 None v
    | None => False
    end
  else if eqb attr (lit "contact_email") then
    match value with
    | Some v => stored_text 1 (Some 254) v /\ ev v = true
    | None => False
    end
  else if eqb attr (lit "contact_phone") then
    match value with
    | Some v => stored_text 0 (Some 20) v
    | None => True
    end
  else if eqb attr (lit "status") then
    match value with
    | Some v => In v status_values
    | None => False
    end
  else True.

(** Every attribute of the row is one the serializers let through. *)
Definition row_ok (ev : str -> bool) (t : Ticket) : Prop :=
  forall k v, getattr t k = Some v -> attr_ok ev k v.

Definition rows_ok (ev : str -> bool) (w : World) : Prop :=
  forall t, In t (rows w) -> row_ok ev t.

(** The same, column by column: title, description and contact_email
    are stripped texts without null character or surrogate, of 3 to 200,
    of at least 10 and of 1 to 254 characters, the address check accepts
    the contact_email, the contact_phone is NULL or such a text of at most
    20 characters, and the status is one of the four choices. *)
Definition row_valid (ev : str -> bool) (t : Ticket) : Prop :=
  stored_text 3 (Some 200) (title t)
  /\ stored_text 10 None (description t)
  /\ stored_text 1 (Some 254) (contact_email t)
  /\ ev (contact_email t) = true
  /\ match contact_phone t with
     | Some p => stored_text 0 (Some 20) p
     | None => True
     end
  /\ In (status t) status_values.

(** The answers that report a refusal. *)
Definition is_error (r : Response) : bool :=
  match r with
  | HTTP_400_BAD_REQUEST _ | HTTP_403_FORBIDDEN | HTTP_404_NOT_FOUND
  | HTTP_405_METHOD_NOT_ALLOWED | HTTP_500_INTERNAL_SERVER_ERROR
  | ADMIN_FORM_ERRORS _ => true
  | _ => false
  end.

(** Two bodies give the same value, or none, for each of the keys. *)
Definition agree_on (keys : list str) (d d' : Data) : Prop :=
  forall k, In k keys -> lookup k d = lookup k d'.

(** The tickets a list request selects, search and status together. *)
Definition selected_by (q : QueryParams) (t : Ticket) : Prop :=
  match truthy (query_get (lit "search") q) with
  | Some term =>
      Sqlite.selects term (title t) \/ Sqlite.selects term (description t)
      \/ Sqlite.selects term (contact_email t)
  | None => True
  end
  /\ match truthy (query_get (lit "status") q) with
     | Some st => status t = st
     | None => True
     end.

End Invariants.

(* ------------------------------------------------------------------ *)
(** * Properties                                                       *)
(* ------------------------------------------------------------------ *)

(** ** Comparing, stripping and searching text *)

Section StringFacts.

Import PyStr.

Lemma eqb_eq (a b : str) : eqb a b = true <-> a = b.
Proof.
  revert b. induction a as [|x a IH]; intros [|y b]; simpl;
    try (split; [discriminate | discriminate]); [tauto|].
  rewrite andb_true_iff, N.eqb_eq, IH. split.
  - intros [-> ->]. reflexivity.
  - intros H. injection H as -> ->. auto.
Qed.

Lemma eqb_refl (a : str) : eqb a a = true.
Proof. now apply eqb_eq. Qed.

Lemma eqb_neq (a b : str) : eqb a b = false <-> a <> b.
Proof.
  rewrite <- eqb_eq. destruct (eqb a b); split; congruence.
Qed.

Lemma compare_antisym (a b : str) :
  PyStr.compare b a = CompOpp (PyStr.compare a b).
Proof.
  revert b. induction a as [|x a IH]; intros [|y b]; simpl; try reflexivity.
  rewrite (N.compare_antisym x y).
  destruct (N.compare x y); simpl; auto.
Qed.

Lemma lstrip_shape (s : str) :
  lstrip s = []
  \/ exists c r, lstrip s = c :: r /\ isspace c = false.
Proof.
  induction s as [|c r IH]; simpl.
  - now left.
  - destruct (isspace c) eqn:E.
    + exact IH.
    + right. now exists c, r.
Qed.

Lemma lstrip_fixed (c : N) (r : str) :
  isspace c = false -> lstrip (c :: r) = c :: r.
Proof. intros E. simpl. now rewrite E. Qed.

Lemma rstrip_keeps_head (c : N) (r : str) :
  isspace c = false -> exists r', rstrip (c :: r) = c :: r'.
Proof.
  intros E. simpl. destruct (rstrip r).
  - rewrite E. now exists [].
  - now eexists.
Qed.

Lemma rstrip_cons (c : N) (r : str) :
  rstrip (c :: r) =
  match rstrip r with
  | [] => if isspace c then [] else [c]
  | r' => c :: r'
  end.
Proof. reflexivity. Qed.

Lemma rstrip_idem (s : str) : rstrip (rstrip s) = rstrip s.
Proof.
  induction s as [|c r IH]; [reflexivity|].
  rewrite rstrip_cons. destruct (rstrip r) as [|d r'] eqn:E.
  - destruct (isspace c) eqn:Ec; [reflexivity|].
    rewrite rstrip_cons. simpl. now rewrite Ec.
  - rewrite rstrip_cons, IH. reflexivity.
Qed.

Lemma lstrip_rstrip_lstrip (s : str) :
  lstrip (rstrip (lstrip s)) = rstrip (lstrip s).
Proof.
  destruct (lstrip_shape s) as [E | (c & r & E & Hc)]; rewrite E.
  - reflexivity.
  - destruct (rstrip_keeps_head c r Hc) as [r' E']. rewrite E'.
    now apply lstrip_fixed.
Qed.

(** Stripping twice is stripping once: [value.strip().strip()]. *)
Lemma strip_idem (s : str) : strip (strip s) = strip s.
Proof.
  unfold strip. rewrite lstrip_rstrip_lstrip. apply rstrip_idem.
Qed.

(** Stripping removes white space only: a test that no white space
    passes gives the same verdict before and after. *)
Lemma existsb_lstrip (p : N -> bool) (s : str) :
  (forall c, isspace c = true -> p c = false) ->
  existsb p (lstrip s) = existsb p s.
Proof.
  intros Hp. induction s as [|c r IH]; simpl; [reflexivity|].
  destruct (isspace c) eqn:E; [|reflexivity].
  now rewrite (Hp c E).
Qed.

Lemma existsb_rstrip (p : N -> bool) (s : str) :
  (forall c, isspace c = true -> p c = false) ->
  existsb p (rstrip s) = existsb p s.
Proof.
  intros Hp. induction s as [|c r IH]; [reflexivity|].
  rewrite rstrip_cons. cbn [existsb]. rewrite <- IH.
  destruct (rstrip r) as [|d r'] eqn:E; [|reflexivity].
  destruct (isspace c) eqn:Ec; simpl.
  - now rewrite (Hp c Ec).
  - reflexivity.
Qed.

Lemma existsb_strip (p : N -> bool) (s : str) :
  (forall c, isspace c = true -> p c = false) ->
  existsb p (strip s) = existsb p s.
Proof.
  intros Hp. unfold strip. now rewrite existsb_rstrip, existsb_lstrip.
Qed.

Lemma has_nul_existsb (s : str) : has_nul s = existsb (fun c => (c =? 0)%N) s.
Proof. induction s as [|c r IH]; simpl; [reflexivity | now rewrite IH]. Qed.

Lemma isspace_not_nul (c : N) : isspace c = true -> (c =? 0)%N = false.
Proof.
  intros H. destruct (N.eqb_spec c 0) as [-> | _]; [discriminate H | reflexivity].
Qed.

Lemma isspace_not_surrogate (c : N) : isspace c = true -> is_surrogate c = false.
Proof.
  unfold isspace, is_surrogate. intros H.
  destruct (N.leb_spec 0xD800 c) as [Hlo | _]; [|reflexivity].
  destruct (N.leb_spec c 0xDFFF) as [Hhi | _]; [|reflexivity].
  exfalso. revert H.
  repeat match goal with
         | |- context [(?a <=? ?b)%N] => destruct (N.leb_spec a b)
         | |- context [(?a =? ?b)%N] => destruct (N.eqb_spec a b)
         end; simpl; try discriminate; intros _; lia.
Qed.

(** Stripping neither adds nor removes a null character. *)
Lemma has_nul_strip (s : str) : has_nul (strip s) = has_nul s.
Proof.
  rewrite !has_nul_existsb. apply existsb_strip. exact isspace_not_nul.
Qed.

(** Nor a surrogate. *)
Lemma has_surrogate_strip (s : str) : has_surrogate (strip s) = has_surrogate s.
Proof. apply existsb_strip. exact isspace_not_surrogate. Qed.

Lemma has_nul_in (s : str) : has_nul s = true <-> In 0%N s.
Proof.
  induction s as [|c r IH]; simpl; [split; [discriminate | tauto]|].
  rewrite orb_true_iff, N.eqb_eq, IH. split; intros [H | H]; auto.
Qed.

Lemma has_nul_out (s : str) : has_nul s = false <-> ~ In 0%N s.
Proof.
  rewrite <- has_nul_in. destruct (has_nul s); split; congruence.
Qed.

Lemma has_surrogate_in (s : str) :
  has_surrogate s = true <-> exists c, In c s /\ (0xD800 <= c <= 0xDFFF)%N.
Proof.
  unfold has_surrogate. rewrite existsb_exists. split.
  - intros (c & Hin & Hc). exists c. split; [assumption|].
    unfold is_surrogate in Hc. apply andb_true_iff in Hc.
    destruct Hc as [H1 H2]. apply N.leb_le in H1, H2. lia.
  - intros (c & Hin & Hc). exists c. split; [assumption|].
    unfold is_surrogate. apply andb_true_iff. split; apply N.leb_le; lia.
Qed.

Lemma first_surrogate_none (s : str) :
  first_surrogate s = None <-> has_surrogate s = false.
Proof.
  unfold first_surrogate, has_surrogate.
  induction s as [|c r IH]; simpl; [tauto|].
  destruct (is_surrogate c); simpl; [split; discriminate | exact IH].
Qed.

Lemma eqb_empty_len (s : str) : eqb s [] = true <-> len s = 0.
Proof.
  destruct s; simpl; split; intros; try reflexivity; discriminate.
Qed.

Lemma startswith_spec (p s : str) :
  startswith p s = true <-> exists post, s = p ++ post.
Proof.
  revert s. induction p as [|a p IH]; intros s; simpl.
  - split; [intros _; now exists s | reflexivity].
  - destruct s as [|b s]; simpl.
    + split; [discriminate | intros [post H]; discriminate].
    + rewrite andb_true_iff, N.eqb_eq, IH. split.
      * intros [-> [post ->]]. now exists post.
      * intros [post H]. injection H as -> ->. split; [reflexivity | now exists post].
Qed.

(** [contains] decides whether the needle is a substring of the text. *)
Lemma contains_spec (needle hay : str) :
  contains needle hay = true <-> exists pre post, hay = pre ++ needle ++ post.
Proof.
  induction hay as [|c r IH].
  - simpl. rewrite orb_false_r, startswith_spec. split.
    + intros [post H]. now exists [], post.
    + intros (pre & post & H). destruct pre; simpl in H.
      * now exists post.
      * discriminate.
  - cbn [contains]. rewrite orb_true_iff, startswith_spec, IH. split.
    + intros [[post H] | (pre & post & H)].
      * now exists [], post.
      * exists (c :: pre), post. simpl. now rewrite H.
    + intros (pre & post & H). destruct pre as [|d pre]; simpl in H.
      * left. now exists post.
      * right. injection H as -> H. now exists pre, post.
Qed.

End StringFacts.

(** ** The [LIKE] of the database *)

Section LikeFacts.

Import PyStr Sqlite.

Lemma c_string_clean (s : str) : ~ In 0%N s -> c_string s = s.
Proof.
  induction s as [|c r IH]; intros H; simpl; [reflexivity|].
  destruct (N.eqb_spec c 0) as [-> | _].
  - exfalso. apply H. now left.
  - rewrite IH; [reflexivity|]. intros Hin. apply H. now right.
Qed.

Lemma c_string_cut (p rest : str) :
  ~ In 0%N p -> c_string (p ++ 0%N :: rest) = p.
Proof.
  induction p as [|c r IH]; intros H; simpl; [reflexivity|].
  destruct (N.eqb_spec c 0) as [-> | _].
  - exfalso. apply H. now left.
  - rewrite IH; [reflexivity|]. intros Hin. apply H. now right.
Qed.

Lemma c_string_up_to (s : str) : up_to_nul s (c_string s).
Proof.
  induction s as [|c r [Hn Hs]]; simpl.
  - split; [tauto | now left].
  - destruct (N.eqb_spec c 0) as [-> | Hc].
    + split; [simpl; tauto|]. right. now exists r.
    + split.
      * simpl. intros [H | H]; [congruence | tauto].
      * destruct Hs as [Hs | [rest Hs]].
        -- left. now rewrite <- Hs.
        -- right. exists rest. simpl. now rewrite <- Hs.
Qed.

Lemma up_to_nul_unique (s p : str) : up_to_nul s p -> p = c_string s.
Proof.
  intros [Hn [-> | [rest ->]]].
  - symmetry. now apply c_string_clean.
  - symmetry. now apply c_string_cut.
Qed.

Lemma c_string_has_nul (s : str) : has_nul s = false -> c_string s = s.
Proof. intros H. apply c_string_clean. now apply has_nul_out. Qed.

Lemma c_string_app (a b : str) :
  c_string (a ++ b) = if has_nul a then c_string a else a ++ c_string b.
Proof.
  induction a as [|c r IH]; simpl; [reflexivity|].
  destruct (N.eqb_spec c 0) as [-> | _]; simpl; [reflexivity|].
  rewrite IH. now destruct (has_nul r).
Qed.

Lemma has_nul_prep (x : str) : has_nul (prep_for_like_query x) = has_nul x.
Proof.
  unfold prep_for_like_query.
  induction x as [|c r IH]; simpl; [reflexivity|].
  destruct ((c =? backslash)%N || (c =? percent)%N || (c =? underscore)%N) eqn:E;
    simpl; rewrite IH; [|reflexivity].
  destruct (N.eqb_spec c 0) as [-> | _]; [discriminate E | reflexivity].
Qed.

Lemma c_string_prep (x : str) :
  c_string (prep_for_like_query x) = prep_for_like_query (c_string x).
Proof.
  unfold prep_for_like_query.
  induction x as [|c r IH]; [reflexivity|].
  cbn [flat_map c_string].
  destruct (N.eqb_spec c 0) as [-> | Hc]; [reflexivity|].
  cbn [flat_map].
  destruct ((c =? backslash)%N || (c =? percent)%N || (c =? underscore)%N);
    cbn [app c_string]; change ((backslash =? 0)%N) with false; cbn iota;
    destruct (N.eqb_spec c 0); try contradiction; now rewrite IH.
Qed.

(** What [LIKE] reads of the pattern built from a term: the term up to
    its first NUL between percent signs, the closing one cut off with
    the rest when the term holds a NUL. *)
Lemma c_string_pattern (term : str) :
  c_string (contains_pattern term)
  = [percent] ++ prep_for_like_query (c_string term)
    ++ (if has_nul term then [] else [percent]).
Proof.
  unfold contains_pattern. cbn [app c_string].
  change ((percent =? 0)%N) with false. cbn iota. f_equal.
  rewrite c_string_app, has_nul_prep, c_string_prep.
  destruct (has_nul term) eqn:E.
  - now rewrite app_nil_r.
  - now rewrite (c_string_has_nul term E).
Qed.

Lemma tokens_prep (x rest : str) :
  tokens false (prep_for_like_query x ++ rest)
  = option_map (app (map Literal x)) (tokens false rest).
Proof.
  unfold prep_for_like_query.
  induction x as [|c r IH]; simpl.
  - now destruct (tokens false rest).
  - destruct (N.eqb_spec c backslash) as [-> | H1]; simpl.
    + rewrite IH. now destruct (tokens false rest).
    + destruct (N.eqb_spec c percent) as [-> | H2]; simpl.
      * rewrite IH. now destruct (tokens false rest).
      * destruct (N.eqb_spec c underscore) as [-> | H3]; simpl.
        -- rewrite IH. now destruct (tokens false rest).
        -- destruct (N.eqb_spec c backslash); [contradiction|].
           destruct (N.eqb_spec c percent); [contradiction|].
           destruct (N.eqb_spec c underscore); [contradiction|].
           rewrite IH. now destruct (tokens false rest).
Qed.

Lemma tokens_pattern (term : str) :
  tokens false (c_string (contains_pattern term))
  = Some (MatchAll :: map Literal (c_string term)
            ++ (if has_nul term then [] else [MatchAll])).
Proof.
  rewrite c_string_pattern. cbn [app tokens].
  change ((percent =? backslash)%N) with false.
  change ((percent =? percent)%N) with true. cbn iota.
  rewrite tokens_prep. now destruct (has_nul term).
Qed.

Lemma tolower_same (c d : N) :
  (tolower c =? tolower d)%N = true <-> same_letter c d.
Proof.
  rewrite N.eqb_eq. unfold tolower, same_letter.
  destruct (N.leb_spec 65 c); destruct (N.leb_spec c 90);
    destruct (N.leb_spec 65 d); destruct (N.leb_spec d 90); simpl; lia.
Qed.

Lemma patternCompare_nil (s : str) : patternCompare [] s = true <-> s = [].
Proof. destruct s; simpl; split; intros; try reflexivity; discriminate. Qed.

Lemma patternCompare_all_unfold (rest : list Token) (s : str) :
  patternCompare (MatchAll :: rest) s
  = patternCompare rest s
    || match s with
       | [] => false
       | _ :: s' => patternCompare (MatchAll :: rest) s'
       end.
Proof. destruct s; reflexivity. Qed.

Lemma patternCompare_all (rest : list Token) (s : str) :
  patternCompare (MatchAll :: rest) s = true
  <-> exists pre post, s = pre ++ post /\ patternCompare rest post = true.
Proof.
  induction s as [|c r IH]; rewrite patternCompare_all_unfold.
  - rewrite orb_false_r. split.
    + intros H. now exists [], [].
    + intros (pre & post & H & Hm). destruct pre; [|discriminate].
      simpl in H. now subst.
  - rewrite orb_true_iff, IH. split.
    + intros [H | (pre & post & -> & Hm)].
      * now exists [], (c :: r).
      * now exists (c :: pre), post.
    + intros (pre & post & H & Hm). destruct pre as [|d pre]; simpl in H.
      * left. now subst.
      * right. injection H as -> ->. now exists pre, post.
Qed.

Lemma patternCompare_literals (a : str) (rest : list Token) (s : str) :
  patternCompare (map Literal a ++ rest) s = true
  <-> exists mid post,
        s = mid ++ post /\ Forall2 same_letter a mid
        /\ patternCompare rest post = true.
Proof.
  revert s. induction a as [|c a IH]; intros s; cbn [map app].
  - split.
    + intros H. exists [], s. repeat split; [constructor | assumption].
    + intros (mid & post & -> & Hf & Hm). inversion Hf; subst. exact Hm.
  - cbn [patternCompare]. destruct s as [|d s].
    + split; [discriminate|].
      intros (mid & post & H & Hf & _). inversion Hf; subst. discriminate.
    + rewrite andb_true_iff, tolower_same, IH. split.
      * intros (Hcd & mid & post & -> & Hf & Hm).
        exists (d :: mid), post. repeat split; [now constructor | assumption].
      * intros (mid & post & H & Hf & Hm). inversion Hf; subst.
        injection H as <- ->. split; [assumption|]. eauto.
Qed.

(** The [icontains] of the ORM on SQLite selects what [selects] says. *)
Lemma icontains_spec (term text : str) :
  icontains term text = true <-> selects term text.
Proof.
  unfold icontains, like. rewrite tokens_pattern, patternCompare_all.
  unfold selects. split.
  - intros (pre & post & Hs & Hm). exists (c_string text).
    split; [apply c_string_up_to|].
    apply patternCompare_literals in Hm.
    destruct Hm as (mid & post' & -> & Hf & Hm).
    destruct (has_nul term) eqn:E.
    + right. split; [now apply has_nul_in|].
      exists (c_string term). split; [apply c_string_up_to|].
      apply patternCompare_nil in Hm. subst post'.
      exists pre, mid. rewrite app_nil_r in Hs. auto.
    + left. split; [now apply has_nul_out|].
      rewrite (c_string_has_nul term E) in Hf. now exists pre, mid, post'.
  - intros (text' & Ht & [[Hn (pre & mid & post & Hs & Hf)]
                         | [Hn (term' & Hterm & pre & mid & Hs & Hf)]]);
      apply up_to_nul_unique in Ht; subst text'.
    + exists pre, (mid ++ post). split; [assumption|].
      apply patternCompare_literals. exists mid, post.
      rewrite (c_string_clean term Hn).
      apply has_nul_out in Hn. rewrite Hn. repeat split; [assumption|].
      apply patternCompare_all. exists post, []. now rewrite app_nil_r.
    + apply up_to_nul_unique in Hterm. subst term'.
      exists pre, mid. split; [assumption|].
      apply patternCompare_literals. exists mid, [].
      apply has_nul_in in Hn. rewrite Hn, app_nil_r. auto.
Qed.

(** For a term and a text without NUL, [selects] is occurrence. *)
Lemma selects_clean (term text : str) :
  ~ In 0%N term -> ~ In 0%N text ->
  (selects term text <-> ci_substring term text).
Proof.
  intros Hterm Htext. unfold selects. split.
  - intros (text' & Ht & [[_ H] | [Hin _]]); [|contradiction].
    apply up_to_nul_unique in Ht. rewrite (c_string_clean text Htext) in Ht.
    now subst.
  - intros H. exists text. split; [|auto].
    split; [assumption | now left].
Qed.

End LikeFacts.
(** ** The model: attributes, saving and looking up *)

Section ModelFacts.

Import PyStr Models.

Lemma setattr_other (t : Ticket) (k k' : str) (v : option str) :
  k <> k' -> getattr (setattr t k v) k' = getattr t k'.
Proof.
  intros Hne. unfold setattr.
  destruct (eqb k (lit "title")) eqn:E1;
  [ apply eqb_eq in E1; subst
  | destruct (eqb k (lit "description")) eqn:E2;
    [ apply eqb_eq in E2; subst
    | destruct (eqb k (lit "contact_email")) eqn:E3;
      [ apply eqb_eq in E3; subst
      | destruct (eqb k (lit "contact_phone")) eqn:E4;
        [ apply eqb_eq in E4; subst
        | destruct (eqb k (lit "status")) eqn:E5;
          [ apply eqb_eq in E5; subst | reflexivity ] ] ] ] ];
  destruct v; try reflexivity; unfold getattr; simpl;
  repeat match goal with
         | |- context [eqb k' ?b] =>
             let E := fresh "E" in
             destruct (eqb k' b) eqn:E;
             [apply eqb_eq in E; subst; try congruence | ]
         end; reflexivity.
Qed.

Lemma setattr_same (t : Ticket) (k v : str) :
  In k text_attrs -> getattr (setattr t k (Some v)) k = Some (Some v).
Proof.
  simpl. intros [<- | [<- | [<- | [<- | []]]]]; reflexivity.
Qed.

Lemma setattr_fixed (t : Ticket) (k : str) (v : option str) :
  id (setattr t k v) = id t
  /\ created_at (setattr t k v) = created_at t
  /\ updated_at (setattr t k v) = updated_at t.
Proof.
  unfold setattr.
  repeat match goal with
         | |- context [if eqb k ?b then _ else _] =>
             destruct (eqb k b)
         end; destruct v; simpl; auto.
Qed.

Lemma setattrs_fixed (kwargs : list (str * option str)) (t : Ticket) :
  id (setattrs t kwargs) = id t
  /\ created_at (setattrs t kwargs) = created_at t
  /\ updated_at (setattrs t kwargs) = updated_at t.
Proof.
  unfold setattrs. revert t.
  induction kwargs as [|[k v] rest IH]; intros t; simpl; [auto|].
  destruct (IH (setattr t k v)) as (H1 & H2 & H3).
  destruct (setattr_fixed t k v) as (G1 & G2 & G3).
  rewrite H1, H2, H3. auto.
Qed.

(** An attribute no keyword names is left as it was. *)
Lemma setattrs_frame (kwargs : list (str * option str)) (t : Ticket)
  (k : str) :
  ~ In k (map fst kwargs) -> getattr (setattrs t kwargs) k = getattr t k.
Proof.
  unfold setattrs. revert t.
  induction kwargs as [|[k0 v] rest IH]; intros t Hn; simpl; [reflexivity|].
  simpl in Hn. rewrite IH by tauto.
  apply setattr_other. intros ->. tauto.
Qed.

(** A text attribute named once takes the value given for it. *)
Lemma setattrs_set (kwargs : list (str * option str)) (t : Ticket)
  (k v : str) :
  NoDup (map fst kwargs) -> In k text_attrs -> In (k, Some v) kwargs ->
  getattr (setattrs t kwargs) k = Some (Some v).
Proof.
  unfold setattrs. revert t.
  induction kwargs as [|[k0 v0] rest IH]; intros t Hnd Hk Hin; simpl; [destruct Hin|].
  simpl in Hnd. inversion Hnd as [|? ? Hfresh Hnd']; subst.
  destruct Hin as [Heq | Hin].
  - injection Heq as -> ->.
    change (getattr (setattrs (setattr t k (Some v)) rest) k = Some (Some v)).
    rewrite setattrs_frame by assumption. now apply setattr_same.
  - now apply IH.
Qed.

Lemma find_replace (pk : Z) (t0 t1 : Ticket) (rs : list Ticket) :
  id t1 = id t0 ->
  find (fun t => Z.eqb (id t) pk)
       (map (fun r => if Z.eqb (id r) (id t0) then t1 else r) rs)
  = if Z.eqb (id t0) pk
    then match find (fun t => Z.eqb (id t) pk) rs with
         | Some _ => Some t1
         | None => None
         end
    else find (fun t => Z.eqb (id t) pk) rs.
Proof.
  intros Hid. induction rs as [|r rs IH]; simpl.
  - now destruct (Z.eqb (id t0) pk).
  - destruct (Z.eqb (id r) (id t0)) eqn:E1.
    + apply Z.eqb_eq in E1. rewrite Hid, E1.
      destruct (Z.eqb (id t0) pk) eqn:E2; [reflexivity|].
      rewrite IH. try rewrite E2. reflexivity.
    + destruct (Z.eqb (id r) pk) eqn:E2.
      * destruct (Z.eqb (id t0) pk) eqn:E3; [|reflexivity].
        apply Z.eqb_eq in E2, E3. apply Z.eqb_neq in E1. congruence.
      * exact IH.
Qed.

Lemma objects_get_id (pk : Z) (w : World) (t : Ticket) :
  objects_get pk w = Some t -> id t = pk.
Proof.
  unfold objects_get. intros H. apply find_some in H.
  now apply Z.eqb_eq.
Qed.

(** Saving a loaded row: the row read back under its key is the saved
    one, and the rows under other keys are the ones read before. *)
Lemma objects_get_save (pk : Z) (t0 : Ticket) (w : World) :
  objects_get pk (snd (save t0 w))
  = if Z.eqb (id t0) pk
    then match objects_get pk w with
         | Some _ => Some (fst (save t0 w))
         | None => None
         end
    else objects_get pk w.
Proof.
  unfold objects_get, save. simpl. now rewrite find_replace.
Qed.

Lemma save_result (t0 : Ticket) (w : World) :
  fst (save t0 w)
  = mkTicket (id t0) (title t0) (description t0) (contact_email t0)
      (contact_phone t0) (status t0) (created_at t0) (clock w (ticks w)).
Proof. reflexivity. Qed.

(** Inserting a row leaves every row already stored where it was. *)
Lemma objects_get_save_new (pk : Z) (t0 t : Ticket) (w : World) :
  objects_get pk w = Some t -> objects_get pk (snd (save_new t0 w)) = Some t.
Proof.
  unfold objects_get, save_new. simpl. intros H.
  induction (rows w) as [|r rs IH]; simpl in *; [discriminate|].
  destruct (Z.eqb (id r) pk); [assumption | now apply IH].
Qed.

End ModelFacts.

(** ** The serializer loop *)

Section SerializerFacts.

Import PyStr Fields.

Variable partial : bool.
Variable vm : str -> option ValidateMethod.
Variable data : Data.

Lemma to_internal_value_cons (f : Field) (rest : list Field) :
  to_internal_value partial vm (f :: rest) data
  = match validate_field partial vm f data with
    | SkipField => to_internal_value partial vm rest data
    | Validated v =>
        (fst (to_internal_value partial vm rest data),
         (field_name f, v) :: snd (to_internal_value partial vm rest data))
    | ValidationError detail =>
        ((field_name f, detail) :: fst (to_internal_value partial vm rest data),
         snd (to_internal_value partial vm rest data))
    end.
Proof.
  simpl. destruct (to_internal_value partial vm rest data) as [errors ret].
  now destruct (validate_field partial vm f data).
Qed.

(** The errors are exactly the failures of the fields. *)
Lemma errors_iff (fields : list Field) (n : str) (d : ErrorDetail) :
  In (n, d) (fst (to_internal_value partial vm fields data))
  <-> exists f, In f fields /\ field_name f = n
                /\ validate_field partial vm f data = ValidationError d.
Proof.
  induction fields as [|f rest IH].
  - simpl. split; [tauto | intros (f & H & _); destruct H].
  - rewrite to_internal_value_cons. split.
    + intros H.
      assert (Hrest : In (n, d) (fst (to_internal_value partial vm rest data))
                      \/ (field_name f = n
                          /\ validate_field partial vm f data = ValidationError d)).
      { destruct (validate_field partial vm f data) as [|v|d0]; simpl in H; auto.
        destruct H as [Heq | H]; [injection Heq as <- <-; auto | auto]. }
      destruct Hrest as [Hr | [Hn Hv]].
      * apply IH in Hr. destruct Hr as (g & Hg & Hn & Hv).
        exists g. simpl. auto.
      * exists f. simpl. auto.
    + intros (g & [<- | Hg] & Hn & Hv).
      * rewrite Hv. simpl. left. now rewrite Hn.
      * assert (Hr : In (n, d) (fst (to_internal_value partial vm rest data)))
          by (apply IH; eauto).
        destruct (validate_field partial vm f data); simpl; auto.
Qed.

(** The validated data are exactly the values of the fields that passed. *)
Lemma values_iff (fields : list Field) (n : str) (v : option str) :
  In (n, v) (snd (to_internal_value partial vm fields data))
  <-> exists f, In f fields /\ field_name f = n
                /\ validate_field partial vm f data = Validated v.
Proof.
  induction fields as [|f rest IH].
  - simpl. split; [tauto | intros (f & H & _); destruct H].
  - rewrite to_internal_value_cons. split.
    + intros H.
      assert (Hrest : In (n, v) (snd (to_internal_value partial vm rest data))
                      \/ (field_name f = n
                          /\ validate_field partial vm f data = Validated v)).
      { destruct (validate_field partial vm f data) as [|v0|d0]; simpl in H; auto.
        destruct H as [Heq | H]; [injection Heq as <- <-; auto | auto]. }
      destruct Hrest as [Hr | [Hn Hv]].
      * apply IH in Hr. destruct Hr as (g & Hg & Hn & Hv).
        exists g. simpl. auto.
      * exists f. simpl. auto.
    + intros (g & [<- | Hg] & Hn & Hv).
      * rewrite Hv. simpl. left. now rewrite Hn.
      * assert (Hr : In (n, v) (snd (to_internal_value partial vm rest data)))
          by (apply IH; eauto).
        destruct (validate_field partial vm f data); simpl; auto.
Qed.

Lemma value_keys (fields : list Field) (n : str) :
  In n (map fst (snd (to_internal_value partial vm fields data))) ->
  exists f, In f fields /\ field_name f = n
            /\ exists v, validate_field partial vm f data = Validated v.
Proof.
  intros H. apply in_map_iff in H. destruct H as ([n' v] & Hn & Hin).
  simpl in Hn. subst n'. apply values_iff in Hin.
  destruct Hin as (f & Hf & Hn & Hv). eauto 6.
Qed.

Lemma value_keys_nodup (fields : list Field) :
  NoDup (map field_name fields) ->
  NoDup (map fst (snd (to_internal_value partial vm fields data))).
Proof.
  induction fields as [|f rest IH]; intros Hnd.
  - constructor.
  - simpl in Hnd. inversion Hnd as [|? ? Hfresh Hnd']; subst.
    rewrite to_internal_value_cons.
    destruct (validate_field partial vm f data); simpl; auto.
    constructor; auto. intros Hin. apply value_keys in Hin.
    destruct Hin as (g & Hg & Hn & _). apply Hfresh.
    rewrite <- Hn. now apply in_map.
Qed.

Lemma serializer_run_validation_spec (fields : list Field) :
  serializer_run_validation partial vm fields data
  = match fst (to_internal_value partial vm fields data) with
    | [] => inr (snd (to_internal_value partial vm fields data))
    | errors => inl errors
    end.
Proof.
  unfold serializer_run_validation.
  now destruct (to_internal_value partial vm fields data) as [[|e errors] ret].
Qed.

End SerializerFacts.

(** ** What the fields of a ticket accept *)

Section FieldFacts.

Import PyStr Fields.

Lemma validators_pass (vs : list Validator) (v : str) :
  flat_map (fun x => match x v with Some m => [m] | None => [] end) vs = []
  <-> forall x, In x vs -> x v = None.
Proof.
  induction vs as [|x vs IH]; simpl.
  - split; [intros _ y Hy; destruct Hy | reflexivity].
  - destruct (x v) as [m|] eqn:E; simpl.
    + split; [discriminate|]. intros H.
      specialize (H x (or_introl eq_refl)). congruence.
    + rewrite IH. split.
      * intros H y [<- | Hy]; auto.
      * intros H y Hy. apply H. now right.
Qed.

(** A text passes the validators of a [CharField] exactly when it is
    within the limit and holds neither a null character nor a surrogate. *)
Lemma char_validators_pass (name : str) (r n b : bool) (limit : option nat)
  (v : str) :
  run_validators (CharField name r n b limit) v = []
  <-> match limit with Some k => len v <= k | None => True end
      /\ has_nul v = false /\ has_surrogate v = false.
Proof.
  unfold run_validators. rewrite validators_pass.
  cbn [validators CharField].
  assert (Hn : ProhibitNullCharactersValidator v = None <-> has_nul v = false)
    by (unfold ProhibitNullCharactersValidator; destruct (has_nul v);
        split; congruence).
  assert (Hs : ProhibitSurrogateCharactersValidator v = None
               <-> has_surrogate v = false).
  { unfold ProhibitSurrogateCharactersValidator.
    rewrite <- first_surrogate_none.
    destruct (first_surrogate v); simpl; split; congruence. }
  assert (Hm : forall k, MaxLengthValidator k v = None <-> len v <= k).
  { intros k. unfold MaxLengthValidator.
    destruct (Nat.ltb_spec k (len v)); split; try congruence; lia. }
  split.
  - intros H. split; [|split].
    + destruct limit as [k|]; [|exact I].
      apply Hm. apply H. simpl. auto.
    + apply Hn. apply H. apply in_or_app. right. simpl. auto.
    + apply Hs. apply H. apply in_or_app. right. simpl. auto.
  - intros (H1 & H2 & H3) x Hx. apply in_app_or in Hx.
    destruct Hx as [Hx | [<- | [<- | []]]].
    + destruct limit as [k|]; [|destruct Hx].
      destruct Hx as [<- | []]. now apply Hm.
    + now apply Hn.
    + now apply Hs.
Qed.

Lemma validated_cases (f : Field) (v : str) :
  (run_validators f v = [] /\ validated f v = Validated (Some v))
  \/ (exists d, d <> [] /\ run_validators f v = d
                /\ validated f v = ValidationError d).
Proof.
  unfold validated. destruct (run_validators f v) as [|m d].
  - now left.
  - right. exists (m :: d). repeat split. discriminate.
Qed.

(** A [CharField] given a string. *)
Lemma char_run_validation_text (partial : bool) (f : Field) (s : str) :
  kind f = CharKind ->
  run_validation partial f (Some (JString s))
  = if eqb (strip s) [] then
      if allow_blank f then Validated (Some []) else ValidationError [msg_blank]
    else validated f (strip s).
Proof.
  intros Hk. unfold run_validation, field_run_validation, to_internal_value_of.
  rewrite Hk. reflexivity.
Qed.

(** What a [CharField] lets through is a stripped text: the empty text
    where blank is allowed, or a text that passed the validators. *)
Lemma char_validated (partial : bool) (f : Field) (o : option JValue) (v : str) :
  kind f = CharKind ->
  run_validation partial f o = Validated (Some v) ->
  strip v = v
  /\ ((v = [] /\ allow_blank f = true) \/ (v <> [] /\ run_validators f v = [])).
Proof.
  intros Hk. unfold run_validation. rewrite Hk.
  assert (Hval : forall x, eqb (strip x) [] = false ->
                 validated f (strip x) = Validated (Some v) ->
                 strip v = v
                 /\ ((v = [] /\ allow_blank f = true)
                     \/ (v <> [] /\ run_validators f v = []))).
  { intros x Hx H.
    destruct (validated_cases f (strip x)) as [[Hr Hv] | (d & _ & _ & Hv)];
      rewrite Hv in H; [|discriminate].
    injection H as <-. split; [apply strip_idem|]. right.
    split; [now apply eqb_neq | assumption]. }
  destruct o as [d|].
  - destruct (eqb (strip (str_of d)) []) eqn:E.
    + destruct (allow_blank f); intros H; [|discriminate].
      injection H as <-. split; [reflexivity | now left].
    + unfold field_run_validation, to_internal_value_of. rewrite Hk.
      destruct d as [|b|text|s|text]; try discriminate.
      * destruct (allow_null f); discriminate.
      * now apply Hval.
      * now apply Hval.
  - unfold field_run_validation. destruct partial; [discriminate|].
    destruct (required f); discriminate.
Qed.

Lemma null_validated (partial : bool) (f : Field) (o : option JValue) :
  run_validation partial f o = Validated None -> allow_null f = true.
Proof.
  unfold run_validation, field_run_validation, validated.
  assert (H : forall d, d <> JNull ->
            match to_internal_value_of f d with
            | inl value =>
                match run_validators f value with
                | [] => Validated (Some value)
                | m :: l => ValidationError (m :: l)
                end
            | inr detail => ValidationError detail
            end <> Validated None).
  { intros d _. destruct (to_internal_value_of f d) as [x|x]; [|discriminate].
    destruct (run_validators f x); discriminate. }
  destruct (kind f) as [|choices]; destruct o as [d|];
    try (destruct partial; [discriminate | destruct (required f); discriminate]).
  - destruct (eqb (strip (str_of d)) []).
    + destruct (allow_blank f); discriminate.
    + destruct d; try (intros E; exfalso; revert E; apply H; discriminate).
      destruct (allow_null f); [reflexivity | discriminate].
  - destruct d; try (intros E; exfalso; revert E; apply H; discriminate).
    destruct (allow_null f); [reflexivity | discriminate].
Qed.

Variable partial : bool.
Variable vm : str -> option ValidateMethod.
Variable data : Data.

Lemma error_keys_iff (fields : list Field) (n : str) :
  In n (error_keys (serializer_run_validation partial vm fields data))
  <-> exists f d, In f fields /\ field_name f = n
                  /\ validate_field partial vm f data = ValidationError d.
Proof.
  rewrite serializer_run_validation_spec.
  destruct (fst (to_internal_value partial vm fields data)) as [|e errors] eqn:E.
  - simpl. split; [tauto|]. intros (f & d & Hf & Hn & Hv).
    assert (H : In (n, d) (fst (to_internal_value partial vm fields data)))
      by (apply errors_iff; eauto).
    now rewrite E in H.
  - unfold error_keys. rewrite <- E, in_map_iff. split.
    + intros ([n' d] & Hn & Hin). simpl in Hn. subst n'.
      apply errors_iff in Hin. destruct Hin as (f & Hin). eauto.
    + intros (f & d & Hf & Hn & Hv). exists (n, d). split; [reflexivity|].
      apply errors_iff. eauto.
Qed.

Lemma title_rejected (s : str) :
  vm (lit "title") = Some TicketCreateSerializer.validate_title ->
  lookup (lit "title") data = Some (JString s) ->
  Nat.ltb (len (strip s)) 3 || Nat.ltb 200 (len (strip s))
  || has_nul s || has_surrogate s = true ->
  exists d, validate_field partial vm ModelFields.title data = ValidationError d.
Proof.
  intros Hvm Hl Hc. unfold validate_field, get_value.
  change (field_name ModelFields.title) with (lit "title").
  rewrite Hl, Hvm, char_run_validation_text by reflexivity.
  destruct (eqb (strip s) []) eqn:Eb; [cbn; eauto|].
  destruct (validated_cases ModelFields.title (strip s))
    as [[Hr Hv] | (d & _ & _ & Hv)]; rewrite Hv; [|eauto].
  apply char_validators_pass in Hr. destruct Hr as (Hmax & Hnul & Hsur).
  rewrite has_nul_strip in Hnul. rewrite has_surrogate_strip in Hsur.
  rewrite Hnul, Hsur, !orb_false_r in Hc.
  apply Nat.ltb_ge in Hmax. rewrite Hmax, orb_false_r in Hc.
  unfold TicketCreateSerializer.validate_title. rewrite strip_idem, Hc. eauto.
Qed.

Lemma title_accepted (s : str) :
  vm (lit "title") = Some TicketCreateSerializer.validate_title ->
  lookup (lit "title") data = Some (JString s) ->
  Nat.ltb (len (strip s)) 3 || Nat.ltb 200 (len (strip s))
  || has_nul s || has_surrogate s = false ->
  validate_field partial vm ModelFields.title data = Validated (Some (strip s)).
Proof.
  intros Hvm Hl Hc. apply orb_false_iff in Hc. destruct Hc as [Hc Hsur].
  apply orb_false_iff in Hc. destruct Hc as [Hc Hnul].
  apply orb_false_iff in Hc. destruct Hc as [Hmin Hmax].
  unfold validate_field, get_value.
  change (field_name ModelFields.title) with (lit "title").
  rewrite Hl, Hvm, char_run_validation_text by reflexivity.
  destruct (eqb (strip s) []) eqn:Eb.
  - apply eqb_empty_len in Eb. rewrite Eb in Hmin. discriminate.
  - destruct (validated_cases ModelFields.title (strip s))
      as [[Hr Hv] | (d & Hd & Hr & Hv)]; rewrite Hv.
    + unfold TicketCreateSerializer.validate_title. now rewrite strip_idem, Hmin.
    + exfalso. apply Hd. rewrite <- Hr. apply char_validators_pass.
      rewrite has_nul_strip, has_surrogate_strip.
      apply Nat.ltb_ge in Hmax. auto.
Qed.

Lemma description_rejected (s : str) :
  vm (lit "description") = Some TicketCreateSerializer.validate_description ->
  lookup (lit "description") data = Some (JString s) ->
  Nat.ltb (len (strip s)) 10 || has_nul s || has_surrogate s = true ->
  exists d, validate_field partial vm ModelFields.description data = ValidationError d.
Proof.
  intros Hvm Hl Hc. unfold validate_field, get_value.
  change (field_name ModelFields.description) with (lit "description").
  rewrite Hl, Hvm, char_run_validation_text by reflexivity.
  destruct (eqb (strip s) []) eqn:Eb; [cbn; eauto|].
  destruct (validated_cases ModelFields.description (strip s))
    as [[Hr Hv] | (d & _ & _ & Hv)]; rewrite Hv; [|eauto].
  apply char_validators_pass in Hr. destruct Hr as (_ & Hnul & Hsur).
  rewrite has_nul_strip in Hnul. rewrite has_surrogate_strip in Hsur.
  rewrite Hnul, Hsur, !orb_false_r in Hc.
  unfold TicketCreateSerializer.validate_description.
  rewrite strip_idem, Hc. eauto.
Qed.

Lemma description_accepted (s : str) :
  vm (lit "description") = Some TicketCreateSerializer.validate_description ->
  lookup (lit "description") data = Some (JString s) ->
  Nat.ltb (len (strip s)) 10 || has_nul s || has_surrogate s = false ->
  validate_field partial vm ModelFields.description data = Validated (Some (strip s)).
Proof.
  intros Hvm Hl Hc. apply orb_false_iff in Hc. destruct Hc as [Hc Hsur].
  apply orb_false_iff in Hc. destruct Hc as [Hmin Hnul].
  unfold validate_field, get_value.
  change (field_name ModelFields.description) with (lit "description").
  rewrite Hl, Hvm, char_run_validation_text by reflexivity.
  destruct (eqb (strip s) []) eqn:Eb.
  - apply eqb_empty_len in Eb. rewrite Eb in Hmin. discriminate.
  - destruct (validated_cases ModelFields.description (strip s))
      as [[Hr Hv] | (d & Hd & Hr & Hv)]; rewrite Hv.
    + unfold TicketCreateSerializer.validate_description.
      now rewrite strip_idem, Hmin.
    + exfalso. apply Hd. rewrite <- Hr. apply char_validators_pass.
      rewrite has_nul_strip, has_surrogate_strip. auto.
Qed.

End FieldFacts.

(** ** The views, unfolded *)

Section ViewFacts.

Import PyStr Fields Models Http.

Variable ev : str -> bool.

Lemma create_spec (data : Data) (w : World) :
  TicketListCreateAPIView.create ev data w
  = match TicketCreateSerializer.run_validation ev data with
    | inr vd => (HTTP_201_CREATED (fst (objects_create vd w)),
                 snd (objects_create vd w))
    | inl errors => (HTTP_400_BAD_REQUEST errors, w)
    end.
Proof.
  unfold TicketListCreateAPIView.create, TicketCreateSerializer.save,
    TicketSerializer.data.
  destruct (TicketCreateSerializer.run_validation ev data); [reflexivity|].
  now destruct (objects_create v w).
Qed.

Lemma update_spec (partial : bool) (pk : Z) (data : Data) (w : World) :
  TicketRetrieveUpdateAPIView.update ev partial pk data w
  = match objects_get pk w with
    | None => (HTTP_404_NOT_FOUND, w)
    | Some instance =>
        match TicketUpdateSerializer.run_validation ev partial data with
        | inr vd => (HTTP_200_OK (fst (save (setattrs instance vd) w)),
                     snd (save (setattrs instance vd) w))
        | inl errors => (HTTP_400_BAD_REQUEST errors, w)
        end
    end.
Proof.
  unfold TicketRetrieveUpdateAPIView.update, TicketRetrieveUpdateAPIView.get_object,
    TicketUpdateSerializer.save, TicketSerializer.data.
  destruct (objects_get pk w); [|reflexivity].
  destruct (TicketUpdateSerializer.run_validation ev partial data); [reflexivity|].
  now destruct (save (setattrs t v) w).
Qed.

Lemma objects_create_result (vd : ValidatedData) (w : World) :
  let t0 := setattrs Ticket_init vd in
  fst (objects_create vd w)
  = mkTicket (next_pk w) (title t0) (description t0) (contact_email t0)
      (contact_phone t0) (status t0) (clock w (ticks w)) (clock w (S (ticks w)))
  /\ rows (snd (objects_create vd w)) = (rows w ++ [fst (objects_create vd w)]).
Proof. split; reflexivity. Qed.

Lemma getattr_mk (i : Z) (t0 : Ticket) (c u : Z) (k : str) :
  getattr (mkTicket i (title t0) (description t0) (contact_email t0)
             (contact_phone t0) (status t0) c u) k
  = getattr t0 k.
Proof. reflexivity. Qed.

(** The row a successful create answers, by attribute. *)
Lemma created_getattr (vd : ValidatedData) (w : World) (k : str) :
  getattr (fst (objects_create vd w)) k = getattr (setattrs Ticket_init vd) k.
Proof. reflexivity. Qed.

(** The row a successful update answers, by attribute. *)
Lemma saved_getattr (t0 : Ticket) (w : World) (k : str) :
  getattr (fst (save t0 w)) k = getattr t0 k.
Proof. reflexivity. Qed.

Lemma create_fields_nodup :
  NoDup (map field_name (TicketCreateSerializer.fields ev)).
Proof.
  simpl. repeat constructor; simpl; intuition discriminate.
Qed.

Lemma update_fields_nodup :
  NoDup (map field_name (TicketUpdateSerializer.fields ev)).
Proof.
  simpl. repeat constructor; simpl; intuition discriminate.
Qed.

Lemma create_fields_by_name (f : Field) :
  In f (TicketCreateSerializer.fields ev) ->
  (field_name f = lit "title" -> f = ModelFields.title)
  /\ (field_name f = lit "description" -> f = ModelFields.description).
Proof.
  simpl. intros [<- | [<- | [<- | [<- | []]]]]; split; simpl; intros H;
    try reflexivity; discriminate.
Qed.

Lemma update_fields_by_name (f : Field) :
  In f (TicketUpdateSerializer.fields ev) ->
  (field_name f = lit "title" -> f = ModelFields.title)
  /\ (field_name f = lit "description" -> f = ModelFields.description).
Proof.
  simpl. intros [<- | [<- | [<- | [<- | [<- | []]]]]]; split; simpl; intros H;
    try reflexivity; discriminate.
Qed.

End ViewFacts.

(** ** Title and description through a serializer *)

Section Keyed.

Import PyStr Fields.

Variable partial : bool.
Variable vm : str -> option ValidateMethod.
Variable data : Data.
Variable fields : list Field.

Hypothesis vm_title : vm (lit "title") = Some TicketCreateSerializer.validate_title.
Hypothesis vm_description :
  vm (lit "description") = Some TicketCreateSerializer.validate_description.
Hypothesis by_name : forall f, In f fields ->
  (field_name f = lit "title" -> f = ModelFields.title)
  /\ (field_name f = lit "description" -> f = ModelFields.description).
Hypothesis names_nodup : NoDup (map field_name fields).
Hypothesis has_title : In ModelFields.title fields.
Hypothesis has_description : In ModelFields.description fields.

Lemma title_keyed (st : str) :
  lookup (lit "title") data = Some (JString st) ->
  (In (lit "title") (error_keys (serializer_run_validation partial vm fields data))
   <-> len (strip st) < 3 \/ 200 < len (strip st) \/ In 0%N st
       \/ exists c, In c st /\ (0xD800 <= c <= 0xDFFF)%N).
Proof.
  intros Hl. rewrite error_keys_iff, <- has_nul_in, <- has_surrogate_in.
  destruct (Nat.ltb (len (strip st)) 3 || Nat.ltb 200 (len (strip st))
            || has_nul st || has_surrogate st) eqn:Hc.
  - split.
    + intros _. apply orb_true_iff in Hc. destruct Hc as [Hc | Hc]; [|auto].
      apply orb_true_iff in Hc. destruct Hc as [Hc | Hc]; [|auto].
      apply orb_true_iff in Hc. destruct Hc as [Hc | Hc]; apply Nat.ltb_lt in Hc; auto.
    + intros _. destruct (title_rejected partial vm data st vm_title Hl Hc) as [d Hd].
      exists ModelFields.title, d. auto.
  - split.
    + intros (f & d & Hf & Hn & Hv).
      apply by_name in Hf. destruct Hf as [Hf _]. rewrite (Hf Hn) in Hv.
      rewrite (title_accepted partial vm data st vm_title Hl Hc) in Hv. discriminate.
    + apply orb_false_iff in Hc. destruct Hc as [Hc Hsur].
      apply orb_false_iff in Hc. destruct Hc as [Hc Hnul].
      apply orb_false_iff in Hc. destruct Hc as [Hmin Hmax].
      apply Nat.ltb_ge in Hmin, Hmax.
      intros [H | [H | [H | H]]]; [lia | lia | congruence | congruence].
Qed.

Lemma description_keyed (sd : str) :
  lookup (lit "description") data = Some (JString sd) ->
  (In (lit "description")
      (error_keys (serializer_run_validation partial vm fields data))
   <-> len (strip sd) < 10 \/ In 0%N sd
       \/ exists c, In c sd /\ (0xD800 <= c <= 0xDFFF)%N).
Proof.
  intros Hl. rewrite error_keys_iff, <- has_nul_in, <- has_surrogate_in.
  destruct (Nat.ltb (len (strip sd)) 10 || has_nul sd || has_surrogate sd) eqn:Hc.
  - split.
    + intros _. apply orb_true_iff in Hc. destruct Hc as [Hc | Hc]; [|auto].
      apply orb_true_iff in Hc. destruct Hc as [Hc | Hc]; [|auto].
      apply Nat.ltb_lt in Hc; auto.
    + intros _.
      destruct (description_rejected partial vm data sd vm_description Hl Hc) as [d Hd].
      exists ModelFields.description, d. auto.
  - split.
    + intros (f & d & Hf & Hn & Hv).
      apply by_name in Hf. destruct Hf as [_ Hf]. rewrite (Hf Hn) in Hv.
      rewrite (description_accepted partial vm data sd vm_description Hl Hc) in Hv.
      discriminate.
    + apply orb_false_iff in Hc. destruct Hc as [Hc Hsur].
      apply orb_false_iff in Hc. destruct Hc as [Hmin Hnul].
      apply Nat.ltb_ge in Hmin.
      intros [H | [H | H]]; [lia | congruence | congruence].
Qed.

Lemma valid_means_no_error (vd : ValidatedData) :
  serializer_run_validation partial vm fields data = inr vd ->
  vd = snd (to_internal_value partial vm fields data)
  /\ forall n, ~ In n (error_keys (serializer_run_validation partial vm fields data)).
Proof.
  intros H. split.
  - rewrite serializer_run_validation_spec in H.
    destruct (fst (to_internal_value partial vm fields data)); congruence.
  - intros n. rewrite H. simpl. tauto.
Qed.

Lemma validated_keys_nodup (vd : ValidatedData) :
  serializer_run_validation partial vm fields data = inr vd -> NoDup (map fst vd).
Proof.
  intros H. apply valid_means_no_error in H. destruct H as [-> _].
  now apply value_keys_nodup.
Qed.

Lemma title_value (st : str) (vd : ValidatedData) :
  lookup (lit "title") data = Some (JString st) ->
  serializer_run_validation partial vm fields data = inr vd ->
  In (lit "title", Some (strip st)) vd.
Proof.
  intros Hl H. destruct (valid_means_no_error vd H) as [-> Hno].
  apply values_iff. exists ModelFields.title. repeat split; [assumption|].
  destruct (Nat.ltb (len (strip st)) 3 || Nat.ltb 200 (len (strip st))
            || has_nul st || has_surrogate st) eqn:Hc.
  - exfalso. apply (Hno (lit "title")). apply error_keys_iff.
    destruct (title_rejected partial vm data st vm_title Hl Hc) as [d Hd].
    exists ModelFields.title, d. auto.
  - now apply title_accepted.
Qed.

Lemma description_value (sd : str) (vd : ValidatedData) :
  lookup (lit "description") data = Some (JString sd) ->
  serializer_run_validation partial vm fields data = inr vd ->
  In (lit "description", Some (strip sd)) vd.
Proof.
  intros Hl H. destruct (valid_means_no_error vd H) as [-> Hno].
  apply values_iff. exists ModelFields.description. repeat split; [assumption|].
  destruct (Nat.ltb (len (strip sd)) 10 || has_nul sd || has_surrogate sd) eqn:Hc.
  - exfalso. apply (Hno (lit "description")). apply error_keys_iff.
    destruct (description_rejected partial vm data sd vm_description Hl Hc) as [d Hd].
    exists ModelFields.description, d. auto.
  - now apply description_accepted.
Qed.

End Keyed.

(* ------------------------------------------------------------------ *)
(** * The claims                                                       *)
(* ------------------------------------------------------------------ *)

Section TitleAndDescription.

Import PyStr Fields Models Http.

Lemma created_ticket (ev : str -> bool) (data : Data) (w w' : World) (t : Ticket) :
  TicketListCreateAPIView.create ev data w = (HTTP_201_CREATED t, w') ->
  exists vd, TicketCreateSerializer.run_validation ev data = inr vd
             /\ t = fst (objects_create vd w) /\ w' = snd (objects_create vd w).
Proof.
  rewrite create_spec.
  destruct (TicketCreateSerializer.run_validation ev data) as [errors|vd];
    intros H; [discriminate|].
  injection H as <- <-. now exists vd.
Qed.

Lemma updated_ticket (ev : str -> bool) (partial : bool) (pk : Z)
  (data : Data) (w w' : World) (t : Ticket) :
  TicketRetrieveUpdateAPIView.update ev partial pk data w = (HTTP_200_OK t, w') ->
  exists instance vd,
    objects_get pk w = Some instance
    /\ TicketUpdateSerializer.run_validation ev partial data = inr vd
    /\ t = fst (save (setattrs instance vd) w)
    /\ w' = snd (save (setattrs instance vd) w).
Proof.
  rewrite update_spec.
  destruct (objects_get pk w) as [instance|]; [|discriminate].
  destruct (TicketUpdateSerializer.run_validation ev partial data) as [errors|vd];
    intros H; [discriminate|].
  injection H as <- <-. now exists instance, vd.
Qed.

Lemma attr_title (t : Ticket) (v : str) :
  getattr t (lit "title") = Some (Some v) -> title t = v.
Proof. intros H. now injection H. Qed.

Lemma attr_description (t : Ticket) (v : str) :
  getattr t (lit "description") = Some (Some v) -> description t = v.
Proof. intros H. now injection H. Qed.

Ltac side :=
  first [ reflexivity
        | assumption
        | apply create_fields_by_name
        | apply update_fields_by_name
        | (simpl; tauto) ].

(** C3, amended.  A title given as text is answered with an error keyed
    title exactly when its stripped length is below 3 or above 200 (the
    limit of the column) or it holds a null character or a surrogate
    code point (U+D800 to U+DFFF); a description exactly when its
    stripped length is below 10 or it holds a null character or a
    surrogate; this for the create serializer and for the update
    serializer, partial or not.  When the create or the update succeeds,
    the stored title and description are the stripped texts. *)
Theorem C3_title_description_validation :
  forall (ev : str -> bool) (data : Data),
    (forall st, lookup (lit "title") data = Some (JString st) ->
       (In (lit "title") (error_keys (TicketCreateSerializer.run_validation ev data))
        <-> len (strip st) < 3 \/ 200 < len (strip st) \/ In 0%N st
            \/ exists c, In c st /\ (0xD800 <= c <= 0xDFFF)%N)
       /\ (forall partial,
            In (lit "title") (error_keys (TicketUpdateSerializer.run_validation ev partial data))
            <-> len (strip st) < 3 \/ 200 < len (strip st) \/ In 0%N st
            \/ exists c, In c st /\ (0xD800 <= c <= 0xDFFF)%N)
       /\ (forall w w' t,
            TicketListCreateAPIView.create ev data w = (HTTP_201_CREATED t, w') ->
            title t = strip st /\ In t (rows w'))
       /\ (forall partial pk w w' t,
            TicketRetrieveUpdateAPIView.update ev partial pk data w
              = (HTTP_200_OK t, w') ->
            title t = strip st /\ objects_get pk w' = Some t))
    /\
    (forall sd, lookup (lit "description") data = Some (JString sd) ->
       (In (lit "description") (error_keys (TicketCreateSerializer.run_validation ev data))
        <-> len (strip sd) < 10 \/ In 0%N sd
            \/ exists c, In c sd /\ (0xD800 <= c <= 0xDFFF)%N)
       /\ (forall partial,
            In (lit "description")
               (error_keys (TicketUpdateSerializer.run_validation ev partial data))
            <-> len (strip sd) < 10 \/ In 0%N sd
            \/ exists c, In c sd /\ (0xD800 <= c <= 0xDFFF)%N)
       /\ (forall w w' t,
            TicketListCreateAPIView.create ev data w = (HTTP_201_CREATED t, w') ->
            description t = strip sd /\ In t (rows w'))
       /\ (forall partial pk w w' t,
            TicketRetrieveUpdateAPIView.update ev partial pk data w
              = (HTTP_200_OK t, w') ->
            description t = strip sd /\ objects_get pk w' = Some t)).
Proof.
  intros ev data.
  split.
  - intros st Hl. split; [|split; [|split]].
    + unfold TicketCreateSerializer.run_validation. apply title_keyed; side.
    + intros partial. unfold TicketUpdateSerializer.run_validation.
      apply title_keyed; side.
    + intros w w' t H.
      apply created_ticket in H. destruct H as (vd & Hv & -> & ->). split.
      * apply attr_title. rewrite created_getattr. apply setattrs_set.
        -- apply (validated_keys_nodup false TicketCreateSerializer.validate_method
                    data (TicketCreateSerializer.fields ev)
                    (create_fields_nodup ev) vd Hv).
        -- simpl; auto.
        -- unfold TicketCreateSerializer.run_validation in Hv.
           refine (title_value _ _ _ _ _ _ _ _ Hl Hv); side.
      * destruct (objects_create_result vd w) as [_ Hrows]. rewrite Hrows.
        apply in_or_app. right. now left.
    + intros partial pk w w' t H.
      apply updated_ticket in H.
      destruct H as (instance & vd & Hg & Hv & -> & ->). split.
      * apply attr_title. rewrite saved_getattr. apply setattrs_set.
        -- apply (validated_keys_nodup partial TicketUpdateSerializer.validate_method
                    data (TicketUpdateSerializer.fields ev)
                    (update_fields_nodup ev) vd Hv).
        -- simpl; auto.
        -- unfold TicketUpdateSerializer.run_validation in Hv.
           refine (title_value _ _ _ _ _ _ _ _ Hl Hv); side.
      * rewrite objects_get_save.
        destruct (setattrs_fixed vd instance) as (Hid & _).
        rewrite Hid, (objects_get_id pk w instance Hg), Z.eqb_refl, Hg. reflexivity.
  - intros sd Hl. split; [|split; [|split]].
    + unfold TicketCreateSerializer.run_validation. apply description_keyed; side.
    + intros partial. unfold TicketUpdateSerializer.run_validation.
      apply description_keyed; side.
    + intros w w' t H.
      apply created_ticket in H. destruct H as (vd & Hv & -> & ->). split.
      * apply attr_description. rewrite created_getattr. apply setattrs_set.
        -- apply (validated_keys_nodup false TicketCreateSerializer.validate_method
                    data (TicketCreateSerializer.fields ev)
                    (create_fields_nodup ev) vd Hv).
        -- simpl; auto.
        -- unfold TicketCreateSerializer.run_validation in Hv.
           refine (description_value _ _ _ _ _ _ _ _ Hl Hv); side.
      * destruct (objects_create_result vd w) as [_ Hrows]. rewrite Hrows.
        apply in_or_app. right. now left.
    + intros partial pk w w' t H.
      apply updated_ticket in H.
      destruct H as (instance & vd & Hg & Hv & -> & ->). split.
      * apply attr_description. rewrite saved_getattr. apply setattrs_set.
        -- apply (validated_keys_nodup partial TicketUpdateSerializer.validate_method
                    data (TicketUpdateSerializer.fields ev)
                    (update_fields_nodup ev) vd Hv).
        -- simpl; auto.
        -- unfold TicketUpdateSerializer.run_validation in Hv.
           refine (description_value _ _ _ _ _ _ _ _ Hl Hv); side.
      * rewrite objects_get_save.
        destruct (setattrs_fixed vd instance) as (Hid & _).
        rewrite Hid, (objects_get_id pk w instance Hg), Z.eqb_refl, Hg. reflexivity.
Qed.

(** C3 as stated fails: a title of 201 letters has stripped length 201,
    not below 3, and is answered with an error keyed title, on update
    and on create alike; so is a title of four characters one of which
    is the null character, and likewise a description of eleven; and so
    is a title of four characters the first of which is the lone
    surrogate U+D800. *)
Lemma C3_counterexample :
  TicketRetrieveUpdateAPIView.patch Sample.address_check 1
    [(lit "title", JString (repeat 97%N 201))] Sample.world1
  = (HTTP_400_BAD_REQUEST
       [(lit "title", [lit "Ensure this field has no more than 200 characters."])],
     Sample.world1)
  /\ TicketListCreateAPIView.create Sample.address_check
       [ (lit "title", JString (repeat 97%N 201));
         (lit "description", JString (lit "The office printer does not respond"));
         (lit "contact_email", JString (lit "ann@example.com")) ] Sample.world1
     = (HTTP_400_BAD_REQUEST
          [(lit "title", [lit "Ensure this field has no more than 200 characters."])],
        Sample.world1)
  /\ len (strip (repeat 97%N 201)) = 201
  /\ TicketRetrieveUpdateAPIView.patch Sample.address_check 1
       [ (lit "title", JString (0%N :: lit "abc"));
         (lit "description", JString (0%N :: lit "0123456789")) ]
       Sample.world1
     = (HTTP_400_BAD_REQUEST
          [ (lit "title", [lit "Null characters are not allowed."]);
            (lit "description", [lit "Null characters are not allowed."]) ],
        Sample.world1)
  /\ len (strip (0%N :: lit "abc")) = 4
  /\ len (strip (0%N :: lit "0123456789")) = 11
  /\ TicketRetrieveUpdateAPIView.patch Sample.address_check 1
       [(lit "title", JString (0xD800%N :: lit "abc"))] Sample.world1
     = (HTTP_400_BAD_REQUEST
          [(lit "title", [lit "Surrogate characters are not allowed: U+D800."])],
        Sample.world1)
  /\ len (strip (0xD800%N :: lit "abc")) = 4
  /\ ~ In 0%N (0xD800%N :: lit "abc").
Proof.
  repeat split; try (vm_compute; reflexivity).
  vm_compute. intuition discriminate.
Qed.

(** The title of the sample body passes, and is stored stripped. *)
Lemma C3_witness :
  (In (lit "title")
      (error_keys (TicketCreateSerializer.run_validation Sample.address_check
                     Sample.valid_body))
   <-> len (strip (lit "  New Support Request ")) < 3
       \/ 200 < len (strip (lit "  New Support Request "))
       \/ In 0%N (lit "  New Support Request ")
       \/ exists c, In c (lit "  New Support Request ")
                    /\ (0xD800 <= c <= 0xDFFF)%N)
  /\ (forall w w' t,
        TicketListCreateAPIView.create Sample.address_check Sample.valid_body w
          = (HTTP_201_CREATED t, w') ->
        title t = lit "New Support Request" /\ In t (rows w')).
Proof.
  pose proof (proj1 (C3_title_description_validation Sample.address_check
                       Sample.valid_body) (lit "  New Support Request ") eq_refl) as H.
  split; [exact (proj1 H) | exact (proj1 (proj2 (proj2 H)))].
Defined.

End TitleAndDescription.

Section ValidationErrors.

Import PyStr Fields Models Http.

Lemma to_internal_value_of_detail (f : Field) (x : JValue) (d : ErrorDetail) :
  to_internal_value_of f x = inr d -> d <> [].
Proof.
  unfold to_internal_value_of. destruct (kind f) as [|choices].
  - destruct x; intros H; try discriminate; injection H as <-; discriminate.
  - destruct (match x with JString [] => allow_blank f | _ => false end);
      [discriminate|].
    destruct (existsb (eqb (str_of x)) choices); intros H; [discriminate|].
    injection H as <-. discriminate.
Qed.

Lemma field_run_validation_detail (partial : bool) (f : Field) (v : option JValue)
  (d : ErrorDetail) :
  field_run_validation partial f v = ValidationError d -> d <> [].
Proof.
  assert (Hin : forall x,
             match to_internal_value_of f x with
             | inl value => validated f value
             | inr detail => ValidationError detail
             end = ValidationError d -> d <> []).
  { intros x. destruct (to_internal_value_of f x) as [value|detail] eqn:E.
    - destruct (validated_cases f value) as [[_ Hv] | (d0 & Hd & _ & Hv)];
        rewrite Hv; intros H; [discriminate|]. now injection H as <-.
    - intros H. injection H as <-. now apply to_internal_value_of_detail in E. }
  unfold field_run_validation. destruct v as [x|].
  - destruct x; try apply Hin.
    destruct (allow_null f); intros H; [discriminate|].
    injection H as <-. discriminate.
  - destruct partial; [discriminate|].
    destruct (required f); intros H; [|discriminate].
    injection H as <-. discriminate.
Qed.

Lemma run_validation_detail (partial : bool) (f : Field) (v : option JValue)
  (d : ErrorDetail) :
  run_validation partial f v = ValidationError d -> d <> [].
Proof.
  unfold run_validation.
  destruct (kind f); destruct v as [x|];
    try apply field_run_validation_detail.
  destruct (eqb (strip (str_of x)) []); [|apply field_run_validation_detail].
  destruct (allow_blank f); intros H; [discriminate|].
  injection H as <-. discriminate.
Qed.

(** Every error names at least one message, for the two write serializers. *)
Lemma validate_field_detail (partial : bool) (f : Field) (data : Data)
  (d : ErrorDetail) :
  validate_field partial TicketCreateSerializer.validate_method f data
    = ValidationError d ->
  d <> [].
Proof.
  unfold validate_field.
  destruct (run_validation partial f (get_value f data)) as [|[v|]|d0] eqn:E;
    try discriminate.
  - unfold TicketCreateSerializer.validate_method.
    destruct (eqb (field_name f) (lit "title")).
    + unfold TicketCreateSerializer.validate_title.
      destruct (Nat.ltb (len (strip v)) 3); intros H; [|discriminate].
      injection H as <-. discriminate.
    + destruct (eqb (field_name f) (lit "description")); [|discriminate].
      unfold TicketCreateSerializer.validate_description.
      destruct (Nat.ltb (len (strip v)) 10); intros H; [|discriminate].
      injection H as <-. discriminate.
  - intros H. injection H as <-. now apply run_validation_detail in E.
Qed.

(** C7.  When a field of a create or update input fails validation, the
    answer is a 400 whose mapping has an entry, with at least one
    message, for exactly the failing fields (all of them, not only the
    first), and the store is the one before the request: nothing is
    created, and the targeted ticket is as it was. *)
Theorem C7_invalid_input_reports_all_and_writes_nothing :
  forall (ev : str -> bool) (data : Data) (w : World),
    (forall f d,
        In f (TicketCreateSerializer.fields ev) ->
        validate_field false TicketCreateSerializer.validate_method f data
          = ValidationError d ->
        exists errors,
          TicketListCreateAPIView.create ev data w
            = (HTTP_400_BAD_REQUEST errors, w)
          /\ forall n dn,
               In (n, dn) errors
               <-> dn <> [] /\
                   exists g, In g (TicketCreateSerializer.fields ev)
                             /\ field_name g = n
                             /\ validate_field false
                                  TicketCreateSerializer.validate_method g data
                                = ValidationError dn)
    /\
    (forall partial pk instance f d,
        objects_get pk w = Some instance ->
        In f (TicketUpdateSerializer.fields ev) ->
        validate_field partial TicketUpdateSerializer.validate_method f data
          = ValidationError d ->
        exists errors,
          TicketRetrieveUpdateAPIView.update ev partial pk data w
            = (HTTP_400_BAD_REQUEST errors, w)
          /\ objects_get pk w = Some instance
          /\ forall n dn,
               In (n, dn) errors
               <-> dn <> [] /\
                   exists g, In g (TicketUpdateSerializer.fields ev)
                             /\ field_name g = n
                             /\ validate_field partial
                                  TicketUpdateSerializer.validate_method g data
                                = ValidationError dn).
Proof.
  intros ev data w. split.
  - intros f d Hf Hv.
    exists (fst (to_internal_value false TicketCreateSerializer.validate_method
                   (TicketCreateSerializer.fields ev) data)).
    split.
    + rewrite create_spec. unfold TicketCreateSerializer.run_validation.
      rewrite serializer_run_validation_spec.
      assert (Hin : In (field_name f, d)
                (fst (to_internal_value false TicketCreateSerializer.validate_method
                        (TicketCreateSerializer.fields ev) data)))
        by (apply errors_iff; eauto).
      destruct (fst (to_internal_value false TicketCreateSerializer.validate_method
                       (TicketCreateSerializer.fields ev) data));
        [destruct Hin | reflexivity].
    + intros n dn. rewrite errors_iff. split.
      * intros (g & Hg & Hn & Hd). split; [|eauto].
        now apply validate_field_detail in Hd.
      * intros [_ H]. exact H.
  - intros partial pk instance f d Hg Hf Hv.
    exists (fst (to_internal_value partial TicketUpdateSerializer.validate_method
                   (TicketUpdateSerializer.fields ev) data)).
    split; [|split; [assumption|]].
    + rewrite update_spec, Hg. unfold TicketUpdateSerializer.run_validation.
      rewrite serializer_run_validation_spec.
      assert (Hin : In (field_name f, d)
                (fst (to_internal_value partial TicketUpdateSerializer.validate_method
                        (TicketUpdateSerializer.fields ev) data)))
        by (apply errors_iff; eauto).
      destruct (fst (to_internal_value partial TicketUpdateSerializer.validate_method
                       (TicketUpdateSerializer.fields ev) data));
        [destruct Hin | reflexivity].
    + intros n dn. rewrite errors_iff. split.
      * intros (g & Hg' & Hn & Hd). split; [|eauto].
        now apply (validate_field_detail partial g data dn).
      * intros [_ H]. exact H.
Qed.

(** A create with a short title, a short description and no address is
    answered with all three errors, and nothing is stored. *)
Lemma C7_witness :
  exists errors,
    TicketListCreateAPIView.create Sample.address_check
      [(lit "title", JString (lit "Hi")); (lit "description", JString (lit "Too short"))]
      Sample.world1
    = (HTTP_400_BAD_REQUEST errors, Sample.world1)
    /\ forall n dn,
         In (n, dn) errors
         <-> dn <> [] /\
             exists g, In g (TicketCreateSerializer.fields Sample.address_check)
                       /\ field_name g = n
                       /\ validate_field false
                            TicketCreateSerializer.validate_method g
                            [(lit "title", JString (lit "Hi"));
                             (lit "description", JString (lit "Too short"))]
                          = ValidationError dn.
Proof.
  apply (proj1 (C7_invalid_input_reports_all_and_writes_nothing
                  Sample.address_check
                  [(lit "title", JString (lit "Hi")); (lit "description", JString (lit "Too short"))]
                  Sample.world1)
           ModelFields.title [lit "Title must be at least 3 characters long."]).
  - simpl. auto.
  - reflexivity.
Defined.

End ValidationErrors.

Section PutAndPatch.

Import PyStr Fields Models Http.

Variable ev : str -> bool.

(** Under [partial=True] a key the body lacks is skipped. *)
Lemma absent_skipped (vm : str -> option ValidateMethod) (f : Field)
  (data : Data) :
  lookup (field_name f) data = None ->
  validate_field true vm f data = SkipField.
Proof.
  intros H. unfold validate_field, get_value, run_validation, field_run_validation.
  rewrite H. now destruct (kind f).
Qed.

(** The [partial] flag is only read for a key the body lacks. *)
Lemma partial_irrelevant (vm : str -> option ValidateMethod) (f : Field)
  (data : Data) :
  (required f = true -> lookup (field_name f) data <> None) ->
  validate_field false vm f data = validate_field true vm f data.
Proof.
  intros H. unfold validate_field, get_value, run_validation, field_run_validation.
  destruct (lookup (field_name f) data); [reflexivity|].
  destruct (required f); [|now destruct (kind f)].
  exfalso. now apply H.
Qed.

Lemma to_internal_value_partial (vm : str -> option ValidateMethod)
  (fields : list Field) (data : Data) :
  (forall f, In f fields -> required f = true ->
             lookup (field_name f) data <> None) ->
  to_internal_value false vm fields data = to_internal_value true vm fields data.
Proof.
  induction fields as [|f rest IH]; intros H; [reflexivity|].
  rewrite !to_internal_value_cons, IH, partial_irrelevant.
  - reflexivity.
  - intros Hr. apply H; [now left | assumption].
  - intros g Hg. apply H. now right.
Qed.

(** PATCH merges: it fails and writes nothing, or answers the stored row,
    on which every attribute the body does not name is as before. *)
Lemma patch_merges (pk : Z) (data : Data) (w : World) (instance : Ticket) :
  objects_get pk w = Some instance ->
  (exists errors,
      TicketRetrieveUpdateAPIView.patch ev pk data w
      = (HTTP_400_BAD_REQUEST errors, w))
  \/ (exists t,
        fst (TicketRetrieveUpdateAPIView.patch ev pk data w) = HTTP_200_OK t
        /\ objects_get pk (snd (TicketRetrieveUpdateAPIView.patch ev pk data w))
           = Some t
        /\ id t = id instance /\ created_at t = created_at instance
        /\ updated_at t = clock w (ticks w)
        /\ forall k, lookup k data = None -> getattr t k = getattr instance k).
Proof.
  intros Hg.
  unfold TicketRetrieveUpdateAPIView.patch, TicketRetrieveUpdateAPIView.partial_update.
  rewrite update_spec, Hg.
  destruct (TicketUpdateSerializer.run_validation ev true data) as [errors|vd] eqn:E.
  - left. now exists errors.
  - right. exists (fst (save (setattrs instance vd) w)). cbn [fst snd].
    destruct (setattrs_fixed vd instance) as (Hid & Hc & _).
    split; [reflexivity|]. split; [|split; [|split; [|split]]].
    + rewrite objects_get_save, Hid, (objects_get_id pk w instance Hg),
        Z.eqb_refl, Hg. reflexivity.
    + exact Hid.
    + exact Hc.
    + reflexivity.
    + intros k Hk. rewrite saved_getattr. apply setattrs_frame.
      intros Hin.
      unfold TicketUpdateSerializer.run_validation in E.
      apply valid_means_no_error in E. destruct E as [-> _].
      apply value_keys in Hin. destruct Hin as (f & _ & Hn & v & Hv).
      rewrite absent_skipped in Hv; [discriminate | now rewrite Hn].
Qed.

(** C1, amended.  PATCH applies a partial merge: it either fails and
    writes nothing or changes only attributes the body names.  PUT is the
    full update: with title, description and contact_email all in the
    body it does exactly what PATCH does with that body (contact_phone and
    status, when left out, keep their values); with one of the three left
    out it is answered 400, the field marked required, and nothing is
    written. *)
Theorem C1_put_is_full_update_patch_is_partial :
  forall (pk : Z) (data : Data) (w : World) (instance : Ticket),
    objects_get pk w = Some instance ->
    ((exists errors,
         TicketRetrieveUpdateAPIView.patch ev pk data w
         = (HTTP_400_BAD_REQUEST errors, w))
     \/ (exists t,
           fst (TicketRetrieveUpdateAPIView.patch ev pk data w) = HTTP_200_OK t
           /\ objects_get pk (snd (TicketRetrieveUpdateAPIView.patch ev pk data w))
              = Some t
           /\ id t = id instance /\ created_at t = created_at instance
           /\ forall k, lookup k data = None -> getattr t k = getattr instance k))
    /\ (lookup (lit "title") data <> None ->
        lookup (lit "description") data <> None ->
        lookup (lit "contact_email") data <> None ->
        TicketRetrieveUpdateAPIView.put ev pk data w
        = TicketRetrieveUpdateAPIView.patch ev pk data w)
    /\ (forall k, In k [lit "title"; lit "description"; lit "contact_email"] ->
        lookup k data = None ->
        exists errors,
          TicketRetrieveUpdateAPIView.put ev pk data w
          = (HTTP_400_BAD_REQUEST errors, w)
          /\ In (k, [msg_required]) errors).
Proof.
  intros pk data w instance Hg. split; [|split].
  - destruct (patch_merges pk data w instance Hg)
      as [H | (t & H1 & H2 & H3 & H4 & _ & H6)]; [now left | right].
    exists t. auto.
  - intros Ht Hd He.
    unfold TicketRetrieveUpdateAPIView.put, TicketRetrieveUpdateAPIView.patch,
      TicketRetrieveUpdateAPIView.partial_update.
    rewrite !update_spec.
    unfold TicketUpdateSerializer.run_validation, serializer_run_validation.
    rewrite to_internal_value_partial; [reflexivity|].
    simpl. intros f [<- | [<- | [<- | [<- | [<- | []]]]]]; simpl; intros Hr;
      try assumption; discriminate.
  - intros k Hk Hl.
    exists (fst (to_internal_value false TicketUpdateSerializer.validate_method
                   (TicketUpdateSerializer.fields ev) data)).
    assert (Hin : In (k, [msg_required])
              (fst (to_internal_value false TicketUpdateSerializer.validate_method
                      (TicketUpdateSerializer.fields ev) data))).
    { apply errors_iff. simpl in Hk.
      destruct Hk as [<- | [<- | [<- | []]]].
      - exists ModelFields.title. repeat split; [simpl; auto|].
        unfold validate_field, get_value. simpl field_name. now rewrite Hl.
      - exists ModelFields.description. repeat split; [simpl; auto|].
        unfold validate_field, get_value. simpl field_name. now rewrite Hl.
      - exists (ModelFields.contact_email ev). repeat split; [simpl; auto|].
        unfold validate_field, get_value. simpl field_name. now rewrite Hl. }
    split; [|exact Hin].
    unfold TicketRetrieveUpdateAPIView.put. rewrite update_spec, Hg.
    unfold TicketUpdateSerializer.run_validation.
    rewrite serializer_run_validation_spec.
    destruct (fst (to_internal_value false TicketUpdateSerializer.validate_method
                     (TicketUpdateSerializer.fields ev) data));
      [destruct Hin | reflexivity].
Qed.

End PutAndPatch.

Section PutAndPatchExamples.

Import PyStr Fields Models Http.

(** C1 as stated fails: a PUT that names only the status is answered 400
    with the three other fields marked required and writes nothing; the
    same body under PATCH is accepted and sets the status. *)
Lemma C1_counterexample :
  TicketRetrieveUpdateAPIView.put Sample.address_check 1
    [(lit "status", JString (lit "resolved"))] Sample.world1
  = (HTTP_400_BAD_REQUEST
       [ (lit "title", [lit "This field is required."]);
         (lit "description", [lit "This field is required."]);
         (lit "contact_email", [lit "This field is required."]) ],
     Sample.world1)
  /\ fst (TicketRetrieveUpdateAPIView.patch Sample.address_check 1
            [(lit "status", JString (lit "resolved"))] Sample.world1)
     = HTTP_200_OK
         (mkTicket 1 (lit "Printer offline") (lit "The office printer does not respond")
            (lit "ann@example.com") (Some (lit "555-0100")) (lit "resolved") 100 1000).
Proof. split; vm_compute; reflexivity. Qed.

(** A PUT that names the three required fields does what the PATCH does. *)
Lemma C1_witness :
  TicketRetrieveUpdateAPIView.put Sample.address_check 1
    [ (lit "title", JString (lit "Printer back online"));
      (lit "description", JString (lit "Works again after a restart"));
      (lit "contact_email", JString (lit "ann@example.com")) ] Sample.world1
  = TicketRetrieveUpdateAPIView.patch Sample.address_check 1
      [ (lit "title", JString (lit "Printer back online"));
        (lit "description", JString (lit "Works again after a restart"));
        (lit "contact_email", JString (lit "ann@example.com")) ] Sample.world1.
Proof.
  apply (proj1 (proj2 (C1_put_is_full_update_patch_is_partial
                         Sample.address_check 1
                         [ (lit "title", JString (lit "Printer back online"));
                           (lit "description", JString (lit "Works again after a restart"));
                           (lit "contact_email", JString (lit "ann@example.com")) ]
                         Sample.world1 Sample.ticket1 eq_refl)));
    simpl; discriminate.
Defined.

End PutAndPatchExamples.

Section CreateAndStatusUpdate.

Import PyStr Fields Models Http.

Lemma attr_status (t : Ticket) (v : str) :
  getattr t (lit "status") = Some (Some v) -> status t = v.
Proof. intros H. now injection H. Qed.

Lemma create_never_sets_status (ev : str -> bool) (data : Data)
  (vd : ValidatedData) :
  TicketCreateSerializer.run_validation ev data = inr vd ->
  ~ In (lit "status") (map fst vd).
Proof.
  unfold TicketCreateSerializer.run_validation. intros H Hin.
  apply valid_means_no_error in H. destruct H as [-> _].
  apply value_keys in Hin. destruct Hin as (f & Hf & Hn & _).
  simpl in Hf. destruct Hf as [<- | [<- | [<- | [<- | []]]]]; discriminate.
Qed.

(** C4, amended.  A ticket created from valid input has the status
    pending, whatever the body says about status; its [created_at] is the
    reading the clock gives for that column and its [updated_at] is the
    next reading, so the two are equal exactly when the clock did not
    move between them, and ordered when the clock does not run backwards. *)
Theorem C4_created_ticket_is_pending_and_stamped :
  forall (ev : str -> bool) (data : Data) (w w' : World) (t : Ticket),
    TicketListCreateAPIView.create ev data w = (HTTP_201_CREATED t, w') ->
    status t = lit "pending"
    /\ created_at t = clock w (ticks w)
    /\ updated_at t = clock w (S (ticks w))
    /\ (created_at t = updated_at t <-> clock w (ticks w) = clock w (S (ticks w)))
    /\ ((clock w (ticks w) <= clock w (S (ticks w)))%Z ->
        (created_at t <= updated_at t)%Z).
Proof.
  intros ev data w w' t H.
  apply created_ticket in H. destruct H as (vd & Hv & -> & ->).
  destruct (objects_create_result vd w) as [Ht _]. cbv zeta in Ht.
  rewrite Ht. cbn [created_at updated_at status].
  split; [|split; [reflexivity | split; [reflexivity | split; [tauto | tauto]]]].
  apply attr_status. rewrite setattrs_frame; [reflexivity|].
  now apply (create_never_sets_status ev data).
Qed.

(** C4 as stated fails: on a clock that has moved by one microsecond
    between the two readings, the created ticket has [created_at] 1000
    and [updated_at] 1001. *)
Lemma C4_counterexample :
  fst (TicketListCreateAPIView.create Sample.address_check Sample.valid_body
         Sample.world1)
  = HTTP_201_CREATED
      (mkTicket 2 (lit "New Support Request")
         (lit "This is a detailed description of the support request")
         (lit "user@example.com") (Some (lit "1234567890")) (lit "pending") 1000 1001)
  /\ (1000 <> 1001)%Z.
Proof. split; [vm_compute; reflexivity | discriminate]. Qed.

(** The sample body is valid input: the created ticket is pending, with
    the two readings of the sample clock as its stamps. *)
Lemma C4_witness :
  exists t,
    status t = lit "pending"
    /\ created_at t = 1000%Z
    /\ updated_at t = 1001%Z.
Proof.
  exists (mkTicket 2 (lit "New Support Request")
            (lit "This is a detailed description of the support request")
            (lit "user@example.com") (Some (lit "1234567890")) (lit "pending") 1000 1001).
  destruct (C4_created_ticket_is_pending_and_stamped Sample.address_check
              Sample.valid_body Sample.world1
              (snd (TicketListCreateAPIView.create Sample.address_check
                      Sample.valid_body Sample.world1))
              (mkTicket 2 (lit "New Support Request")
                 (lit "This is a detailed description of the support request")
                 (lit "user@example.com") (Some (lit "1234567890")) (lit "pending") 1000 1001)
              eq_refl) as (H1 & H2 & H3 & _).
  repeat split; assumption.
Defined.

(** The status field given a string. *)
Lemma status_given (partial : bool) (vm : str -> option ValidateMethod)
  (data : Data) (st : str) :
  vm (lit "status") = None ->
  lookup (lit "status") data = Some (JString st) ->
  validate_field partial vm ModelFields.status data
  = if existsb (eqb st) status_values
    then Validated (Some st)
    else ValidationError [msg_invalid_choice st].
Proof.
  intros Hvm H. unfold validate_field, get_value.
  change (field_name ModelFields.status) with (lit "status"). rewrite H, Hvm.
  unfold run_validation, field_run_validation, to_internal_value_of.
  cbn [kind ModelFields.status ChoiceField allow_blank str_of].
  destruct st as [|c r];
    match goal with
    | |- context [existsb ?p ?l] => destruct (existsb p l)
    end; reflexivity.
Qed.

(** The serializer on a body that names only the status. *)
Lemma status_only_validation (ev : str -> bool) (st : str) :
  TicketUpdateSerializer.run_validation ev true [(lit "status", JString st)]
  = if existsb (eqb st) status_values
    then inr [(lit "status", Some st)]
    else inl [(lit "status", [msg_invalid_choice st])].
Proof.
  unfold TicketUpdateSerializer.run_validation, serializer_run_validation.
  unfold TicketUpdateSerializer.fields.
  rewrite !to_internal_value_cons.
  rewrite (absent_skipped _ ModelFields.title) by reflexivity.
  rewrite (absent_skipped _ ModelFields.description) by reflexivity.
  rewrite (absent_skipped _ (ModelFields.contact_email ev)) by reflexivity.
  rewrite (absent_skipped _ ModelFields.contact_phone) by reflexivity.
  rewrite (status_given true _ _ st) by reflexivity.
  now destruct (existsb (eqb st) status_values).
Qed.

(** C6.  A partial update whose body names only the status leaves
    title, description, contact_email, contact_phone, created_at and the
    key of the ticket as they were; with a status among the choices it
    answers the stored row, whose status is the new one and whose
    [updated_at] is the reading of the clock; with another status it is
    answered 400 and nothing at all changes. *)
Theorem C6_status_only_patch_frame :
  forall (ev : str -> bool) (pk : Z) (w : World) (instance : Ticket)
         (st : str),
    objects_get pk w = Some instance ->
    exists t,
      objects_get pk
        (snd (TicketRetrieveUpdateAPIView.patch ev pk [(lit "status", JString st)] w))
      = Some t
      /\ id t = id instance
      /\ title t = title instance
      /\ description t = description instance
      /\ contact_email t = contact_email instance
      /\ contact_phone t = contact_phone instance
      /\ created_at t = created_at instance
      /\ (In st status_values ->
          fst (TicketRetrieveUpdateAPIView.patch ev pk [(lit "status", JString st)] w)
          = HTTP_200_OK t
          /\ status t = st
          /\ updated_at t = clock w (ticks w))
      /\ (~ In st status_values ->
          TicketRetrieveUpdateAPIView.patch ev pk [(lit "status", JString st)] w
          = (HTTP_400_BAD_REQUEST [(lit "status", [msg_invalid_choice st])], w)
          /\ t = instance).
Proof.
  intros ev pk w instance st Hg.
  unfold TicketRetrieveUpdateAPIView.patch, TicketRetrieveUpdateAPIView.partial_update.
  rewrite update_spec, Hg, status_only_validation.
  destruct (existsb (eqb st) status_values) eqn:E.
  - exists (fst (save (setattrs instance [(lit "status", Some st)]) w)).
    cbn [fst snd]. rewrite objects_get_save.
    destruct (setattrs_fixed [(lit "status", Some st)] instance) as (Hid & _).
    rewrite Hid, (objects_get_id pk w instance Hg), Z.eqb_refl, Hg.
    assert (Hin : In st status_values).
    { apply existsb_exists in E. destruct E as (x & Hx & Hs).
      apply eqb_eq in Hs. now subst. }
    split; [reflexivity|].
    split; [rewrite save_result; cbn [id]; rewrite Hid;
            apply (objects_get_id pk w instance Hg)|].
    repeat (split; [reflexivity|]). split.
    + intros _. repeat split; reflexivity.
    + intros Hn. now exfalso.
  - exists instance. cbn [fst snd].
    assert (Hout : ~ In st status_values).
    { intros Hin.
      assert (Ht : existsb (eqb st) status_values = true)
        by (apply existsb_exists; exists st; split;
            [assumption | apply eqb_refl]).
      congruence. }
    split; [assumption|]. repeat (split; [reflexivity|]). split.
    + intros Hin. now exfalso.
    + intros _. split; reflexivity.
Qed.

(** The sample ticket after a PATCH of its status. *)
Lemma C6_witness :
  exists t,
    objects_get 1
      (snd (TicketRetrieveUpdateAPIView.patch Sample.address_check 1
              [(lit "status", JString (lit "resolved"))] Sample.world1))
    = Some t
    /\ title t = lit "Printer offline"
    /\ status t = lit "resolved"
    /\ created_at t = 100%Z
    /\ updated_at t = 1000%Z.
Proof.
  destruct (C6_status_only_patch_frame Sample.address_check 1 Sample.world1
              Sample.ticket1 (lit "resolved") eq_refl)
    as (t & Hg & _ & Ht & _ & _ & _ & Hc & Hok & _).
  exists t. destruct Hok as (_ & Hs & Hu); [simpl; tauto|].
  repeat split; assumption.
Defined.

End CreateAndStatusUpdate.

(** ** Ordering and pages *)

Section OrderingFacts.

Import PyStr Fields Models Http.

Lemma term_valid_in (term : str) :
  Ordering.term_valid term = true
  <-> In (Ordering.term_field term) Ordering.ordering_fields.
Proof.
  unfold Ordering.term_valid. rewrite existsb_exists. split.
  - intros (x & Hx & Hs). apply eqb_eq in Hs. now subst.
  - intros H. exists (Ordering.term_field term).
    split; [assumption | apply eqb_refl].
Qed.

Lemma compare_on_antisym (field : str) (a b : Ticket) :
  Ordering.compare_on field b a = CompOpp (Ordering.compare_on field a b).
Proof.
  unfold Ordering.compare_on.
  destruct (eqb field (lit "created_at")); [apply Z.compare_antisym|].
  destruct (eqb field (lit "updated_at")); [apply Z.compare_antisym|].
  destruct (eqb field (lit "status")); [apply compare_antisym|].
  reflexivity.
Qed.

Lemma compare_by_antisym (terms : list str) (a b : Ticket) :
  Ordering.compare_by terms b a = CompOpp (Ordering.compare_by terms a b).
Proof.
  induction terms as [|term rest IH]; [reflexivity|].
  cbn [Ordering.compare_by].
  destruct (Ordering.descending term).
  - rewrite (compare_on_antisym (Ordering.term_field term) b a).
    destruct (Ordering.compare_on (Ordering.term_field term) b a); simpl; auto.
  - rewrite (compare_on_antisym (Ordering.term_field term) a b).
    destruct (Ordering.compare_on (Ordering.term_field term) a b); simpl; auto.
Qed.

Lemma precedes_total (terms : list str) (a b : Ticket) :
  Ordering.precedes terms a b = false -> Ordering.precedes terms b a = true.
Proof.
  unfold Ordering.precedes. rewrite (compare_by_antisym terms a b).
  now destruct (Ordering.compare_by terms a b).
Qed.

Lemma insert_perm (terms : list str) (x : Ticket) (l : list Ticket) :
  Permutation.Permutation (Ordering.insert terms x l) (x :: l).
Proof.
  induction l as [|y l IH]; simpl; [apply Permutation.Permutation_refl|].
  destruct (Ordering.precedes terms x y); [apply Permutation.Permutation_refl|].
  eapply Permutation.perm_trans; [apply Permutation.perm_skip, IH|].
  apply Permutation.perm_swap.
Qed.

Lemma insert_sorted (terms : list str) (x : Ticket) (l : list Ticket) :
  Sorted.Sorted (fun a b => Ordering.precedes terms a b = true) l ->
  Sorted.Sorted (fun a b => Ordering.precedes terms a b = true)
    (Ordering.insert terms x l).
Proof.
  induction l as [|y l IH]; intros Hs; simpl.
  - repeat constructor.
  - destruct (Ordering.precedes terms x y) eqn:E.
    + constructor; [assumption | now constructor].
    + inversion Hs as [|? ? Hs' Hhd]; subst.
      constructor; [now apply IH|].
      destruct l as [|z l]; simpl.
      * constructor. now apply precedes_total.
      * destruct (Ordering.precedes terms x z).
        -- constructor. now apply precedes_total.
        -- inversion Hhd; subst. now constructor.
Qed.

Lemma order_by_perm (terms : list str) (qs : list Ticket) :
  Permutation.Permutation (Ordering.order_by terms qs) qs.
Proof.
  unfold Ordering.order_by.
  induction qs as [|x qs IH]; simpl; [constructor|].
  eapply Permutation.perm_trans; [apply insert_perm|].
  now apply Permutation.perm_skip.
Qed.

Lemma order_by_sorted (terms : list str) (qs : list Ticket) :
  Sorted.Sorted (fun a b => Ordering.precedes terms a b = true)
    (Ordering.order_by terms qs).
Proof.
  unfold Ordering.order_by.
  induction qs as [|x qs IH]; simpl; [constructor|].
  now apply insert_sorted.
Qed.

Lemma precedes_default (a b : Ticket) :
  Ordering.precedes Ordering.ordering a b = true
  <-> (updated_at b <= updated_at a)%Z.
Proof.
  unfold Ordering.precedes, Ordering.ordering. cbn.
  destruct (Z.compare_spec (updated_at b) (updated_at a)); split; intros;
    try reflexivity; try lia; discriminate.
Qed.

(** Under the ordering of the view no ticket is followed by one that
    was updated later. *)
Lemma default_sorted (qs : list Ticket) :
  Sorted.StronglySorted (fun a b => (updated_at b <= updated_at a)%Z)
    (Ordering.order_by Ordering.ordering qs).
Proof.
  apply Sorted.Sorted_StronglySorted.
  - intros a b c Hab Hbc. lia.
  - generalize (order_by_sorted Ordering.ordering qs).
    generalize (Ordering.order_by Ordering.ordering qs). intros l Hl.
    induction Hl as [|a l Hs IH Hhd]; constructor; [assumption|].
    destruct Hhd as [|b l' Hab]; constructor. now apply precedes_default.
Qed.

Lemma filter_queryset_in (q : QueryParams) (qs : list Ticket) (t : Ticket) :
  In t (Ordering.filter_queryset q qs) <-> In t qs.
Proof.
  unfold Ordering.filter_queryset. split; intros H.
  - exact (Permutation.Permutation_in t (order_by_perm _ qs) H).
  - exact (Permutation.Permutation_in t
             (Permutation.Permutation_sym (order_by_perm _ qs)) H).
Qed.

Lemma filter_queryset_length (q : QueryParams) (qs : list Ticket) :
  List.length (Ordering.filter_queryset q qs) = List.length qs.
Proof.
  unfold Ordering.filter_queryset.
  exact (Permutation.Permutation_length (order_by_perm _ qs)).
Qed.

End OrderingFacts.

Section PageFacts.

Import PyStr Fields Models Http Pagination.

Lemma in_firstn (n : nat) (l : list Ticket) (t : Ticket) :
  In t (firstn n l) -> In t l.
Proof.
  revert l. induction n as [|n IH]; intros [|x l]; simpl; try tauto.
  intros [H | H]; [now left | right; now apply IH].
Qed.

Lemma in_skipn (n : nat) (l : list Ticket) (t : Ticket) :
  In t (skipn n l) -> In t l.
Proof.
  revert l. induction n as [|n IH]; intros [|x l]; simpl; try tauto.
  intros H. right. now apply IH.
Qed.

Lemma sorted_firstn (R : Ticket -> Ticket -> Prop) (n : nat) (l : list Ticket) :
  Sorted.Sorted R l -> Sorted.Sorted R (firstn n l).
Proof.
  revert l. induction n as [|n IH]; intros l Hs; [constructor|].
  destruct l as [|x l]; [constructor|]. simpl.
  inversion Hs as [|? ? Hs' Hhd]; subst. constructor; [now apply IH|].
  destruct l as [|y l]; [destruct n; constructor|].
  destruct n; simpl; constructor. now inversion Hhd.
Qed.

Lemma sorted_skipn (R : Ticket -> Ticket -> Prop) (n : nat) (l : list Ticket) :
  Sorted.Sorted R l -> Sorted.Sorted R (skipn n l).
Proof.
  revert l. induction n as [|n IH]; intros l Hs; [exact Hs|].
  destruct l as [|x l]; [constructor|]. simpl.
  inversion Hs; subst. now apply IH.
Qed.

Lemma num_pages_pos (c : nat) : 1 <= num_pages c.
Proof.
  unfold num_pages, PAGE_SIZE. apply Nat.div_str_pos. lia.
Qed.

Lemma page_results_in (n : nat) (l : list Ticket) (t : Ticket) :
  In t (results (page n l)) -> In t l.
Proof.
  unfold page. cbn [results]. intros H.
  apply in_firstn in H. now apply in_skipn in H.
Qed.

Lemma page_results_length (n : nat) (l : list Ticket) :
  List.length (results (page n l)) <= 20.
Proof. unfold page. cbn [results]. apply firstn_le_length. Qed.

Lemma page_results_sorted (R : Ticket -> Ticket -> Prop) (n : nat)
  (l : list Ticket) :
  Sorted.Sorted R l -> Sorted.Sorted R (results (page n l)).
Proof.
  intros H. unfold page. cbn [results].
  now apply sorted_firstn, sorted_skipn.
Qed.

Lemma page_first_all (l : list Ticket) :
  List.length l <= 20 -> results (page 1 l) = l.
Proof.
  intros H. unfold page. cbn [results]. simpl skipn. now apply firstn_all2.
Qed.

(** A page that is found is a page of the evaluated query set. *)
Lemma paginate_found (int : str -> option Z) (q : QueryParams)
  (e : option (list Ticket)) (p : Page) :
  paginate_queryset int q e = Found p ->
  exists l n, e = Some l /\ 1 <= n /\ p = page n l.
Proof.
  unfold paginate_queryset.
  assert (Hrun : forall number : list Ticket -> option nat,
             (forall l n, number l = Some n -> 1 <= n) ->
             match e with
             | None => OperationalError
             | Some object_list =>
                 match number object_list with
                 | Some n => Found (page n object_list)
                 | None => NotFound
                 end
             end = Found p ->
             exists l n, e = Some l /\ 1 <= n /\ p = page n l).
  { intros number Hn. destruct e as [l|]; [|discriminate].
    destruct (number l) as [n|] eqn:E; [|discriminate].
    intros H. injection H as <-. exists l, n. repeat split. now apply (Hn l). }
  destruct (truthy (query_get (lit "page") q)) as [s|].
  - destruct (eqb s (lit "last")).
    + intros H.
      apply (Hrun (fun l => Some (num_pages (List.length l)))); [|exact H].
      intros l n Hn. injection Hn as <-. apply num_pages_pos.
    + destruct (int s) as [n|]; [|discriminate].
      destruct (Z.ltb_spec n 1); [discriminate|].
      intros H0.
      apply (Hrun (fun l => if (n <=? Z.of_nat (num_pages (List.length l)))%Z
                            then Some (Z.to_nat n) else None)); [|exact H0].
      intros l k.
      destruct (Z.leb_spec n (Z.of_nat (num_pages (List.length l))));
        [|discriminate].
      intros Hk. injection Hk as <-. lia.
  - intros H. apply (Hrun (fun _ => Some 1)); [|exact H].
    intros l n Hn. injection Hn as <-. constructor.
Qed.

(** With no page asked for, the answer is the first page. *)
Lemma paginate_first (int : str -> option Z) (q : QueryParams) (l : list Ticket) :
  truthy (query_get (lit "page") q) = None ->
  paginate_queryset int q (Some l) = Found (page 1 l).
Proof. intros H. unfold paginate_queryset. now rewrite H. Qed.

Lemma page_eta (p : Page) :
  mkPage (count p) (next p) (previous p) (map TicketSerializer.data (results p)) = p.
Proof. destruct p. unfold TicketSerializer.data. simpl. now rewrite map_id. Qed.

End PageFacts.

(** ** The list view *)

Section Listing.

Import PyStr Fields Models Http Invariants.

Lemma query_get_acc (key : str) (q : QueryParams) (acc : option str) :
  fold_left (fun a kv => if eqb (fst kv) key then Some (snd kv) else a) q acc
  = match query_get key q with
    | Some v => Some v
    | None => acc
    end.
Proof.
  unfold query_get. revert acc.
  induction q as [|[k v] q IH]; intros acc; simpl; [reflexivity|].
  destruct (eqb k key).
  - rewrite (IH (Some v)), (IH None).
    now destruct (fold_left _ q None).
  - apply IH.
Qed.

Lemma query_get_cons (key k v : str) (q : QueryParams) :
  query_get key ((k, v) :: q)
  = match query_get key q with
    | Some x => Some x
    | None => if eqb k key then Some v else None
    end.
Proof.
  unfold query_get at 1. simpl. rewrite query_get_acc.
  destruct (query_get key q); [reflexivity|].
  now destruct (eqb k key).
Qed.

Lemma query_get_omit_same (key : str) (q : QueryParams) :
  query_get key (omit key q) = None.
Proof.
  induction q as [|[k v] q IH]; [reflexivity|].
  unfold omit. simpl. destruct (eqb k key) eqn:E; simpl.
  - exact IH.
  - fold (omit key q). rewrite query_get_cons, IH, E. reflexivity.
Qed.

Lemma query_get_omit_other (key other : str) (q : QueryParams) :
  key <> other -> query_get key (omit other q) = query_get key q.
Proof.
  intros Hne. induction q as [|[k v] q IH]; [reflexivity|].
  unfold omit. simpl. destruct (eqb k other) eqn:E; simpl.
  - fold (omit other q). rewrite IH, query_get_cons.
    apply eqb_eq in E. subst k.
    destruct (query_get key q); [reflexivity|].
    destruct (eqb other key) eqn:E'; [|reflexivity].
    apply eqb_eq in E'. congruence.
  - fold (omit other q). now rewrite !query_get_cons, IH.
Qed.

(** The list answer reads four query parameters and no other. *)
Lemma get_reads_four (int : str -> option Z) (q q' : QueryParams) (w : World) :
  truthy (query_get (lit "status") q) = truthy (query_get (lit "status") q') ->
  truthy (query_get (lit "search") q) = truthy (query_get (lit "search") q') ->
  truthy (query_get (lit "ordering") q) = truthy (query_get (lit "ordering") q') ->
  truthy (query_get (lit "page") q) = truthy (query_get (lit "page") q') ->
  TicketListCreateAPIView.get int q w = TicketListCreateAPIView.get int q' w.
Proof.
  intros Hs Hq Ho Hp.
  unfold TicketListCreateAPIView.get, TicketListCreateAPIView.filter_queryset,
    TicketListCreateAPIView.get_queryset, TicketListCreateAPIView.evaluate,
    Ordering.filter_queryset, Ordering.get_ordering, Pagination.paginate_queryset.
  now rewrite Hs, Hq, Ho, Hp.
Qed.

Lemma get_omit (int : str -> option Z) (key : str) (q : QueryParams) (w : World) :
  (In key [lit "status"; lit "search"; lit "ordering"; lit "page"] ->
   truthy (query_get key q) = None) ->
  TicketListCreateAPIView.get int q w
  = TicketListCreateAPIView.get int (omit key q) w.
Proof.
  intros H.
  assert (Hk : forall k,
             In k [lit "status"; lit "search"; lit "ordering"; lit "page"] ->
             truthy (query_get k q) = truthy (query_get k (omit key q))).
  { intros k Hk. destruct (str_dec k key) as [-> | Hne].
    - rewrite query_get_omit_same. now apply H.
    - now rewrite query_get_omit_other. }
  apply get_reads_four; apply Hk; simpl; tauto.
Qed.

(** C10.  A status or search parameter that is present with the empty
    string as its value filters nothing: the list answer is the one of
    the same request without that parameter. *)
Theorem C10_empty_parameter_filters_nothing :
  forall (int : str -> option Z) (q : QueryParams) (w : World),
    (query_get (lit "status") q = Some [] ->
     TicketListCreateAPIView.get int q w
     = TicketListCreateAPIView.get int (omit (lit "status") q) w)
    /\ (query_get (lit "search") q = Some [] ->
        TicketListCreateAPIView.get int q w
        = TicketListCreateAPIView.get int (omit (lit "search") q) w).
Proof.
  intros int q w. split; intros H; apply get_omit;
    intros Hk; simpl in Hk;
    destruct Hk as [Hk | [Hk | [Hk | [Hk | []]]]]; try discriminate Hk;
    now rewrite H.
Qed.

(** Two requests with an empty parameter and their shorter forms. *)
Lemma C10_witness :
  TicketListCreateAPIView.get Sample.parse_int
    [(lit "status", []); (lit "search", lit "printer")] Sample.world1
  = TicketListCreateAPIView.get Sample.parse_int
      [(lit "search", lit "printer")] Sample.world1
  /\ TicketListCreateAPIView.get Sample.parse_int
       [(lit "status", lit "pending"); (lit "search", [])] Sample.world1
     = TicketListCreateAPIView.get Sample.parse_int
         [(lit "status", lit "pending")] Sample.world1.
Proof.
  split.
  - exact (proj1 (C10_empty_parameter_filters_nothing Sample.parse_int
                    [(lit "status", []); (lit "search", lit "printer")]
                    Sample.world1) eq_refl).
  - exact (proj2 (C10_empty_parameter_filters_nothing Sample.parse_int
                    [(lit "status", lit "pending"); (lit "search", [])]
                    Sample.world1) eq_refl).
Defined.

(** C2, what the code does: [created_after] and [created_before] are
    not read.  The list answer is the one of the request without them,
    so a ticket created at 100 is listed under a [created_after] bound
    far later, and under a [created_before] bound far earlier. *)
Theorem C2_date_bounds_are_not_applied :
  (forall (int : str -> option Z) (q : QueryParams) (w : World),
      TicketListCreateAPIView.get int q w
      = TicketListCreateAPIView.get int
          (omit (lit "created_after") (omit (lit "created_before") q)) w)
  /\ TicketListCreateAPIView.get Sample.parse_int
       [(lit "created_after", lit "2999-01-01T00:00:00Z")] Sample.world1
     = HTTP_200_LIST (mkPage 1 None None [Sample.ticket1])
  /\ TicketListCreateAPIView.get Sample.parse_int
       [(lit "created_before", lit "1970-01-01T00:00:00Z")] Sample.world1
     = HTTP_200_LIST (mkPage 1 None None [Sample.ticket1])
  /\ created_at Sample.ticket1 = 100%Z.
Proof.
  split; [|repeat split].
  intros int q w. apply get_reads_four;
    now rewrite !query_get_omit_other by discriminate.
Qed.

Lemma filter_and (f g : Ticket -> bool) (l : list Ticket) :
  filter f (filter g l) = filter (fun x => g x && f x) l.
Proof.
  induction l as [|x l IH]; simpl; [reflexivity|].
  destruct (g x); simpl; [|exact IH].
  destruct (f x); now rewrite IH.
Qed.

Lemma choice_in (st : str) :
  existsb (eqb st) status_values = true <-> In st status_values.
Proof.
  rewrite existsb_exists. split.
  - intros (x & Hx & Hs). apply eqb_eq in Hs. now subst.
  - intros H. exists st. split; [assumption | apply eqb_refl].
Qed.

(** The query set of the list view, filtered by the backend: the rows a
    test [p] keeps, where [p] holds of the tickets the request selects;
    or the refusal of a status that is no choice. *)
Lemma selected_list (q : QueryParams) (w : World) :
  exists p : Ticket -> bool,
    (forall t, p t = true <-> selected_by q t)
    /\ TicketListCreateAPIView.filter_queryset q
         (TicketListCreateAPIView.get_queryset q w)
       = match truthy (query_get (lit "status") q) with
         | Some st =>
             if existsb (eqb st) status_values
             then inr (filter p (rows w))
             else inl [(lit "status",
                        [TicketListCreateAPIView.msg_select_valid_choice st])]
         | None => inr (filter p (rows w))
         end.
Proof.
  pose (sp := fun t : Ticket =>
          match truthy (query_get (lit "search") q) with
          | Some term =>
              Sqlite.icontains term (title t)
              || Sqlite.icontains term (description t)
              || Sqlite.icontains term (contact_email t)
          | None => true
          end).
  pose (stp := fun t : Ticket =>
          match truthy (query_get (lit "status") q) with
          | Some st => eqb (status t) st
          | None => true
          end).
  exists (fun t => sp t && stp t). split.
  - intros t. unfold selected_by, sp, stp. rewrite andb_true_iff.
    destruct (truthy (query_get (lit "search") q)) as [term|];
      destruct (truthy (query_get (lit "status") q)) as [st|];
      rewrite ?orb_true_iff, ?icontains_spec, ?eqb_eq; tauto.
  - unfold TicketListCreateAPIView.filter_queryset,
      TicketListCreateAPIView.get_queryset, sp, stp.
    destruct (truthy (query_get (lit "status") q)) as [st|];
      destruct (truthy (query_get (lit "search") q)) as [term|].
    + destruct (existsb (eqb st) status_values); [|reflexivity].
      rewrite !filter_and. f_equal. apply filter_ext. intros t.
      destruct (eqb (status t) st); simpl;
        rewrite ?andb_true_r, ?andb_false_r; reflexivity.
    + destruct (existsb (eqb st) status_values); [|reflexivity].
      rewrite filter_and. f_equal. apply filter_ext. intros t.
      now destruct (eqb (status t) st).
    + f_equal. apply filter_ext. intros t. now rewrite andb_true_r.
    + f_equal. induction (rows w) as [|x l IH]; [reflexivity|].
      cbn. now f_equal.
Qed.

Lemma get_unfold (int : str -> option Z) (q : QueryParams) (w : World)
  (qs : list Ticket) :
  TicketListCreateAPIView.filter_queryset q
    (TicketListCreateAPIView.get_queryset q w) = inr qs ->
  TicketListCreateAPIView.get int q w
  = match Pagination.paginate_queryset int q
            (TicketListCreateAPIView.evaluate q w
               (Ordering.filter_queryset q qs)) with
    | Pagination.Found p => HTTP_200_LIST p
    | Pagination.NotFound => HTTP_404_NOT_FOUND
    | Pagination.OperationalError => HTTP_500_INTERNAL_SERVER_ERROR
    end.
Proof.
  intros H. unfold TicketListCreateAPIView.get. rewrite H.
  destruct (Pagination.paginate_queryset int q _) as [p| |]; try reflexivity.
  now rewrite page_eta.
Qed.

(** What a list answer carries: a page of the selected rows in the
    order asked for. *)
Lemma get_found (int : str -> option Z) (q : QueryParams) (w : World)
  (p : Ticket -> bool) (pg : Page) :
  TicketListCreateAPIView.filter_queryset q
    (TicketListCreateAPIView.get_queryset q w) = inr (filter p (rows w)) ->
  TicketListCreateAPIView.get int q w = HTTP_200_LIST pg ->
  exists n, 1 <= n
    /\ pg = Pagination.page n (Ordering.filter_queryset q (filter p (rows w)))
    /\ TicketListCreateAPIView.evaluate q w
         (Ordering.filter_queryset q (filter p (rows w)))
       = Some (Ordering.filter_queryset q (filter p (rows w))).
Proof.
  intros Hf H. rewrite (get_unfold int q w _ Hf) in H.
  destruct (Pagination.paginate_queryset int q _) as [p0| |] eqn:E;
    try discriminate.
  injection H as ->. apply paginate_found in E.
  destruct E as (l & n & He & Hn & ->).
  assert (Hl : l = Ordering.filter_queryset q (filter p (rows w))).
  { revert He. unfold TicketListCreateAPIView.evaluate.
    destruct (truthy (query_get (lit "search") q)) as [term|].
    - destruct (Sqlite.too_complex (Sqlite.contains_pattern term)
                && negb (Nat.eqb (List.length (rows w)) 0)); congruence.
    - congruence. }
  subst l. exists n. auto.
Qed.

Lemma found_facts (q : QueryParams) (w : World) (p : Ticket -> bool) (n : nat)
  (pg : Page) :
  (forall t, p t = true <-> selected_by q t) ->
  pg = Pagination.page n (Ordering.filter_queryset q (filter p (rows w))) ->
  count pg = List.length (filter p (rows w))
  /\ (forall t, In t (results pg) -> In t (rows w) /\ selected_by q t)
  /\ List.length (results pg) <= 20
  /\ Sorted.Sorted
       (fun a b => Ordering.precedes (Ordering.get_ordering q) a b = true)
       (results pg).
Proof.
  intros Hp ->. split; [|split; [|split]].
  - cbn [Pagination.page count]. apply filter_queryset_length.
  - intros t Ht. apply page_results_in, filter_queryset_in, filter_In in Ht.
    destruct Ht as [H1 H2]. split; [assumption | now apply Hp].
  - apply page_results_length.
  - apply page_results_sorted. apply order_by_sorted.
Qed.

(** With no page asked for and a query the database can run, the answer
    is the first page; it holds all the selected rows when its count is
    at most 20. *)
Lemma get_first (int : str -> option Z) (q : QueryParams) (w : World)
  (p : Ticket -> bool) :
  (forall t, p t = true <-> selected_by q t) ->
  TicketListCreateAPIView.filter_queryset q
    (TicketListCreateAPIView.get_queryset q w) = inr (filter p (rows w)) ->
  truthy (query_get (lit "page") q) = None ->
  TicketListCreateAPIView.evaluate q w
    (Ordering.filter_queryset q (filter p (rows w)))
  = Some (Ordering.filter_queryset q (filter p (rows w))) ->
  exists pg,
    TicketListCreateAPIView.get int q w = HTTP_200_LIST pg
    /\ pg = Pagination.page 1 (Ordering.filter_queryset q (filter p (rows w)))
    /\ (count pg <= 20 ->
        forall t, In t (results pg) <-> In t (rows w) /\ selected_by q t).
Proof.
  intros Hp Hf Hpage He.
  exists (Pagination.page 1 (Ordering.filter_queryset q (filter p (rows w)))).
  split; [|split; [reflexivity|]].
  - rewrite (get_unfold int q w _ Hf), He, paginate_first by assumption.
    reflexivity.
  - cbn [Pagination.page count]. intros Hc t.
    rewrite page_first_all by assumption.
    rewrite filter_queryset_in, filter_In, Hp. tauto.
Qed.





End Listing.

Section Statistics.

Import PyStr Fields Models Http.

Lemma count_status_occ (value : str) (w : World) :
  StatsView.count_status value w
  = count_occ str_dec (map status (rows w)) value.
Proof.
  unfold StatsView.count_status.
  induction (rows w) as [|t rs IH]; simpl; [reflexivity|].
  destruct (eqb (status t) value) eqn:E;
    destruct (str_dec (status t) value) as [Heq | Hne]; simpl.
  - now rewrite IH.
  - apply eqb_eq in E. contradiction.
  - apply eqb_neq in E. contradiction.
  - exact IH.
Qed.

Lemma four_way_count (l : list str) :
  (forall x, In x l -> In x status_values) ->
  List.length l
  = count_occ str_dec l (lit "pending") + count_occ str_dec l (lit "accepted")
    + count_occ str_dec l (lit "resolved") + count_occ str_dec l (lit "rejected").
Proof.
  induction l as [|x l IH]; intros H; [reflexivity|].
  assert (Hx : In x status_values) by (apply H; now left).
  assert (Hl : forall y, In y l -> In y status_values)
    by (intros y Hy; apply H; now right).
  specialize (IH Hl). cbn [count_occ List.length].
  simpl in Hx. destruct Hx as [<- | [<- | [<- | [<- | []]]]];
    repeat match goal with
           | |- context [str_dec ?a ?b] =>
               destruct (str_dec a b); try discriminate; try congruence
           end; lia.
Qed.

(** C8.  The statistics view answers five counts taken over the whole
    table, whatever the query str: the total is the number of rows and
    each of the four others is the number of rows with exactly that
    status; when every row has one of the four statuses the total is
    their sum.  On three pending, two accepted, four resolved and one
    rejected ticket the answer is 10, 3, 2, 4, 1. *)
Theorem C8_stats_counts :
  forall (q : QueryParams) (w : World),
    (exists s,
        StatsView.ticket_stats q w = HTTP_200_STATS s
        /\ total s = List.length (rows w)
        /\ pending s = count_occ str_dec (map status (rows w)) (lit "pending")
        /\ accepted s = count_occ str_dec (map status (rows w)) (lit "accepted")
        /\ resolved s = count_occ str_dec (map status (rows w)) (lit "resolved")
        /\ rejected s = count_occ str_dec (map status (rows w)) (lit "rejected")
        /\ ((forall t, In t (rows w) -> In (status t) status_values) ->
            total s = pending s + accepted s + resolved s + rejected s))
    /\ StatsView.ticket_stats q Sample.world10
       = HTTP_200_STATS (mkStats 10 3 2 4 1).
Proof.
  intros q w. split; [|reflexivity].
  eexists. split; [reflexivity|]. cbn [total pending accepted resolved rejected].
  rewrite !count_status_occ. repeat (split; [reflexivity|]).
  intros H. rewrite <- (length_map status). apply four_way_count.
  intros x Hx. apply in_map_iff in Hx. destruct Hx as (t & <- & Ht). now apply H.
Qed.

(** The counts of the ten sample tickets add up to the total. *)
Lemma C8_witness :
  exists s,
    StatsView.ticket_stats [(lit "status", (lit "pending"))] Sample.world10 = HTTP_200_STATS s
    /\ total s = 10
    /\ total s = pending s + accepted s + resolved s + rejected s.
Proof.
  destruct (proj1 (C8_stats_counts [(lit "status", (lit "pending"))] Sample.world10))
    as (s & Hs & Ht & _ & _ & _ & _ & Hsum).
  exists s. split; [exact Hs|]. split; [exact Ht|].
  apply Hsum. simpl.
  intros t [<- | [<- | [<- | [<- | [<- | [<- | [<- | [<- | [<- | [<- | []]]]]]]]]]];
    simpl; tauto.
Defined.

End Statistics.

Section NoDeletion.

Import PyStr Fields Models Http Urls.

Variable ev : str -> bool.
Variable int : str -> option Z.

(** The row under a key, as far as its identity goes: key and creation
    stamp. *)
Lemma save_keeps (pk pk0 : Z) (w : World) (t instance : Ticket)
  (kwargs : list (str * option str)) :
  objects_get pk w = Some t ->
  objects_get pk0 w = Some instance ->
  exists t',
    objects_get pk (snd (save (setattrs instance kwargs) w)) = Some t'
    /\ id t' = id t /\ created_at t' = created_at t.
Proof.
  intros Hg Hg0. rewrite objects_get_save.
  destruct (setattrs_fixed kwargs instance) as (Hid & Hc & _).
  rewrite Hid, Hg.
  destruct (Z.eqb (id instance) pk) eqn:E.
  - apply Z.eqb_eq in E.
    assert (instance = t).
    { rewrite (objects_get_id pk0 w instance Hg0) in E. subst pk0. congruence. }
    subst instance. eexists. split; [reflexivity|].
    rewrite save_result. cbn [id created_at]. auto.
  - now exists t.
Qed.

Lemma create_keeps (pk : Z) (w : World) (t : Ticket)
  (kwargs : list (str * option str)) :
  objects_get pk w = Some t ->
  objects_get pk (snd (objects_create kwargs w)) = Some t.
Proof. intros Hg. unfold objects_create. now apply objects_get_save_new. Qed.

Lemma step_keeps (op : Operation) (pk : Z) (w : World) (t : Ticket) :
  objects_get pk w = Some t ->
  exists t',
    objects_get pk (snd (step ev int op w)) = Some t'
    /\ id t' = id t /\ created_at t' = created_at t.
Proof.
  intros Hg.
  assert (Hsame : exists t', objects_get pk w = Some t'
                             /\ id t' = id t /\ created_at t' = created_at t)
    by (now exists t).
  destruct op as [r | a]; simpl.
  - unfold dispatch. destruct (path r) as [|pk0|]; destruct (method r);
      try exact Hsame.
    + rewrite create_spec.
      destruct (TicketCreateSerializer.run_validation ev (data r)); [exact Hsame|].
      cbn [snd]. exists t. split; [now apply create_keeps | auto].
    + destruct (Z.ltb pk0 0); exact Hsame.
    + destruct (Z.ltb pk0 0); exact Hsame.
    + destruct (Z.ltb pk0 0); [exact Hsame|].
      unfold TicketRetrieveUpdateAPIView.put. rewrite update_spec.
      destruct (objects_get pk0 w) as [instance|] eqn:E0; [|exact Hsame].
      destruct (TicketUpdateSerializer.run_validation ev false (data r));
        [exact Hsame|].
      cbn [snd]. now apply (save_keeps pk pk0).
    + destruct (Z.ltb pk0 0); [exact Hsame|].
      unfold TicketRetrieveUpdateAPIView.patch,
        TicketRetrieveUpdateAPIView.partial_update.
      rewrite update_spec.
      destruct (objects_get pk0 w) as [instance|] eqn:E0; [|exact Hsame].
      destruct (TicketUpdateSerializer.run_validation ev true (data r));
        [exact Hsame|].
      cbn [snd]. now apply (save_keeps pk pk0).
    + destruct (Z.ltb pk0 0); exact Hsame.
  - destruct a as [|form|pk0 form|pk0|selected]; cbn [TicketAdmin.handle];
      try exact Hsame.
    + destruct (TicketAdmin.clean ev form) as [[|b bad] cleaned]; [|exact Hsame].
      destruct (objects_create cleaned w) as [t1 w1] eqn:E1. cbn [snd].
      change (objects_get pk (TicketAdmin.log_entry w1)) with (objects_get pk w1).
      exists t. split; [|auto].
      change w1 with (snd (t1, w1)). rewrite <- E1. now apply create_keeps.
    + destruct (objects_get pk0 w) as [obj|] eqn:E0; [|exact Hsame].
      destruct (TicketAdmin.clean ev form) as [[|b bad] cleaned]; [|exact Hsame].
      destruct (save (setattrs obj cleaned) w) as [t1 w1] eqn:E1. cbn [snd].
      change (objects_get pk (TicketAdmin.log_entry w1)) with (objects_get pk w1).
      change w1 with (snd (t1, w1)). rewrite <- E1. now apply (save_keeps pk pk0).
Qed.

(** C9.  Whatever sequence of API requests and console actions is run, a
    key that identifies a ticket keeps identifying it: the row under the
    key is still there, with the same key and creation stamp.  The DELETE
    method is answered 405 (404 for a path that does not resolve) and
    the delete view of the console 403, and neither writes; the bulk
    delete action is not offered: a request for it shows the change list,
    whose two date filters read the clock, and leaves the table and the
    key sequence as they are. *)
Theorem C9_no_operation_removes_a_ticket :
  forall (ops : list Operation) (w : World) (pk : Z) (t : Ticket),
    objects_get pk w = Some t ->
    (exists t',
        objects_get pk (run ev int ops w) = Some t'
        /\ id t' = id t /\ created_at t' = created_at t)
    /\ (forall r, method r = DELETE ->
                  snd (dispatch ev int r w) = w
                  /\ (fst (dispatch ev int r w) = HTTP_405_METHOD_NOT_ALLOWED
                      \/ fst (dispatch ev int r w) = HTTP_404_NOT_FOUND))
    /\ (forall pk0,
           TicketAdmin.handle ev (TicketAdmin.delete_view pk0) w
           = (HTTP_403_FORBIDDEN, w))
    /\ (forall selected,
           snd (TicketAdmin.handle ev (TicketAdmin.delete_selected selected) w)
           = mkWorld (rows w) (next_pk w) (clock w) (S (S (ticks w)))).
Proof.
  intros ops w pk t Hg. split; [|split; [|split]].
  - unfold run. revert w t Hg.
    induction ops as [|op ops IH]; intros w t Hg; simpl.
    + now exists t.
    + destruct (step_keeps op pk w t Hg) as (t1 & H1 & Hid1 & Hc1).
      destruct (IH _ t1 H1) as (t2 & H2 & Hid2 & Hc2).
      exists t2. split; [exact H2|]. split; congruence.
  - intros r Hm. unfold dispatch. rewrite Hm.
    destruct (path r) as [|pk0|]; auto.
    destruct (Z.ltb pk0 0); auto.
  - reflexivity.
  - reflexivity.
Qed.

End NoDeletion.

Section NoDeletionExample.

Import PyStr Fields Models Http Urls.

(** The sample ticket after a DELETE request, the two delete actions of
    the console, a create and an update. *)
Lemma C9_witness :
  exists t',
    objects_get 1
      (run Sample.address_check Sample.parse_int
         [ Api (mkRequest DELETE (ticket_detail 1) [] []);
           Console (TicketAdmin.delete_view 1);
           Console (TicketAdmin.delete_selected [1%Z]);
           Api (mkRequest POST ticket_list_create [] Sample.valid_body);
           Api (mkRequest PATCH (ticket_detail 1) []
                  [(lit "status", JString (lit "resolved"))]) ]
         Sample.world1)
    = Some t'
    /\ id t' = 1%Z /\ created_at t' = 100%Z.
Proof.
  exact (proj1 (C9_no_operation_removes_a_ticket Sample.address_check
                  Sample.parse_int
                  [ Api (mkRequest DELETE (ticket_detail 1) [] []);
                    Console (TicketAdmin.delete_view 1);
                    Console (TicketAdmin.delete_selected [1%Z]);
                    Api (mkRequest POST ticket_list_create [] Sample.valid_body);
                    Api (mkRequest PATCH (ticket_detail 1) []
                           [(lit "status", JString (lit "resolved"))]) ]
                  Sample.world1 1%Z Sample.ticket1 eq_refl)).
Defined.

End NoDeletionExample.

(* ------------------------------------------------------------------ *)
(** * Further properties of the store and the endpoints                *)
(* ------------------------------------------------------------------ *)

(** ** What one operation does to the table *)

Section Shapes.

Import PyStr Fields Models Http Urls Invariants.

Variable ev : str -> bool.
Variable int : str -> option Z.

Lemma save_rows (t0 : Ticket) (w : World) :
  rows (snd (save t0 w))
  = map (fun r => if Z.eqb (id r) (id t0) then fst (save t0 w) else r) (rows w)
  /\ next_pk (snd (save t0 w)) = next_pk w
  /\ clock (snd (save t0 w)) = clock w
  /\ ticks (snd (save t0 w)) = S (ticks w).
Proof. repeat split. Qed.

Lemma create_rows (kwargs : list (str * option str)) (w : World) :
  rows (snd (objects_create kwargs w)) = (rows w ++ [fst (objects_create kwargs w)])
  /\ next_pk (snd (objects_create kwargs w)) = (next_pk w + 1)%Z
  /\ clock (snd (objects_create kwargs w)) = clock w
  /\ ticks (snd (objects_create kwargs w)) = S (S (ticks w))
  /\ id (fst (objects_create kwargs w)) = next_pk w.
Proof. repeat split. Qed.

Lemma save_ids (t0 : Ticket) (w : World) :
  map id (rows (snd (save t0 w))) = map id (rows w).
Proof.
  destruct (save_rows t0 w) as [-> _]. rewrite map_map.
  apply map_ext_in. intros r _.
  destruct (Z.eqb (id r) (id t0)) eqn:E; [|reflexivity].
  apply Z.eqb_eq in E. now rewrite E.
Qed.

Lemma save_in (t0 t : Ticket) (w : World) :
  In t (rows (snd (save t0 w))) -> t = fst (save t0 w) \/ In t (rows w).
Proof.
  destruct (save_rows t0 w) as [-> _]. rewrite in_map_iff.
  intros (r & Hr & Hin). destruct (Z.eqb (id r) (id t0)); subst; auto.
Qed.

Lemma create_in (kwargs : list (str * option str)) (t : Ticket) (w : World) :
  In t (rows (snd (objects_create kwargs w)))
  <-> In t (rows w) \/ t = fst (objects_create kwargs w).
Proof.
  destruct (create_rows kwargs w) as [-> _]. rewrite in_app_iff. simpl.
  intuition.
Qed.

(** A request to the API leaves the store alone, or is a create answered
    201 with the new row, or an update answered 200 with the saved row. *)
Lemma dispatch_shape (r : Request) (w : World) :
  snd (dispatch ev int r w) = w
  \/ (exists vd,
         TicketCreateSerializer.run_validation ev (data r) = inr vd
         /\ dispatch ev int r w
            = (HTTP_201_CREATED (fst (objects_create vd w)),
               snd (objects_create vd w)))
  \/ (exists partial pk0 instance vd,
         objects_get pk0 w = Some instance
         /\ TicketUpdateSerializer.run_validation ev partial (data r) = inr vd
         /\ dispatch ev int r w
            = (HTTP_200_OK (fst (save (setattrs instance vd) w)),
               snd (save (setattrs instance vd) w))).
Proof.
  unfold dispatch.
  destruct (path r) as [|pk0|]; destruct (method r); auto.
  - rewrite create_spec.
    destruct (TicketCreateSerializer.run_validation ev (data r)) as [e|vd] eqn:E;
      [auto|]. right. left. now exists vd.
  - destruct (Z.ltb pk0 0); auto.
  - destruct (Z.ltb pk0 0); auto.
  - destruct (Z.ltb pk0 0); auto.
    unfold TicketRetrieveUpdateAPIView.put. rewrite update_spec.
    destruct (objects_get pk0 w) as [instance|] eqn:Eg; auto.
    destruct (TicketUpdateSerializer.run_validation ev false (data r))
      as [e|vd] eqn:E; auto.
    right. right. now exists false, pk0, instance, vd.
  - destruct (Z.ltb pk0 0); auto.
    unfold TicketRetrieveUpdateAPIView.patch,
      TicketRetrieveUpdateAPIView.partial_update.
    rewrite update_spec.
    destruct (objects_get pk0 w) as [instance|] eqn:Eg; auto.
    destruct (TicketUpdateSerializer.run_validation ev true (data r))
      as [e|vd] eqn:E; auto.
    right. right. now exists true, pk0, instance, vd.
  - destruct (Z.ltb pk0 0); auto.
Qed.

(** An action in the console leaves the store alone, or shows the change
    list, whose date filters read the clock, or adds the row of a clean
    form, or saves a stored row changed by a clean form; a saved form is
    logged, which reads the clock once more. *)
Lemma handle_shape (a : TicketAdmin.AdminRequest) (w : World) :
  snd (TicketAdmin.handle ev a w) = w
  \/ snd (TicketAdmin.handle ev a w) = TicketAdmin.date_filters w
  \/ (exists form cleaned,
         TicketAdmin.clean ev form = ([], cleaned)
         /\ TicketAdmin.handle ev a w
            = (HTTP_302_FOUND,
               TicketAdmin.log_entry (snd (objects_create cleaned w))))
  \/ (exists pk0 obj form cleaned,
         objects_get pk0 w = Some obj
         /\ TicketAdmin.clean ev form = ([], cleaned)
         /\ TicketAdmin.handle ev a w
            = (HTTP_302_FOUND,
               TicketAdmin.log_entry (snd (save (setattrs obj cleaned) w)))).
Proof.
  destruct a as [|form|pk0 form|pk0|selected]; cbn [TicketAdmin.handle]; auto.
  - destruct (TicketAdmin.clean ev form) as [[|b bad] cleaned] eqn:E; auto.
    right. right. left. exists form, cleaned. split; [assumption|].
    now destruct (objects_create cleaned w).
  - destruct (objects_get pk0 w) as [obj|] eqn:Eg; auto.
    destruct (TicketAdmin.clean ev form) as [[|b bad] cleaned] eqn:E; auto.
    right. right. right. exists pk0, obj, form, cleaned.
    repeat split; assumption.
Qed.

(** A property of the store that a reading of the clock, a create and a
    save keep is kept by every sequence of operations. *)
Lemma run_keeps (P : World -> Prop) :
  (forall w, P w -> P (snd (timezone_now w))) ->
  (forall kwargs w, P w -> P (snd (objects_create kwargs w))) ->
  (forall pk0 instance kwargs w,
      P w -> objects_get pk0 w = Some instance ->
      P (snd (save (setattrs instance kwargs) w))) ->
  forall ops w, P w -> P (run ev int ops w).
Proof.
  intros Ht Hc Hs ops. unfold run.
  induction ops as [|op ops IH]; intros w Hw; simpl; [assumption|].
  apply IH. destruct op as [r | a]; simpl.
  - destruct (dispatch_shape r w)
      as [H | [(vd & _ & H) | (p & pk0 & i & vd & Hg & _ & H)]]; rewrite H.
    + assumption.
    + now apply Hc.
    + now apply (Hs pk0).
  - destruct (handle_shape a w)
      as [H | [H | [(f & c & _ & H) | (pk0 & o & f & c & Hg & _ & H)]]];
      rewrite H.
    + assumption.
    + now apply Ht, Ht.
    + apply Ht. now apply Hc.
    + apply Ht. now apply (Hs pk0).
Qed.

End Shapes.
(** ** Keys *)

Section Keys.

Import PyStr Fields Models Http Urls Invariants.

Lemma find_app_none (pk : Z) (l l' : list Ticket) :
  find (fun t => Z.eqb (id t) pk) l = None ->
  find (fun t => Z.eqb (id t) pk) (l ++ l')
  = find (fun t => Z.eqb (id t) pk) l'.
Proof.
  induction l as [|r l IH]; simpl; [reflexivity|].
  destruct (Z.eqb (id r) pk); [discriminate | exact IH].
Qed.

Lemma find_fresh (w : World) :
  keys_fresh w -> find (fun t => Z.eqb (id t) (next_pk w)) (rows w) = None.
Proof.
  intros [_ Hlt].
  destruct (find (fun t => Z.eqb (id t) (next_pk w)) (rows w)) as [t|] eqn:E;
    [|reflexivity].
  apply find_some in E. destruct E as [Hin He].
  apply Z.eqb_eq in He. specialize (Hlt t Hin). lia.
Qed.

Lemma create_fresh (kwargs : list (str * option str)) (w : World) :
  keys_fresh w -> keys_fresh (snd (objects_create kwargs w)).
Proof.
  intros [Hnd Hlt].
  destruct (create_rows kwargs w) as (Hr & Hn & _ & _ & Hid).
  unfold keys_fresh. rewrite Hr, Hn, map_app. cbn [map]. rewrite Hid. split.
  - apply NoDup_app; [assumption | repeat constructor; simpl; tauto |].
    intros x Hx [<- | []]. apply in_map_iff in Hx.
    destruct Hx as (t & Ht & Hin). specialize (Hlt t Hin). lia.
  - intros t Ht. apply in_app_iff in Ht. destruct Ht as [Ht | [<- | []]].
    + specialize (Hlt t Ht). lia.
    + lia.
Qed.

Lemma save_fresh (t0 : Ticket) (w : World) :
  keys_fresh w -> keys_fresh (snd (save t0 w)).
Proof.
  intros [Hnd Hlt]. unfold keys_fresh. rewrite save_ids. split; [assumption|].
  destruct (save_rows t0 w) as (_ & -> & _).
  intros t Ht.
  assert (Hi : In (id t) (map id (rows (snd (save t0 w))))) by now apply in_map.
  rewrite save_ids in Hi. apply in_map_iff in Hi.
  destruct Hi as (r & Hr & Hin). rewrite <- Hr. now apply Hlt.
Qed.

(** The list without query parameters: the first page of the table in
    the ordering of the view. *)
Lemma get_all (int : str -> option Z) (w : World) :
  TicketListCreateAPIView.get int [] w
  = HTTP_200_LIST
      (Pagination.page 1 (Ordering.order_by Ordering.ordering (rows w))).
Proof.
  rewrite (get_unfold int [] w (rows w)) by reflexivity.
  unfold TicketListCreateAPIView.evaluate. cbn [query_get fold_left truthy].
  now rewrite (paginate_first int [] _ eq_refl).
Qed.

(** The row a descending order puts first is a latest one. *)
Lemma latest_first (t : Ticket) (l qs : list Ticket) :
  Permutation.Permutation l (qs ++ [t]) ->
  Sorted.StronglySorted (fun a b => (updated_at b <= updated_at a)%Z) l ->
  (forall r, In r qs -> (updated_at r < updated_at t)%Z) ->
  hd_error l = Some t.
Proof.
  intros Hp Hs Hlt.
  assert (Ht : In t l).
  { apply (Permutation.Permutation_in t (Permutation.Permutation_sym Hp)).
    apply in_app_iff. right. now left. }
  destruct l as [|h l]; [destruct Ht|]. cbn [hd_error].
  assert (Hh : In h (qs ++ [t])).
  { apply (Permutation.Permutation_in h Hp). now left. }
  apply in_app_iff in Hh. destruct Hh as [Hh | [-> | []]]; [|reflexivity].
  destruct Ht as [-> | Ht]; [reflexivity|].
  apply Sorted.StronglySorted_inv in Hs. destruct Hs as [_ Hall].
  rewrite Forall_forall in Hall. specialize (Hall t Ht).
  specialize (Hlt h Hh). lia.
Qed.

(** X1.  Whatever requests and console actions are run, the keys of the
    table stay pairwise different and below the next key of the
    sequence: a key is never given twice. *)
Theorem X1_keys_stay_unique :
  forall (ev : str -> bool) (int : str -> option Z) (ops : list Operation)
         (w : World),
    keys_fresh w -> keys_fresh (run ev int ops w).
Proof.
  intros ev int ops. apply run_keeps.
  - intros w H. exact H.
  - intros kwargs w. apply create_fresh.
  - intros pk0 instance kwargs w H _. now apply save_fresh.
Qed.

(** The sample table after a create, an update and a console add. *)
Lemma X1_witness :
  keys_fresh
    (run Sample.address_check Sample.parse_int
       [ Api (mkRequest POST ticket_list_create [] Sample.valid_body);
         Api (mkRequest PATCH (ticket_detail 1) [] [(lit "status", JString (lit "resolved"))]);
         Console (TicketAdmin.add_view
                    (TicketAdmin.mkForm (lit "Cable") (lit "Loose") (lit "pending") (lit "bob@example.com") [])) ]
       Sample.world1).
Proof.
  apply X1_keys_stay_unique. split.
  - simpl. repeat constructor. simpl. tauto.
  - simpl. intros t [<- | []]. reflexivity.
Defined.

(** X2.  A create answered 201 can be read back: the ticket it answers
    has the key the sequence was at, a key no stored ticket had; it is
    added to the table; a GET on its key answers it; the tickets stored
    before are read as before; and the list read without parameters
    answers a page that counts one ticket more than were stored, holds
    only the new ticket and tickets stored before and, when every stored
    ticket was updated earlier than the new one, has the new one first. *)
Theorem X2_created_ticket_is_read_back :
  forall (ev : str -> bool) (int : str -> option Z) (data : Data)
         (w w' : World) (t : Ticket),
    keys_fresh w ->
    TicketListCreateAPIView.create ev data w = (HTTP_201_CREATED t, w') ->
    id t = next_pk w
    /\ ~ In (id t) (map id (rows w))
    /\ rows w' = (rows w ++ [t])
    /\ TicketRetrieveUpdateAPIView.retrieve (id t) w' = HTTP_200_OK t
    /\ (forall pk t0,
           objects_get pk w = Some t0 ->
           TicketRetrieveUpdateAPIView.retrieve pk w' = HTTP_200_OK t0)
    /\ exists page,
         TicketListCreateAPIView.get int [] w' = HTTP_200_LIST page
         /\ count page = S (List.length (rows w))
         /\ (forall r, In r (results page) -> In r (rows w) \/ r = t)
         /\ ((forall r, In r (rows w) -> (updated_at r < updated_at t)%Z) ->
             hd_error (results page) = Some t).
Proof.
  intros ev int data w w' t Hf H.
  apply created_ticket in H. destruct H as (vd & _ & -> & ->).
  destruct (create_rows vd w) as (Hr & _ & _ & _ & Hid).
  split; [exact Hid|]. split; [|split; [exact Hr|split; [|split]]].
  - rewrite Hid. intros Hin. apply in_map_iff in Hin.
    destruct Hin as (r & Hr' & Hin). destruct Hf as [_ Hlt].
    specialize (Hlt r Hin). lia.
  - unfold TicketRetrieveUpdateAPIView.retrieve,
      TicketRetrieveUpdateAPIView.get_object, objects_get.
    rewrite Hr, Hid, find_app_none by now apply find_fresh.
    cbn [find]. rewrite Hid, Z.eqb_refl. reflexivity.
  - intros pk t0 Hg.
    unfold TicketRetrieveUpdateAPIView.retrieve,
      TicketRetrieveUpdateAPIView.get_object.
    now rewrite (create_keeps pk w t0 vd Hg).
  - eexists. split; [apply get_all|]. rewrite Hr.
    pose proof (order_by_perm Ordering.ordering
                  (rows w ++ [fst (objects_create vd w)])) as Hp.
    split; [|split].
    + cbn [count Pagination.page].
      rewrite (Permutation.Permutation_length Hp), length_app. simpl. lia.
    + intros r Hin. apply page_results_in in Hin.
      apply (Permutation.Permutation_in r Hp) in Hin.
      apply in_app_iff in Hin. destruct Hin as [Hin | [<- | []]]; auto.
    + intros Hlt. cbn [results Pagination.page].
      change ((1 - 1) * Pagination.PAGE_SIZE) with 0. cbn [skipn].
      pose proof (latest_first _ _ _ Hp (default_sorted _) Hlt) as Hhd.
      destruct (Ordering.order_by Ordering.ordering
                  (rows w ++ [fst (objects_create vd w)])) as [|h l];
        [discriminate Hhd|].
      exact Hhd.
Qed.

(** The sample body created in the sample table is read back under key 2
    and heads the list. *)
Lemma X2_witness :
  exists t page,
    id t = 2%Z
    /\ TicketRetrieveUpdateAPIView.retrieve 2
         (snd (TicketListCreateAPIView.create Sample.address_check
                 Sample.valid_body Sample.world1))
       = HTTP_200_OK t
    /\ title t = lit "New Support Request"
    /\ TicketListCreateAPIView.get Sample.parse_int []
         (snd (TicketListCreateAPIView.create Sample.address_check
                 Sample.valid_body Sample.world1))
       = HTTP_200_LIST page
    /\ count page = 2
    /\ hd_error (results page) = Some t.
Proof.
  pose (t := mkTicket 2 (lit "New Support Request")
               (lit "This is a detailed description of the support request")
               (lit "user@example.com") (Some (lit "1234567890")) (lit "pending") 1000 1001).
  assert (Hf : keys_fresh Sample.world1).
  { split.
    - simpl. repeat constructor. simpl. tauto.
    - simpl. intros r [<- | []]. reflexivity. }
  destruct (X2_created_ticket_is_read_back Sample.address_check
              Sample.parse_int Sample.valid_body
              Sample.world1
              (snd (TicketListCreateAPIView.create Sample.address_check
                      Sample.valid_body Sample.world1))
              t Hf eq_refl) as (Hid & _ & _ & Hr & _ & page & Hg & Hc & _ & Hh).
  exists t, page. repeat split; try assumption.
  apply Hh. intros r [<- | []]. reflexivity.
Defined.

(** X3.  An update through PUT or PATCH, whatever it answers, touches
    no other ticket: the keys of the table and the next key are as
    before, and the row read under any other key is the row read before. *)
Theorem X3_update_touches_one_row :
  forall (ev : str -> bool) (partial : bool) (pk pk' : Z) (data : Data)
         (w : World),
    pk' <> pk ->
    map id (rows (snd (TicketRetrieveUpdateAPIView.update ev partial pk data w)))
    = map id (rows w)
    /\ next_pk (snd (TicketRetrieveUpdateAPIView.update ev partial pk data w))
       = next_pk w
    /\ objects_get pk' (snd (TicketRetrieveUpdateAPIView.update ev partial pk data w))
       = objects_get pk' w.
Proof.
  intros ev partial pk pk' data w Hne. rewrite update_spec.
  destruct (objects_get pk w) as [instance|] eqn:Hg; [|auto].
  destruct (TicketUpdateSerializer.run_validation ev partial data) as [e|vd];
    [auto|]. cbn [snd].
  split; [apply save_ids|]. split; [reflexivity|].
  rewrite objects_get_save.
  destruct (setattrs_fixed vd instance) as (Hid & _).
  rewrite Hid, (objects_get_id pk w instance Hg).
  destruct (Z.eqb pk pk') eqn:E; [|reflexivity].
  apply Z.eqb_eq in E. congruence.
Qed.

(** A PATCH of ticket 1 among the ten sample tickets leaves ticket 2. *)
Lemma X3_witness :
  objects_get 2
    (snd (TicketRetrieveUpdateAPIView.update Sample.address_check true 1
            [(lit "status", JString (lit "rejected"))] Sample.world10))
  = objects_get 2 Sample.world10.
Proof.
  refine (proj2 (proj2 (X3_update_touches_one_row Sample.address_check true 1 2
                          [(lit "status", JString (lit "rejected"))] Sample.world10 _))).
  discriminate.
Defined.

(** X4.  An operation that is refused writes nothing: when the answer
    of an API request or console action is a 400, 403, 404, 405, 500 or
    a form shown again with errors, the store is the one before; and a
    GET request never writes, whatever it answers. *)
Theorem X4_refusals_and_reads_write_nothing :
  forall (ev : str -> bool) (int : str -> option Z) (w : World),
    (forall op, is_error (fst (step ev int op w)) = true ->
                snd (step ev int op w) = w)
    /\ (forall r, method r = GET -> snd (dispatch ev int r w) = w).
Proof.
  intros ev int w. split.
  - intros [r | a]; simpl.
    + destruct (dispatch_shape ev int r w)
        as [H | [(vd & _ & ->) | (p & pk0 & i & vd & _ & _ & ->)]];
        [auto | discriminate | discriminate].
    + destruct (handle_shape ev a w)
        as [H | [H | [(f & c & _ & ->) | (pk0 & o & f & c & _ & _ & ->)]]];
        [auto | | discriminate | discriminate].
      destruct a as [|form|pk0 form|pk0|selected];
        cbn [TicketAdmin.handle] in *; try discriminate; try reflexivity.
      * now destruct (TicketAdmin.clean ev form) as [[|b bad] cleaned];
          [destruct (objects_create cleaned w)|].
      * destruct (objects_get pk0 w); [|reflexivity].
        now destruct (TicketAdmin.clean ev form) as [[|b bad] cleaned];
          [destruct (save (setattrs t cleaned) w)|].
  - intros r Hm. unfold dispatch. rewrite Hm.
    destruct (path r) as [|pk0|]; auto. now destruct (Z.ltb pk0 0).
Qed.

(** A POST with a short title is refused and writes nothing. *)
Lemma X4_witness :
  snd (step Sample.address_check Sample.parse_int
         (Api (mkRequest POST ticket_list_create [] [(lit "title", JString (lit "Hi"))]))
         Sample.world1)
  = Sample.world1.
Proof.
  exact (proj1 (X4_refusals_and_reads_write_nothing Sample.address_check
                  Sample.parse_int Sample.world1)
           (Api (mkRequest POST ticket_list_create [] [(lit "title", JString (lit "Hi"))]))
           eq_refl).
Defined.

End Keys.
(** ** Statuses *)

Section Statuses.

Import PyStr Fields Models Http Urls Invariants.

Variable ev : str -> bool.
Variable int : str -> option Z.

Lemma run_induct (P : World -> Prop) :
  (forall op w, P w -> P (snd (step ev int op w))) ->
  forall ops w, P w -> P (run ev int ops w).
Proof.
  intros Hstep ops. unfold run.
  induction ops as [|op ops IH]; intros w Hw; simpl; [assumption|].
  apply IH. now apply Hstep.
Qed.

Lemma run_api_induct (P : World -> Prop) :
  (forall r w, P w -> P (snd (dispatch ev int r w))) ->
  forall rs w, P w -> P (run ev int (map Api rs) w).
Proof.
  intros Hstep rs. unfold run.
  induction rs as [|r rs IH]; intros w Hw; simpl; [assumption|].
  apply IH. now apply Hstep.
Qed.

Lemma status_setattr (t : Ticket) (k : str) (v : option str) :
  status (setattr t k v) = status t
  \/ (k = lit "status" /\ v = Some (status (setattr t k v))).
Proof.
  unfold setattr.
  destruct (eqb k (lit "title")); [destruct v; auto|].
  destruct (eqb k (lit "description")); [destruct v; auto|].
  destruct (eqb k (lit "contact_email")); [destruct v; auto|].
  destruct (eqb k (lit "contact_phone")); [auto|].
  destruct (eqb k (lit "status")) eqn:E; [|auto].
  apply eqb_eq in E. destruct v; auto.
Qed.

Lemma status_setattrs (kwargs : list (str * option str)) (t : Ticket) :
  In (status t) status_values ->
  (forall v, In (lit "status", Some v) kwargs -> In v status_values) ->
  In (status (setattrs t kwargs)) status_values.
Proof.
  unfold setattrs. revert t.
  induction kwargs as [|[k v] rest IH]; intros t Ht Hk; [exact Ht|].
  cbn [fold_left fst snd]. apply IH.
  - destruct (status_setattr t k v) as [-> | [-> Hv]]; [assumption|].
    apply Hk. left. now rewrite Hv at 1.
  - intros x Hx. apply Hk. now right.
Qed.

Lemma status_field_value (partial : bool) (data : Data) (v : option str) :
  validate_field partial TicketUpdateSerializer.validate_method
    ModelFields.status data = Validated v ->
  exists st, v = Some st /\ In st status_values.
Proof.
  unfold validate_field, get_value, run_validation, field_run_validation,
    to_internal_value_of.
  cbn [field_name kind required allow_null allow_blank ModelFields.status
       ChoiceField].
  destruct (lookup (lit "status") data) as [d|];
    [|destruct partial; discriminate].
  assert (Hv : forall x,
             match (if existsb (eqb x) status_values
                    then inl x else inr [msg_invalid_choice x])
             with
             | inl value =>
                 validated (ChoiceField (lit "status") false false false
                              status_values) value
             | inr detail => ValidationError detail
             end = Validated v ->
             exists st, v = Some st /\ In st status_values).
  { intros x. destruct (existsb (eqb x) status_values) eqn:E; [|discriminate].
    unfold validated, run_validators. cbn [validators ChoiceField flat_map].
    intros H. injection H as <-. exists x. split; [reflexivity|].
    apply existsb_exists in E. destruct E as (y & Hy & Hs).
    apply eqb_eq in Hs. now subst. }
  assert (Hm : TicketUpdateSerializer.validate_method (lit "status") = None)
    by reflexivity.
  rewrite Hm.
  assert (He : forall o : Outcome,
             match o with
             | SkipField => SkipField
             | Validated (Some x) => Validated (Some x)
             | Validated None => Validated None
             | ValidationError detail => ValidationError detail
             end = o) by (intros [|[x|]|]; reflexivity).
  rewrite He.
  destruct d as [|b|n|s|c]; [discriminate| | |destruct s|];
    intros H; [apply (Hv (str_of (JBool b))) | apply (Hv n) | apply (Hv [])
              | apply (Hv (n :: s)) | apply (Hv c)]; exact H.
Qed.

Lemma update_status_values (partial : bool) (data : Data) (vd : ValidatedData) :
  TicketUpdateSerializer.run_validation ev partial data = inr vd ->
  forall v, In (lit "status", Some v) vd -> In v status_values.
Proof.
  unfold TicketUpdateSerializer.run_validation. intros H v Hin.
  apply valid_means_no_error in H. destruct H as [-> _].
  apply values_iff in Hin. destruct Hin as (f & Hf & Hn & Hv).
  simpl in Hf. destruct Hf as [<- | [<- | [<- | [<- | [<- | []]]]]];
    try discriminate.
  apply status_field_value in Hv. destruct Hv as (st & Hst & Hin).
  injection Hst as ->. exact Hin.
Qed.

Lemma clean_status_values (form : TicketAdmin.Form) (cleaned : ValidatedData) :
  TicketAdmin.clean ev form = ([], cleaned) ->
  forall v, In (lit "status", Some v) cleaned -> In v status_values.
Proof.
  unfold TicketAdmin.clean. intros H v Hin.
  injection H as Hbad <-.
  apply app_eq_nil in Hbad. destruct Hbad as [_ Hbad].
  apply app_eq_nil in Hbad. destruct Hbad as [_ Hbad].
  apply app_eq_nil in Hbad. destruct Hbad as [Hbad _].
  simpl in Hin.
  destruct Hin as [Hin | [Hin | [Hin | [Hin | [Hin | []]]]]]; try discriminate.
  injection Hin as <-.
  destruct (existsb (eqb (TicketAdmin.form_status form)) status_values)
    eqn:E; [|exfalso; simpl in E; rewrite E in Hbad; discriminate].
  apply existsb_exists in E. destruct E as (x & Hx & Hs).
  apply eqb_eq in Hs. now subst.
Qed.

Lemma create_statuses (kwargs : list (str * option str)) (w : World) :
  (forall v, In (lit "status", Some v) kwargs -> In v status_values) ->
  statuses_valid w -> statuses_valid (snd (objects_create kwargs w)).
Proof.
  intros Hk Hw t Ht. apply create_in in Ht. destruct Ht as [Ht | ->].
  - now apply Hw.
  - destruct (objects_create_result kwargs w) as [-> _]. cbn [status].
    apply status_setattrs; [simpl; auto | assumption].
Qed.

Lemma save_statuses (pk0 : Z) (instance : Ticket)
  (kwargs : list (str * option str)) (w : World) :
  (forall v, In (lit "status", Some v) kwargs -> In v status_values) ->
  statuses_valid w -> objects_get pk0 w = Some instance ->
  statuses_valid (snd (save (setattrs instance kwargs) w)).
Proof.
  intros Hk Hw Hg t Ht. apply save_in in Ht. destruct Ht as [-> | Ht].
  - rewrite save_result. cbn [status]. apply status_setattrs; [|assumption].
    apply Hw. unfold objects_get in Hg. now apply find_some in Hg.
  - now apply Hw.
Qed.

Lemma step_statuses (op : Operation) (w : World) :
  statuses_valid w -> statuses_valid (snd (step ev int op w)).
Proof.
  intros Hw. destruct op as [r | a]; simpl.
  - destruct (dispatch_shape ev int r w)
      as [H | [(vd & Hv & H) | (p & pk0 & i & vd & Hg & Hv & H)]]; rewrite H.
    + assumption.
    + apply create_statuses; [|assumption]. intros v Hin. exfalso.
      apply (create_never_sets_status ev (data r) vd Hv).
      apply in_map_iff. now exists (lit "status", Some v).
    + apply (save_statuses pk0); try assumption.
      now apply (update_status_values p (data r)).
  - destruct (handle_shape ev a w)
      as [H | [H | [(f & c & Hc & H) | (pk0 & o & f & c & Hg & Hc & H)]]];
      rewrite H.
    + assumption.
    + assumption.
    + cbn [snd]. change (statuses_valid (snd (objects_create c w))).
      apply create_statuses; [|assumption]. now apply (clean_status_values f).
    + cbn [snd]. change (statuses_valid (snd (save (setattrs o c) w))).
      apply (save_statuses pk0); try assumption.
      now apply (clean_status_values f).
Qed.

(** X5.  The status of a stored ticket is always one of pending,
    accepted, resolved and rejected: API requests and console actions
    keep this of every row, so after any sequence the total of the
    statistics is the sum of its four status counts. *)
Theorem X5_statuses_stay_valid :
  forall (ops : list Operation) (w : World),
    statuses_valid w ->
    statuses_valid (run ev int ops w)
    /\ exists s,
         StatsView.ticket_stats [] (run ev int ops w) = HTTP_200_STATS s
         /\ total s = pending s + accepted s + resolved s + rejected s.
Proof.
  intros ops w Hw.
  assert (Hr : statuses_valid (run ev int ops w))
    by (revert w Hw; apply run_induct; intros op w; apply step_statuses).
  split; [exact Hr|]. eexists. split; [reflexivity|].
  cbn [total pending accepted resolved rejected].
  rewrite !count_status_occ, <- (length_map status). apply four_way_count.
  intros x Hx. apply in_map_iff in Hx. destruct Hx as (t & <- & Ht). now apply Hr.
Qed.

End Statuses.

Section StatusesExample.

Import PyStr Fields Models Http Urls Invariants.

(** The sample table after an update of a status and a console change. *)
Lemma X5_witness :
  statuses_valid
    (run Sample.address_check Sample.parse_int
       [ Api (mkRequest PUT (ticket_detail 1) []
                [ (lit "title", JString (lit "Printer offline"));
                  (lit "description", JString (lit "The office printer does not respond"));
                  (lit "contact_email", JString (lit "ann@example.com"));
                  (lit "status", JString (lit "accepted")) ]);
         Console (TicketAdmin.change_view 1
                    (TicketAdmin.mkForm (lit "Printer") (lit "Offline") (lit "rejected")
                       (lit "ann@example.com") [])) ]
       Sample.world1).
Proof.
  refine (proj1 (X5_statuses_stay_valid Sample.address_check Sample.parse_int
                   _ Sample.world1 _)).
  intros t [<- | []]. simpl. tauto.
Defined.

End StatusesExample.
(** ** Time stamps *)

Section Stamps.

Import PyStr Fields Models Http Urls Invariants.

Variable ev : str -> bool.
Variable int : str -> option Z.

Lemma tick_stamps (w : World) :
  monotone (clock w) /\ stamps_ordered w ->
  monotone (clock (snd (timezone_now w)))
  /\ stamps_ordered (snd (timezone_now w)).
Proof.
  intros [Hm Hw]. split; [exact Hm|].
  intros t Hin. destruct (Hw t Hin) as [H1 H2]. split; [assumption|].
  intros j Hj. apply H2. simpl in Hj. lia.
Qed.

Lemma create_stamps (kwargs : list (str * option str)) (w : World) :
  monotone (clock w) /\ stamps_ordered w ->
  monotone (clock (snd (objects_create kwargs w)))
  /\ stamps_ordered (snd (objects_create kwargs w)).
Proof.
  intros [Hm Hw].
  destruct (create_rows kwargs w) as (_ & _ & Hc & Ht & _).
  split; [now rewrite Hc|].
  intros t Hin. rewrite Hc, Ht. apply create_in in Hin.
  destruct Hin as [Hin | ->].
  - destruct (Hw t Hin) as [H1 H2]. split; [assumption|].
    intros j Hj. apply H2. lia.
  - destruct (objects_create_result kwargs w) as [-> _].
    cbn [created_at updated_at]. split.
    + apply Hm. lia.
    + intros j Hj. apply Hm. lia.
Qed.

Lemma save_stamps (pk0 : Z) (instance : Ticket)
  (kwargs : list (str * option str)) (w : World) :
  monotone (clock w) /\ stamps_ordered w ->
  objects_get pk0 w = Some instance ->
  monotone (clock (snd (save (setattrs instance kwargs) w)))
  /\ stamps_ordered (snd (save (setattrs instance kwargs) w)).
Proof.
  intros [Hm Hw] Hg.
  destruct (save_rows (setattrs instance kwargs) w) as (_ & _ & Hc & Ht).
  split; [now rewrite Hc|].
  intros t Hin. rewrite Hc, Ht. apply save_in in Hin.
  destruct Hin as [-> | Hin].
  - rewrite save_result. cbn [created_at updated_at].
    destruct (setattrs_fixed kwargs instance) as (_ & -> & _).
    assert (Hi : In instance (rows w))
      by (unfold objects_get in Hg; now apply find_some in Hg).
    destruct (Hw instance Hi) as [H1 H2]. split.
    + specialize (H2 (ticks w) (le_n _)). lia.
    + intros j Hj. apply Hm. lia.
  - destruct (Hw t Hin) as [H1 H2]. split; [assumption|].
    intros j Hj. apply H2. lia.
Qed.

Lemma step_stamps (op : Operation) (w : World) :
  monotone (clock w) /\ stamps_ordered w ->
  monotone (clock (snd (step ev int op w))) /\ stamps_ordered (snd (step ev int op w)).
Proof.
  intros Hw. destruct op as [r | a]; simpl.
  - destruct (dispatch_shape ev int r w)
      as [H | [(vd & _ & H) | (p & pk0 & i & vd & Hg & _ & H)]]; rewrite H.
    + assumption.
    + now apply create_stamps.
    + now apply (save_stamps pk0).
  - destruct (handle_shape ev a w)
      as [H | [H | [(f & c & _ & H) | (pk0 & o & f & c & Hg & _ & H)]]];
      rewrite H.
    + assumption.
    + now apply tick_stamps, tick_stamps.
    + apply tick_stamps. now apply create_stamps.
    + apply tick_stamps. now apply (save_stamps pk0).
Qed.

Lemma save_later (pk pk0 : Z) (w : World) (t instance : Ticket)
  (kwargs : list (str * option str)) :
  stamps_ordered w ->
  objects_get pk w = Some t ->
  objects_get pk0 w = Some instance ->
  exists t',
    objects_get pk (snd (save (setattrs instance kwargs) w)) = Some t'
    /\ created_at t' = created_at t
    /\ (updated_at t <= updated_at t')%Z.
Proof.
  intros Hw Hg Hg0. rewrite objects_get_save.
  destruct (setattrs_fixed kwargs instance) as (Hid & Hc & _).
  rewrite Hid, Hg.
  destruct (Z.eqb (id instance) pk) eqn:E.
  - apply Z.eqb_eq in E.
    assert (instance = t).
    { rewrite (objects_get_id pk0 w instance Hg0) in E. subst pk0. congruence. }
    subst instance. eexists. split; [reflexivity|].
    rewrite save_result. cbn [created_at updated_at]. split; [assumption|].
    assert (Hi : In t (rows w))
      by (unfold objects_get in Hg; now apply find_some in Hg).
    destruct (Hw t Hi) as [_ H2]. apply H2. lia.
  - exists t. repeat split; try reflexivity; lia.
Qed.

Lemma step_later (op : Operation) (pk : Z) (w : World) (t : Ticket) :
  stamps_ordered w ->
  objects_get pk w = Some t ->
  exists t',
    objects_get pk (snd (step ev int op w)) = Some t'
    /\ created_at t' = created_at t
    /\ (updated_at t <= updated_at t')%Z.
Proof.
  intros Hw Hg.
  assert (Hsame : exists t', objects_get pk w = Some t'
                             /\ created_at t' = created_at t
                             /\ (updated_at t <= updated_at t')%Z)
    by (exists t; repeat split; try assumption; lia).
  destruct op as [r | a]; simpl.
  - destruct (dispatch_shape ev int r w)
      as [H | [(vd & _ & H) | (p & pk0 & i & vd & Hg0 & _ & H)]]; rewrite H.
    + assumption.
    + cbn [snd]. exists t. rewrite (create_keeps pk w t vd Hg).
      repeat split; try reflexivity; lia.
    + cbn [snd]. now apply (save_later pk pk0).
  - destruct (handle_shape ev a w)
      as [H | [H | [(f & c & _ & H) | (pk0 & o & f & c & Hg0 & _ & H)]]];
      rewrite H.
    + assumption.
    + assumption.
    + cbn [snd].
      change (objects_get pk (TicketAdmin.log_entry (snd (objects_create c w))))
        with (objects_get pk (snd (objects_create c w))).
      exists t. rewrite (create_keeps pk w t c Hg).
      repeat split; try reflexivity; lia.
    + cbn [snd].
      change (objects_get pk
                (TicketAdmin.log_entry (snd (save (setattrs o c) w))))
        with (objects_get pk (snd (save (setattrs o c) w))).
      now apply (save_later pk pk0).
Qed.

(** X7.  On a clock that never runs backwards, no sequence of requests
    and console actions makes a ticket older than its creation: every
    row keeps [created_at <= updated_at]; and for a ticket stored before
    the sequence, [created_at] is as it was and [updated_at] has not
    gone back. *)
Theorem X7_stamps_stay_ordered :
  forall (ops : list Operation) (w : World),
    monotone (clock w) ->
    stamps_ordered w ->
    (forall t, In t (rows (run ev int ops w)) -> (created_at t <= updated_at t)%Z)
    /\ (forall pk t,
           objects_get pk w = Some t ->
           exists t',
             objects_get pk (run ev int ops w) = Some t'
             /\ created_at t' = created_at t
             /\ (updated_at t <= updated_at t')%Z).
Proof.
  intros ops w Hm Hw. split.
  - assert (H : monotone (clock (run ev int ops w)) /\ stamps_ordered (run ev int ops w)).
    { assert (H0 : monotone (clock w) /\ stamps_ordered w) by now split.
      revert w H0 Hm Hw. intros w H0 _ _. revert w H0.
      apply (run_induct ev int (fun w => monotone (clock w) /\ stamps_ordered w)).
      intros op w. apply step_stamps. }
    intros t Ht. now apply (proj2 H t Ht).
  - unfold run. revert w Hm Hw.
    induction ops as [|op ops IH]; intros w Hm Hw pk t Hg; simpl.
    + exists t. repeat split; try assumption; lia.
    + destruct (step_later op pk w t Hw Hg) as (t1 & H1 & Hc1 & Hu1).
      destruct (step_stamps op w (conj Hm Hw)) as [Hm1 Hw1].
      destruct (IH _ Hm1 Hw1 pk t1 H1) as (t2 & H2 & Hc2 & Hu2).
      exists t2. split; [exact H2|]. split; [congruence | lia].
Qed.

End Stamps.

Section StampsExample.

Import PyStr Fields Models Http Urls Invariants.

Lemma ticking_monotone (start : Z) : monotone (Sample.ticking start).
Proof. intros i j Hij. unfold Sample.ticking. lia. Qed.

(** The sample ticket, created and last updated at 100 on a clock that
    reads 1000 and more, after a PATCH. *)
Lemma X7_witness :
  exists t',
    objects_get 1
      (run Sample.address_check Sample.parse_int
         [ Api (mkRequest PATCH (ticket_detail 1) []
                  [(lit "status", JString (lit "resolved"))]) ]
         Sample.world1)
    = Some t'
    /\ created_at t' = 100%Z
    /\ (100 <= updated_at t')%Z.
Proof.
  refine (proj2 (X7_stamps_stay_ordered Sample.address_check Sample.parse_int
                   [ Api (mkRequest PATCH (ticket_detail 1) []
                            [(lit "status", JString (lit "resolved"))]) ]
                   Sample.world1 (ticking_monotone 1000) _)
            1%Z Sample.ticket1 eq_refl).
  intros t [<- | []]. split.
  - simpl. lia.
  - intros j _. change (100 <= 1000 + Z.of_nat j)%Z. lia.
Defined.

End StampsExample.
(** ** What the API lets into the table *)

Section StoredValues.

Import PyStr Fields Models Http Urls Invariants.

Variable ev : str -> bool.
Variable int : str -> option Z.

(** A value that comes out of a field came out of its [run_validation],
    and went through the [validate_] method of the class if it has one. *)
Lemma validate_field_cases (partial : bool) (vm : str -> option ValidateMethod)
  (f : Field) (data : Data) (v : option str) :
  validate_field partial vm f data = Validated v ->
  (v = None /\ allow_null f = true)
  \/ exists v0 x,
       v = Some x
       /\ run_validation partial f (get_value f data) = Validated (Some v0)
       /\ match vm (field_name f) with
          | Some m => m v0 = inl x
          | None => x = v0
          end.
Proof.
  unfold validate_field.
  destruct (run_validation partial f (get_value f data)) as [|[v0|]|d] eqn:E;
    try discriminate.
  - intros H. right. exists v0. destruct (vm (field_name f)) as [m|].
    + destruct (m v0) as [x|d] eqn:Em; [|discriminate].
      injection H as <-. exists x. auto.
    + injection H as <-. exists v0. auto.
  - intros H. injection H as <-. left. split; [reflexivity|].
    now apply (null_validated partial f (get_value f data)).
Qed.

Lemma stored_char (name : str) (r n b : bool) (limit : option nat)
  (min_length : nat) (v : str) :
  strip v = v ->
  run_validators (CharField name r n b limit) v = [] ->
  min_length <= len v ->
  stored_text min_length limit v.
Proof.
  intros Hs Hv Hm. apply char_validators_pass in Hv.
  destruct Hv as (Hl & Hn & Hsur). unfold stored_text.
  split; [assumption|]. split; [assumption|].
  split; [now apply first_surrogate_none|]. now split.
Qed.

Lemma title_field_value (partial : bool) (data : Data) (v : option str) :
  validate_field partial TicketUpdateSerializer.validate_method
    ModelFields.title data = Validated v ->
  attr_ok ev (lit "title") v.
Proof.
  intros H. apply validate_field_cases in H.
  destruct H as [[_ Hn] | (v0 & x & -> & Hr & Hm)]; [discriminate Hn|].
  apply char_validated in Hr; [|reflexivity].
  destruct Hr as (Hs & [[_ Hb] | [Hne Hv]]); [discriminate Hb|].
  change (TicketUpdateSerializer.validate_title v0 = inl x) in Hm.
  unfold TicketUpdateSerializer.validate_title in Hm. rewrite Hs in Hm.
  destruct (Nat.ltb (len v0) 3) eqn:E3; [discriminate|]. injection Hm as <-.
  apply Nat.ltb_ge in E3. change (stored_text 3 (Some 200) v0).
  now apply (stored_char (lit "title") true false false).
Qed.

Lemma description_field_value (partial : bool) (data : Data) (v : option str) :
  validate_field partial TicketUpdateSerializer.validate_method
    ModelFields.description data = Validated v ->
  attr_ok ev (lit "description") v.
Proof.
  intros H. apply validate_field_cases in H.
  destruct H as [[_ Hn] | (v0 & x & -> & Hr & Hm)]; [discriminate Hn|].
  apply char_validated in Hr; [|reflexivity].
  destruct Hr as (Hs & [[_ Hb] | [Hne Hv]]); [discriminate Hb|].
  change (TicketUpdateSerializer.validate_description v0 = inl x) in Hm.
  unfold TicketUpdateSerializer.validate_description in Hm. rewrite Hs in Hm.
  destruct (Nat.ltb (len v0) 10) eqn:E3; [discriminate|]. injection Hm as <-.
  apply Nat.ltb_ge in E3. change (stored_text 10 None v0).
  now apply (stored_char (lit "description") true false false).
Qed.

Lemma contact_email_field_value (partial : bool) (data : Data) (v : option str) :
  validate_field partial TicketUpdateSerializer.validate_method
    (ModelFields.contact_email ev) data = Validated v ->
  attr_ok ev (lit "contact_email") v.
Proof.
  intros H. apply validate_field_cases in H.
  destruct H as [[_ Hn] | (v0 & x & -> & Hr & Hm)]; [discriminate Hn|].
  apply char_validated in Hr; [|reflexivity].
  destruct Hr as (Hs & [[_ Hb] | [Hne Hv]]); [discriminate Hb|].
  change (x = v0) in Hm. subst x.
  unfold run_validators in Hv.
  cbn [validators ModelFields.contact_email EmailField] in Hv.
  rewrite flat_map_app in Hv. apply app_eq_nil in Hv. destruct Hv as [Hc He].
  cbn [flat_map] in He. unfold EmailValidator in He.
  destruct (ev v0) eqn:Eev; [|discriminate].
  change (stored_text 1 (Some 254) v0 /\ ev v0 = true). split; [|assumption].
  apply (stored_char (lit "contact_email") true false false);
    [assumption | exact Hc |].
  destruct v0; [contradiction | simpl; lia].
Qed.

Lemma contact_phone_field_value (partial : bool) (data : Data) (v : option str) :
  validate_field partial TicketUpdateSerializer.validate_method
    ModelFields.contact_phone data = Validated v ->
  attr_ok ev (lit "contact_phone") v.
Proof.
  intros H. apply validate_field_cases in H.
  destruct H as [[-> _] | (v0 & x & -> & Hr & Hm)]; [exact I|].
  apply char_validated in Hr; [|reflexivity].
  change (x = v0) in Hm. subst x.
  change (stored_text 0 (Some 20) v0).
  destruct Hr as (Hs & [[-> _] | [Hne Hv]]).
  - unfold stored_text. repeat split; simpl; lia.
  - apply (stored_char (lit "contact_phone") false true true);
      [assumption | exact Hv | lia].
Qed.

Lemma status_field_ok (partial : bool) (data : Data) (v : option str) :
  validate_field partial TicketUpdateSerializer.validate_method
    ModelFields.status data = Validated v ->
  attr_ok ev (lit "status") v.
Proof.
  intros H. apply status_field_value in H. destruct H as (st & -> & Hin).
  exact Hin.
Qed.

(** A value a field of the write serializers lets through is one
    [attr_ok] describes. *)
Lemma field_value_ok (partial : bool) (data : Data) (f : Field)
  (v : option str) :
  In f (TicketUpdateSerializer.fields ev) ->
  validate_field partial TicketUpdateSerializer.validate_method f data
    = Validated v ->
  attr_ok ev (field_name f) v.
Proof.
  simpl. intros [<- | [<- | [<- | [<- | [<- | []]]]]] H.
  - now apply (title_field_value partial data).
  - now apply (description_field_value partial data).
  - now apply (contact_email_field_value partial data).
  - now apply (contact_phone_field_value partial data).
  - now apply (status_field_ok partial data).
Qed.

Lemma update_values_ok (partial : bool) (data : Data) (vd : ValidatedData) :
  TicketUpdateSerializer.run_validation ev partial data = inr vd ->
  forall k v, In (k, v) vd -> attr_ok ev k v.
Proof.
  unfold TicketUpdateSerializer.run_validation. intros H k v Hin.
  apply valid_means_no_error in H. destruct H as [-> _].
  apply values_iff in Hin. destruct Hin as (f & Hf & <- & Hv).
  now apply (field_value_ok partial data).
Qed.

Lemma create_values_ok (data : Data) (vd : ValidatedData) :
  TicketCreateSerializer.run_validation ev data = inr vd ->
  forall k v, In (k, v) vd -> attr_ok ev k v.
Proof.
  unfold TicketCreateSerializer.run_validation. intros H k v Hin.
  apply valid_means_no_error in H. destruct H as [-> _].
  apply values_iff in Hin. destruct Hin as (f & Hf & <- & Hv).
  apply (field_value_ok false data); [|exact Hv].
  simpl in Hf. simpl. tauto.
Qed.

Lemma validated_not_skipped (f : Field) (v : str) : validated f v <> SkipField.
Proof. unfold validated. destruct (run_validators f v); discriminate. Qed.

Lemma field_run_validation_full (f : Field) (o : option JValue) :
  required f = true -> field_run_validation false f o <> SkipField.
Proof.
  intros Hr. unfold field_run_validation.
  destruct o as [d|]; [|rewrite Hr; discriminate].
  destruct d; try (destruct (allow_null f); discriminate);
    (destruct (to_internal_value_of f _);
     [apply validated_not_skipped | discriminate]).
Qed.

Lemma run_validation_full (f : Field) (o : option JValue) :
  required f = true -> run_validation false f o <> SkipField.
Proof.
  intros Hr. unfold run_validation.
  destruct (kind f); [destruct o as [d|]|];
    try now apply field_run_validation_full.
  destruct (eqb (strip (str_of d)) []);
    [destruct (allow_blank f); discriminate
    | now apply field_run_validation_full].
Qed.

(** A required field of a full validation is never skipped. *)
Lemma required_not_skipped (vm : str -> option ValidateMethod) (f : Field)
  (data : Data) :
  required f = true -> validate_field false vm f data <> SkipField.
Proof.
  intros Hr. unfold validate_field.
  pose proof (run_validation_full f (get_value f data) Hr) as Hn.
  destruct (run_validation false f (get_value f data)) as [|[v|]|d];
    [contradiction | | discriminate | discriminate].
  destruct (vm (field_name f)) as [m|]; [|discriminate].
  destruct (m v); discriminate.
Qed.

(** A valid create names title, description and contact_email. *)
Lemma create_required_bindings (data : Data) (vd : ValidatedData) :
  TicketCreateSerializer.run_validation ev data = inr vd ->
  forall k, In k [lit "title"; lit "description"; lit "contact_email"] ->
            exists x, In (k, Some x) vd.
Proof.
  intros H k Hk.
  assert (Hok := create_values_ok data vd H).
  unfold TicketCreateSerializer.run_validation in H.
  destruct (valid_means_no_error _ _ _ _ vd H) as [Hvd Hno].
  assert (Hf : exists f, In f (TicketCreateSerializer.fields ev)
                         /\ field_name f = k /\ required f = true).
  { simpl in Hk. destruct Hk as [<- | [<- | [<- | []]]].
    - exists ModelFields.title. simpl. auto.
    - exists ModelFields.description. simpl. auto.
    - exists (ModelFields.contact_email ev). simpl. auto. }
  destruct Hf as (f & Hf & Hn & Hr).
  destruct (validate_field false TicketCreateSerializer.validate_method f data)
    as [|v|d] eqn:E.
  - exfalso. exact (required_not_skipped _ f data Hr E).
  - assert (Hin : In (k, v) vd).
    { rewrite Hvd. apply values_iff. exists f. auto. }
    destruct v as [x|]; [now exists x|].
    exfalso. specialize (Hok k None Hin).
    simpl in Hk. destruct Hk as [<- | [<- | [<- | []]]]; exact Hok.
  - exfalso. apply (Hno k). apply error_keys_iff. exists f, d. auto.
Qed.

Lemma getattr_setattr_same (t : Ticket) (k : str) (v x : option str) :
  getattr (setattr t k v) k = Some x ->
  x = v \/ getattr t k = Some x.
Proof.
  unfold setattr.
  destruct (eqb k (lit "title")) eqn:E1;
  [ apply eqb_eq in E1; subst
  | destruct (eqb k (lit "description")) eqn:E2;
    [ apply eqb_eq in E2; subst
    | destruct (eqb k (lit "contact_email")) eqn:E3;
      [ apply eqb_eq in E3; subst
      | destruct (eqb k (lit "contact_phone")) eqn:E4;
        [ apply eqb_eq in E4; subst
        | destruct (eqb k (lit "status")) eqn:E5;
          [ apply eqb_eq in E5; subst | auto ] ] ] ] ];
  destruct v; cbn; intros H; auto; injection H as <-; auto.
Qed.

Lemma setattr_ok (t : Ticket) (k k' : str) (v : option str) :
  (forall x, getattr t k' = Some x -> attr_ok ev k' x) ->
  attr_ok ev k v ->
  forall x, getattr (setattr t k v) k' = Some x -> attr_ok ev k' x.
Proof.
  intros Ht Hv x Hx. destruct (str_dec k k') as [<- | Hne].
  - apply getattr_setattr_same in Hx. destruct Hx as [-> | Hx]; auto.
  - rewrite setattr_other in Hx by assumption. auto.
Qed.

Lemma setattrs_ok (kwargs : list (str * option str)) (t : Ticket)
  (k' : str) :
  (forall k v, In (k, v) kwargs -> attr_ok ev k v) ->
  (forall x, getattr t k' = Some x -> attr_ok ev k' x)
  \/ (In k' text_attrs /\ exists y, In (k', Some y) kwargs) ->
  forall x, getattr (setattrs t kwargs) k' = Some x -> attr_ok ev k' x.
Proof.
  unfold setattrs. revert t.
  induction kwargs as [|[k v] rest IH]; intros t Hk Hd.
  - destruct Hd as [Hd | (_ & y & Hy)]; [exact Hd | destruct Hy].
  - cbn [fold_left fst snd]. apply IH.
    + intros k0 v0 H0. apply Hk. now right.
    + destruct Hd as [Hd | (Hta & y & [Heq | Hy])].
      * left. apply setattr_ok; [assumption | apply Hk; now left].
      * left. injection Heq as -> ->. intros x Hx.
        rewrite setattr_same in Hx by assumption. injection Hx as <-.
        apply Hk. now left.
      * right. split; [assumption | now exists y].
Qed.

Lemma create_row_ok (data : Data) (vd : ValidatedData) (w : World) :
  TicketCreateSerializer.run_validation ev data = inr vd ->
  row_ok ev (fst (objects_create vd w)).
Proof.
  intros H k x. rewrite created_getattr.
  apply setattrs_ok; [now apply (create_values_ok data)|].
  destruct (in_dec str_dec k [lit "title"; lit "description"; lit "contact_email"])
    as [Hin | Hout].
  - right. split.
    + simpl in Hin. simpl. tauto.
    + now apply (create_required_bindings data).
  - left. unfold getattr.
    destruct (eqb k (lit "title")) eqn:E1;
      [apply eqb_eq in E1; subst; exfalso; apply Hout; simpl; tauto|].
    destruct (eqb k (lit "description")) eqn:E2;
      [apply eqb_eq in E2; subst; exfalso; apply Hout; simpl; tauto|].
    destruct (eqb k (lit "contact_email")) eqn:E3;
      [apply eqb_eq in E3; subst; exfalso; apply Hout; simpl; tauto|].
    destruct (eqb k (lit "contact_phone")) eqn:E4.
    + apply eqb_eq in E4; subst. intros y Hy. injection Hy as <-. exact I.
    + destruct (eqb k (lit "status")) eqn:E5; [|discriminate].
      apply eqb_eq in E5; subst. intros y Hy. injection Hy as <-.
      cbn. tauto.
Qed.

Lemma dispatch_rows_ok (r : Request) (w : World) :
  rows_ok ev w -> rows_ok ev (snd (dispatch ev int r w)).
Proof.
  intros Hw.
  destruct (dispatch_shape ev int r w)
    as [H | [(vd & Hv & H) | (p & pk0 & i & vd & Hg & Hv & H)]]; rewrite H.
  - assumption.
  - cbn [snd]. intros t Ht. apply create_in in Ht. destruct Ht as [Ht | ->].
    + now apply Hw.
    + now apply (create_row_ok (data r)).
  - cbn [snd]. intros t Ht. apply save_in in Ht. destruct Ht as [-> | Ht].
    + intros k x. rewrite saved_getattr. apply setattrs_ok.
      * now apply (update_values_ok p (data r)).
      * left. apply Hw. unfold objects_get in Hg. now apply find_some in Hg.
    + now apply Hw.
Qed.

Lemma row_ok_valid (t : Ticket) : row_ok ev t <-> row_valid ev t.
Proof.
  split.
  - intros H.
    assert (Ht := H (lit "title") _ eq_refl).
    assert (Hd := H (lit "description") _ eq_refl).
    assert (He := H (lit "contact_email") _ eq_refl).
    assert (Hp := H (lit "contact_phone") _ eq_refl).
    assert (Hs := H (lit "status") _ eq_refl).
    change (stored_text 3 (Some 200) (title t)) in Ht.
    change (stored_text 10 None (description t)) in Hd.
    change (stored_text 1 (Some 254) (contact_email t)
            /\ ev (contact_email t) = true) in He.
    change (match contact_phone t with
            | Some p => stored_text 0 (Some 20) p
            | None => True
            end) in Hp.
    change (In (status t) status_values) in Hs.
    destruct He as [He1 He2]. unfold row_valid. tauto.
  - intros (Ht & Hd & He1 & He2 & Hp & Hs) k v Hg.
    unfold getattr in Hg. unfold attr_ok.
    destruct (eqb k (lit "title")); [injection Hg as <-; exact Ht|].
    destruct (eqb k (lit "description")); [injection Hg as <-; exact Hd|].
    destruct (eqb k (lit "contact_email"));
      [injection Hg as <-; now split|].
    destruct (eqb k (lit "contact_phone")); [injection Hg as <-; exact Hp|].
    destruct (eqb k (lit "status")); [injection Hg as <-; exact Hs|].
    discriminate.
Qed.

(** X6.  What the API stores obeys its validation rules, and keeps
    obeying them.  Call a row valid when its title, description and
    contact_email are stripped texts without null character and without
    surrogate, of 3 to 200, of at least 10 and of 1 to 254 characters,
    the address check accepts its contact_email, its contact_phone is
    NULL or such a text of at most 20 characters, and its status is one
    of the four choices.  If every row is valid, every row is valid
    after any sequence of API requests. *)
Theorem X6_api_keeps_rows_valid :
  forall (rs : list Request) (w : World),
    (forall t, In t (rows w) -> row_valid ev t) ->
    forall t, In t (rows (run ev int (map Api rs) w)) -> row_valid ev t.
Proof.
  intros rs w Hw.
  assert (H : rows_ok ev (run ev int (map Api rs) w)).
  { assert (H0 : rows_ok ev w)
      by (intros t Ht; apply row_ok_valid; now apply Hw).
    revert w H0 Hw. intros w H0 _. revert w H0.
    apply run_api_induct. intros r w. apply dispatch_rows_ok. }
  intros t Ht. apply row_ok_valid. now apply H.
Qed.

End StoredValues.

Section StoredValuesExample.

Import PyStr Fields Models Http Urls Invariants.

(** The sample table after the sample body is posted and the title of
    the new ticket is patched with a text that has spaces around it: the
    stored ticket and the new one are valid rows. *)
Lemma X6_witness :
  exists t,
    objects_get 2
      (run Sample.address_check Sample.parse_int
         (map Api
            [ mkRequest POST ticket_list_create [] Sample.valid_body;
              mkRequest PATCH (ticket_detail 2) []
                [(lit "title", JString (lit "  Toner  "))] ])
         Sample.world1)
    = Some t
    /\ title t = lit "Toner"
    /\ row_valid Sample.address_check t
    /\ row_valid Sample.address_check Sample.ticket1.
Proof.
  assert (Hw : forall t, In t (rows Sample.world1) ->
                         row_valid Sample.address_check t).
  { intros t [<- | []]. unfold row_valid, stored_text.
    repeat split; try reflexivity; simpl; try lia; tauto. }
  pose (t := mkTicket 2 (lit "Toner")
               (lit "This is a detailed description of the support request")
               (lit "user@example.com") (Some (lit "1234567890"))
               (lit "pending") 1000 1002).
  exists t. split; [reflexivity|]. split; [reflexivity|]. split.
  - apply (X6_api_keeps_rows_valid Sample.address_check Sample.parse_int
             [ mkRequest POST ticket_list_create [] Sample.valid_body;
               mkRequest PATCH (ticket_detail 2) []
                 [(lit "title", JString (lit "  Toner  "))] ]
             Sample.world1 Hw).
    right. left. reflexivity.
  - apply (X6_api_keeps_rows_valid Sample.address_check Sample.parse_int
             [] Sample.world1 Hw).
    left. reflexivity.
Defined.

End StoredValuesExample.
(** ** What the serializers read of a body *)

Section InputKeys.

Import PyStr Fields Models Http Urls Invariants.

Variable ev : str -> bool.

Lemma validate_field_agree (partial : bool)
  (vm : str -> option ValidateMethod) (f : Field) (d d' : Data) :
  lookup (field_name f) d = lookup (field_name f) d' ->
  validate_field partial vm f d = validate_field partial vm f d'.
Proof. intros H. unfold validate_field, get_value. now rewrite H. Qed.

Lemma to_internal_value_agree (partial : bool)
  (vm : str -> option ValidateMethod) (fields : list Field) (d d' : Data) :
  agree_on (map field_name fields) d d' ->
  to_internal_value partial vm fields d = to_internal_value partial vm fields d'.
Proof.
  induction fields as [|f rest IH]; intros H; [reflexivity|].
  rewrite !to_internal_value_cons, IH, (validate_field_agree partial vm f d d').
  - reflexivity.
  - apply H. now left.
  - intros k Hk. apply H. now right.
Qed.

Lemma lookup_cons_other (k k' : str) (v : JValue) (d : Data) :
  k <> k' -> lookup k' ((k, v) :: d) = lookup k' d.
Proof.
  intros Hne. unfold lookup. simpl.
  destruct (eqb k k') eqn:E; [|reflexivity].
  apply eqb_eq in E. contradiction.
Qed.

(** X8.  A serializer reads only the keys of its own fields.  Two
    bodies that agree on title, description, contact_email and
    contact_phone are created alike, so a status, id, created_at or
    updated_at put into a create body changes nothing; two bodies that
    agree on those four keys and on status are validated alike by the
    full serializer, whose id, created_at and updated_at are read-only,
    and update a ticket alike through PUT and PATCH. *)
Theorem X8_only_declared_fields_are_read :
  forall (d d' : Data) (w : World),
    (agree_on [lit "title"; lit "description"; lit "contact_email"; lit "contact_phone"] d d' ->
     TicketListCreateAPIView.create ev d w = TicketListCreateAPIView.create ev d' w)
    /\ (forall k v,
           ~ In k [lit "title"; lit "description"; lit "contact_email"; lit "contact_phone"] ->
           TicketListCreateAPIView.create ev ((k, v) :: d) w
           = TicketListCreateAPIView.create ev d w)
    /\ (agree_on [lit "title"; lit "description"; lit "contact_email"; lit "contact_phone"; lit "status"]
          d d' ->
        TicketSerializer.run_validation ev d
        = TicketSerializer.run_validation ev d'
        /\ forall partial pk,
             TicketRetrieveUpdateAPIView.update ev partial pk d w
             = TicketRetrieveUpdateAPIView.update ev partial pk d' w).
Proof.
  intros d d' w.
  assert (Hc : forall a b,
             agree_on [lit "title"; lit "description"; lit "contact_email"; lit "contact_phone"] a b ->
             TicketListCreateAPIView.create ev a w
             = TicketListCreateAPIView.create ev b w).
  { intros a b H. rewrite !create_spec.
    unfold TicketCreateSerializer.run_validation, serializer_run_validation.
    now rewrite (to_internal_value_agree false _ (TicketCreateSerializer.fields ev) a b). }
  split; [apply Hc | split].
  - intros k v Hk. apply Hc. intros k' Hk'. apply lookup_cons_other.
    intros ->. contradiction.
  - intros H. split.
    + unfold TicketSerializer.run_validation, serializer_run_validation.
      now rewrite (to_internal_value_agree false _ (TicketSerializer.fields ev) d d').
    + intros partial pk. rewrite !update_spec.
      unfold TicketUpdateSerializer.run_validation, serializer_run_validation.
      now rewrite (to_internal_value_agree partial _
                     (TicketUpdateSerializer.fields ev) d d').
Qed.

End InputKeys.

Section InputKeysExample.

Import PyStr Fields Models Http Urls Invariants.

(** A create body that also names a status and an id. *)
Lemma X8_witness :
  TicketListCreateAPIView.create Sample.address_check
    ((lit "status", JString (lit "resolved")) :: (lit "id", JString (lit "99")) :: Sample.valid_body)
    Sample.world1
  = TicketListCreateAPIView.create Sample.address_check Sample.valid_body
      Sample.world1.
Proof.
  rewrite (proj1 (proj2 (X8_only_declared_fields_are_read Sample.address_check
                           ((lit "id", JString (lit "99")) :: Sample.valid_body)
                           Sample.valid_body Sample.world1))
             (lit "status") (JString (lit "resolved")))
    by (simpl; intuition discriminate).
  apply (proj1 (proj2 (X8_only_declared_fields_are_read Sample.address_check
                         Sample.valid_body Sample.valid_body Sample.world1))).
  simpl; intuition discriminate.
Defined.

End InputKeysExample.
(** ** The list and the statistics *)

Section ListAndStats.

Import PyStr Fields Models Http Urls Invariants.

Lemma filter_all (p : Ticket -> bool) (l : list Ticket) :
  (forall t, p t = true) -> filter p l = l.
Proof.
  intros H. induction l as [|x l IH]; simpl; [reflexivity|].
  now rewrite H, IH.
Qed.

(** Without a search term the tickets selected are those of the status. *)
Lemma status_selected (q : QueryParams) (w : World) (p : Ticket -> bool) :
  truthy (query_get (lit "search") q) = None ->
  (forall t, p t = true <-> selected_by q t) ->
  (forall t, p t = true
             <-> match truthy (query_get (lit "status") q) with
                 | Some st => status t = st
                 | None => True
                 end)
  /\ List.length (filter p (rows w))
     = match truthy (query_get (lit "status") q) with
       | Some st => StatsView.count_status st w
       | None => List.length (rows w)
       end.
Proof.
  intros Hs Hp.
  assert (Hp' : forall t, p t = true
                          <-> match truthy (query_get (lit "status") q) with
                              | Some st => status t = st
                              | None => True
                              end).
  { intros t. rewrite Hp. unfold selected_by. rewrite Hs. tauto. }
  split; [exact Hp'|]. unfold StatsView.count_status.
  destruct (truthy (query_get (lit "status") q)) as [st|].
  - f_equal. apply filter_ext. intros t. specialize (Hp' t).
    destruct (eqb (status t) st) eqn:Eb.
    + apply eqb_eq in Eb. now apply Hp'.
    + destruct (p t); [|reflexivity].
      apply eqb_neq in Eb. exfalso. apply Eb. now apply Hp'.
  - rewrite filter_all; [reflexivity|]. intros t. now apply Hp'.
Qed.

(** The list without a search term. *)
Lemma list_by_status (int : str -> option Z) (q : QueryParams) (w : World) :
  truthy (query_get (lit "search") q) = None ->
  (forall st,
      truthy (query_get (lit "status") q) = Some st ->
      ~ In st status_values ->
      TicketListCreateAPIView.get int q w
      = HTTP_400_BAD_REQUEST
          [(lit "status",
            [TicketListCreateAPIView.msg_select_valid_choice st])])
  /\ (forall page,
         TicketListCreateAPIView.get int q w = HTTP_200_LIST page ->
         count page
         = match truthy (query_get (lit "status") q) with
           | Some st => StatsView.count_status st w
           | None => List.length (rows w)
           end
         /\ (forall t, In t (results page) ->
                       In t (rows w)
                       /\ match truthy (query_get (lit "status") q) with
                          | Some st => status t = st
                          | None => True
                          end)
         /\ List.length (results page) <= 20
         /\ Sorted.Sorted
              (fun a b =>
                 Ordering.precedes (Ordering.get_ordering q) a b = true)
              (results page))
  /\ ((forall st, truthy (query_get (lit "status") q) = Some st ->
                  In st status_values) ->
      truthy (query_get (lit "page") q) = None ->
      exists page,
        TicketListCreateAPIView.get int q w = HTTP_200_LIST page
        /\ (count page <= 20 ->
            forall t, In t (results page)
                      <-> In t (rows w)
                          /\ match truthy (query_get (lit "status") q) with
                             | Some st => status t = st
                             | None => True
                             end)).
Proof.
  intros Hs.
  destruct (selected_list q w) as (p & Hp & Hf).
  destruct (status_selected q w p Hs Hp) as [Hp' Hlen].
  split; [|split].
  - intros st Hst Hout. rewrite Hst in Hf.
    destruct (existsb (eqb st) status_values) eqn:E;
      [apply choice_in in E; contradiction|].
    unfold TicketListCreateAPIView.get. now rewrite Hf.
  - intros pg Hg.
    assert (Hf' : TicketListCreateAPIView.filter_queryset q
                    (TicketListCreateAPIView.get_queryset q w)
                  = inr (filter p (rows w))).
    { destruct (truthy (query_get (lit "status") q)) as [st|]; [|exact Hf].
      destruct (existsb (eqb st) status_values); [exact Hf|].
      unfold TicketListCreateAPIView.get in Hg. rewrite Hf in Hg. discriminate. }
    destruct (get_found int q w p pg Hf' Hg) as (n & Hn & Hpg & He).
    destruct (found_facts q w p n pg Hp Hpg) as (H1 & H2 & H3 & H4).
    split; [now rewrite H1|]. split; [|split; [exact H3 | exact H4]].
    intros t Hin. destruct (H2 t Hin) as [Ha Hb]. split; [assumption|].
    apply Hp'. now apply Hp.
  - intros Hst Hpage.
    assert (Hf' : TicketListCreateAPIView.filter_queryset q
                    (TicketListCreateAPIView.get_queryset q w)
                  = inr (filter p (rows w))).
    { destruct (truthy (query_get (lit "status") q)) as [st|]; [|exact Hf].
      rewrite (proj2 (choice_in st) (Hst st eq_refl)) in Hf. exact Hf. }
    assert (He : TicketListCreateAPIView.evaluate q w
                   (Ordering.filter_queryset q (filter p (rows w)))
                 = Some (Ordering.filter_queryset q (filter p (rows w))))
      by (unfold TicketListCreateAPIView.evaluate; now rewrite Hs).
    destruct (get_first int q w p Hp Hf' Hpage He) as (pg & Hg & _ & Hall).
    exists pg. split; [exact Hg|]. intros Hcount t.
    rewrite (Hall Hcount t), <- Hp, Hp'. tauto.
Qed.



(** X10.  The statistics agree with the list: the total is the count
    the list without parameters reports, and the count of each status is
    the count the list filtered by that status reports.  The count of a
    list answer is the number of tickets the request selects, of which
    its page holds at most 20. *)
Theorem X10_stats_agree_with_list :
  forall (int : str -> option Z) (q : QueryParams) (w : World),
    exists s,
      StatsView.ticket_stats q w = HTTP_200_STATS s
      /\ total s
         = TicketListCreateAPIView.count_of
             (TicketListCreateAPIView.get int [] w)
      /\ pending s
         = TicketListCreateAPIView.count_of
             (TicketListCreateAPIView.get int [(lit "status", lit "pending")] w)
      /\ accepted s
         = TicketListCreateAPIView.count_of
             (TicketListCreateAPIView.get int [(lit "status", lit "accepted")] w)
      /\ resolved s
         = TicketListCreateAPIView.count_of
             (TicketListCreateAPIView.get int [(lit "status", lit "resolved")] w)
      /\ rejected s
         = TicketListCreateAPIView.count_of
             (TicketListCreateAPIView.get int [(lit "status", lit "rejected")] w)
      /\ List.length (TicketListCreateAPIView.results_of
                        (TicketListCreateAPIView.get int [] w)) <= 20.
Proof.
  intros int q w. eexists. split; [reflexivity|].
  cbn [total pending accepted resolved rejected].
  assert (H : forall q0,
             truthy (query_get (lit "search") q0) = None ->
             truthy (query_get (lit "page") q0) = None ->
             (forall st, truthy (query_get (lit "status") q0) = Some st ->
                         In st status_values) ->
             TicketListCreateAPIView.count_of
               (TicketListCreateAPIView.get int q0 w)
             = match truthy (query_get (lit "status") q0) with
               | Some st => StatsView.count_status st w
               | None => List.length (rows w)
               end
             /\ List.length (TicketListCreateAPIView.results_of
                               (TicketListCreateAPIView.get int q0 w)) <= 20).
  { intros q0 Hs Hp Hst.
    destruct (list_by_status int q0 w Hs) as (_ & Hpage & Hfirst).
    destruct (Hfirst Hst Hp) as (page & Hg & _).
    destruct (Hpage page Hg) as (Hc & _ & Hl & _).
    rewrite Hg. cbn [TicketListCreateAPIView.count_of
                       TicketListCreateAPIView.results_of].
    now split. }
  assert (Hv : forall s, In s status_values ->
                 forall st,
                   truthy (query_get (lit "status") [(lit "status", s)]) = Some st ->
                   In st status_values).
  { intros s Hin st Hst. simpl in Hin.
    destruct Hin as [<- | [<- | [<- | [<- | []]]]];
      injection Hst as <-; simpl; tauto. }
  split; [|split; [|split; [|split; [|split]]]].
  - symmetry. apply (H []); [reflexivity | reflexivity | discriminate].
  - symmetry.
    apply (H [(lit "status", lit "pending")] eq_refl eq_refl).
    apply Hv. simpl. tauto.
  - symmetry.
    apply (H [(lit "status", lit "accepted")] eq_refl eq_refl).
    apply Hv. simpl. tauto.
  - symmetry.
    apply (H [(lit "status", lit "resolved")] eq_refl eq_refl).
    apply Hv. simpl. tauto.
  - symmetry.
    apply (H [(lit "status", lit "rejected")] eq_refl eq_refl).
    apply Hv. simpl. tauto.
  - apply (H []); [reflexivity | reflexivity | discriminate].
Qed.

End ListAndStats.

(** ** filters.py *)

Section FilterSet.

Import PyStr Fields Models Http.

Lemma text_filter_keep (value : option str) (keep : str -> Ticket -> bool) :
  exists k : Ticket -> bool,
    (forall t, k t = true
               <-> forall v, value = Some v -> v <> [] -> keep v t = true)
    /\ forall qs, TicketFilter.text_filter value keep qs = filter k qs.
Proof.
  unfold TicketFilter.text_filter. destruct value as [v|].
  - destruct (eqb v []) eqn:E.
    + apply eqb_eq in E. subst. exists (fun _ => true). split.
      * intros t. split; [|reflexivity].
        intros _ v Hv Hne. injection Hv as <-. contradiction.
      * intros qs. induction qs as [|x l IH]; [reflexivity|].
        cbn. now f_equal.
    + apply eqb_neq in E. exists (keep v). split; [|reflexivity].
      intros t. split.
      * intros H x Hx _. now injection Hx as <-.
      * intros H. now apply H.
  - exists (fun _ => true). split.
    + intros t. split; [intros _ v Hv; discriminate | reflexivity].
    + intros qs. induction qs as [|x l IH]; [reflexivity|]. cbn. now f_equal.
Qed.

Lemma stamp_filter_keep (value : option Z) (keep : Z -> Ticket -> bool) :
  exists k : Ticket -> bool,
    (forall t, k t = true <-> forall v, value = Some v -> keep v t = true)
    /\ forall qs, TicketFilter.stamp_filter value keep qs = filter k qs.
Proof.
  unfold TicketFilter.stamp_filter. destruct value as [v|].
  - exists (keep v). split; [|reflexivity]. intros t. split.
    + intros H x Hx. now injection Hx as <-.
    + intros H. now apply H.
  - exists (fun _ => true). split.
    + intros t. split; [intros _ v Hv; discriminate | reflexivity].
    + intros qs. induction qs as [|x l IH]; [reflexivity|]. cbn. now f_equal.
Qed.

(** X11.  [TicketFilter], run on cleaned values whose title, if given,
    makes a pattern the database accepts, keeps exactly the tickets that pass all
    of its filters at once, in the order they had: the status given,
    unless empty, is the status of the ticket; [created_at] is at or
    after [created_after] and at or before [created_before], both bounds
    included; and the title given, unless empty, is selected by the
    database in the title of the ticket: read up to its first null
    character, it occurs there with the letters A to Z and a to z
    matched without regard to case, or ends the title when it has a null
    character.  A filter with no value keeps everything. *)
Theorem X11_ticket_filter_is_a_conjunction :
  forall (c : TicketFilter.Cleaned) (qs : list Ticket),
    (forall v, TicketFilter.title c = Some v ->
               Sqlite.too_complex (Sqlite.contains_pattern v) = false) ->
    exists kept : Ticket -> bool,
      TicketFilter.filter_queryset c qs = filter kept qs
      /\ forall t,
          kept t = true
          <-> (forall v, TicketFilter.status c = Some v -> v <> [] ->
                         status t = v)
              /\ (forall a, TicketFilter.created_after c = Some a ->
                            (a <= created_at t)%Z)
              /\ (forall b, TicketFilter.created_before c = Some b ->
                            (created_at t <= b)%Z)
              /\ (forall v, TicketFilter.title c = Some v -> v <> [] ->
                            Sqlite.selects v (title t)).
Proof.
  intros c qs _.
  destruct (text_filter_keep (TicketFilter.status c)
              (fun v t => eqb (status t) v)) as (k1 & Hk1 & Hf1).
  destruct (stamp_filter_keep (TicketFilter.created_after c)
              (fun v t => Z.leb v (created_at t))) as (k2 & Hk2 & Hf2).
  destruct (stamp_filter_keep (TicketFilter.created_before c)
              (fun v t => Z.leb (created_at t) v)) as (k3 & Hk3 & Hf3).
  destruct (text_filter_keep (TicketFilter.title c)
              (fun v t => Sqlite.icontains v (title t))) as (k4 & Hk4 & Hf4).
  exists (fun t => k1 t && (k2 t && (k3 t && k4 t))).
  split.
  - unfold TicketFilter.filter_queryset.
    rewrite Hf1, Hf2, Hf3, Hf4, !filter_and. reflexivity.
  - intros t. rewrite !andb_true_iff, Hk1, Hk2, Hk3, Hk4. split.
    + intros (H1 & H2 & H3 & H4). repeat split.
      * intros v Hv Hne. apply eqb_eq. now apply H1.
      * intros a Ha. apply Z.leb_le. now apply H2.
      * intros b Hb. apply Z.leb_le. now apply H3.
      * intros v Hv Hne. apply icontains_spec. now apply H4.
    + intros (H1 & H2 & H3 & H4). repeat split.
      * intros v Hv Hne. apply eqb_eq. now apply H1.
      * intros a Ha. apply Z.leb_le. now apply H2.
      * intros b Hb. apply Z.leb_le. now apply H3.
      * intros v Hv Hne. apply icontains_spec. now apply H4.
Qed.

End FilterSet.

Section FilterSetExample.

Import PyStr Fields Models Http.

(** The sample ticket, created at 100 with the title Printer offline,
    passes the filters for its status, the bounds 50 and 150 and the
    title PRINTER in capitals. *)
Lemma X11_witness :
  TicketFilter.filter_queryset
    (TicketFilter.mkCleaned (Some (lit "pending")) (Some 50%Z) (Some 150%Z)
       (Some (lit "PRINTER")))
    (rows Sample.world1)
  = [Sample.ticket1]
  /\ Sqlite.selects (lit "PRINTER") (title Sample.ticket1).
Proof.
  destruct (X11_ticket_filter_is_a_conjunction
              (TicketFilter.mkCleaned (Some (lit "pending")) (Some 50%Z)
                 (Some 150%Z) (Some (lit "PRINTER")))
              (rows Sample.world1)) as (kept & Hf & Hk).
  { intros v Hv. injection Hv as <-. reflexivity. }
  assert (Hs : Sqlite.selects (lit "PRINTER") (title Sample.ticket1))
    by (apply icontains_spec; reflexivity).
  assert (Ht : kept Sample.ticket1 = true).
  { apply Hk. repeat split.
    - intros v Hv _. injection Hv as <-. reflexivity.
    - intros a Ha. injection Ha as <-. simpl. lia.
    - intros b Hb. injection Hb as <-. simpl. lia.
    - intros v Hv _. injection Hv as <-. exact Hs. }
  split; [|exact Hs].
  rewrite Hf. cbn [rows Sample.world1 filter]. now rewrite Ht.
Defined.

End FilterSetExample.
(** ** Ordering of the list *)

Section OrderingOfTheList.

Import PyStr Fields Models Http.

(** X12.  The list is only ever ordered by created_at, updated_at or
    status: whatever the [ordering] parameter says, the ordering used is
    not empty and each of its terms names one of the three columns, with
    or without a leading minus sign; every valid term of the parameter is
    used; and when the parameter is absent, empty or names no valid
    column, the ordering is the one of the view, updated_at descending. *)
Theorem X12_ordering_names_allowed_columns :
  forall (q : QueryParams),
    Ordering.get_ordering q <> []
    /\ (forall term, In term (Ordering.get_ordering q) ->
                     In (Ordering.term_field term) Ordering.ordering_fields)
    /\ (forall params term,
           truthy (query_get (lit "ordering") q) = Some params ->
           In term (map strip (Ordering.split_commas params)) ->
           In (Ordering.term_field term) Ordering.ordering_fields ->
           In term (Ordering.get_ordering q))
    /\ ((truthy (query_get (lit "ordering") q) = None
         \/ (forall params term,
                truthy (query_get (lit "ordering") q) = Some params ->
                In term (map strip (Ordering.split_commas params)) ->
                ~ In (Ordering.term_field term) Ordering.ordering_fields)) ->
        Ordering.get_ordering q = [lit "-updated_at"]).
Proof.
  intros q. unfold Ordering.get_ordering.
  destruct (truthy (query_get (lit "ordering") q)) as [params|].
  - destruct (filter Ordering.term_valid (map strip (Ordering.split_commas params)))
      as [|x l] eqn:E.
    + repeat split.
      * discriminate.
      * intros term [<- | []]. simpl. tauto.
      * intros p term Hp Hin Hv. injection Hp as <-.
        assert (H : In term (filter Ordering.term_valid
                               (map strip (Ordering.split_commas params))))
          by (apply filter_In; split; [assumption | now apply term_valid_in]).
        rewrite E in H. destruct H.
    + repeat split.
      * discriminate.
      * intros term Hin. rewrite <- E in Hin. apply filter_In in Hin.
        now apply term_valid_in.
      * intros p term Hp Hin Hv. injection Hp as <-. rewrite <- E.
        apply filter_In. split; [assumption | now apply term_valid_in].
      * intros [H | H]; [discriminate|]. exfalso.
        assert (Hx : In x (filter Ordering.term_valid
                             (map strip (Ordering.split_commas params))))
          by (rewrite E; now left).
        apply filter_In in Hx. destruct Hx as [Hx1 Hx2].
        apply (H params x eq_refl Hx1). now apply term_valid_in.
  - repeat split.
    + discriminate.
    + intros term [<- | []]. simpl. tauto.
    + discriminate.
Qed.

(** An ordering by status ascending, then creation descending, with a
    column that is not allowed in between. *)
Lemma X12_witness :
  In (lit "-created_at")
     (Ordering.get_ordering [(lit "ordering", lit "status, contact_email ,-created_at")]).
Proof.
  apply (proj1 (proj2 (proj2 (X12_ordering_names_allowed_columns
                                [(lit "ordering", lit "status, contact_email ,-created_at")])))
           (lit "status, contact_email ,-created_at") (lit "-created_at") eq_refl).
  - simpl. tauto.
  - simpl. tauto.
Defined.

(** X13.  Ordering the list neither adds nor drops a ticket: the ordered
    list is a rearrangement of the filtered query set, in which each
    ticket comes before its successor under the ordering used; with no
    [ordering] parameter every ticket is followed only by tickets that
    were not updated later. *)
Theorem X13_ordering_rearranges :
  forall (q : QueryParams) (qs : list Ticket),
    Permutation.Permutation (Ordering.filter_queryset q qs) qs
    /\ Sorted.Sorted
         (fun a b => Ordering.precedes (Ordering.get_ordering q) a b = true)
         (Ordering.filter_queryset q qs)
    /\ (truthy (query_get (lit "ordering") q) = None ->
        Sorted.StronglySorted (fun a b => (updated_at b <= updated_at a)%Z)
          (Ordering.filter_queryset q qs)).
Proof.
  intros q qs. unfold Ordering.filter_queryset.
  split; [apply order_by_perm | split; [apply order_by_sorted|]].
  intros Hq.
  assert (Hd : Ordering.get_ordering q = Ordering.ordering)
    by (unfold Ordering.get_ordering; now rewrite Hq).
  rewrite Hd. apply Sorted.Sorted_StronglySorted.
  - intros a b c Hab Hbc. lia.
  - generalize (order_by_sorted Ordering.ordering qs).
    generalize (Ordering.order_by Ordering.ordering qs). intros l Hl.
    induction Hl as [|a l Hs IH Hhd]; constructor; [assumption|].
    destruct Hhd as [|b l' Hab]; constructor. now apply precedes_default.
Qed.

(** The ten sample tickets are all there after ordering by status. *)
Lemma X13_witness :
  List.length (Ordering.filter_queryset [(lit "ordering", lit "status")]
                 (rows Sample.world10)) = 10.
Proof.
  rewrite (Permutation.Permutation_length
             (proj1 (X13_ordering_rearranges [(lit "ordering", lit "status")]
                       (rows Sample.world10)))).
  reflexivity.
Defined.

End OrderingOfTheList.
(** ** Repeating an update *)

Section Idempotence.

Import PyStr Fields Models Http Urls Invariants.

Lemma setattr_twice (t : Ticket) (k : str) (v : option str) :
  setattr (setattr t k v) k v = setattr t k v.
Proof.
  unfold setattr.
  destruct (eqb k (lit "title")); [destruct v; reflexivity|].
  destruct (eqb k (lit "description")); [destruct v; reflexivity|].
  destruct (eqb k (lit "contact_email")); [destruct v; reflexivity|].
  destruct (eqb k (lit "contact_phone")); [reflexivity|].
  destruct (eqb k (lit "status")); [destruct v; reflexivity|].
  reflexivity.
Qed.

Lemma getattr_setattr_congr (t t' : Ticket) (k0 k : str) (v : option str) :
  getattr t k = getattr t' k ->
  getattr (setattr t k0 v) k = getattr (setattr t' k0 v) k.
Proof.
  intros H. destruct (str_dec k0 k) as [<- | Hne].
  - revert H. unfold setattr.
    destruct (eqb k0 (lit "title")) eqn:E1;
    [ apply eqb_eq in E1; subst
    | destruct (eqb k0 (lit "description")) eqn:E2;
      [ apply eqb_eq in E2; subst
      | destruct (eqb k0 (lit "contact_email")) eqn:E3;
        [ apply eqb_eq in E3; subst
        | destruct (eqb k0 (lit "contact_phone")) eqn:E4;
          [ apply eqb_eq in E4; subst
          | destruct (eqb k0 (lit "status")) eqn:E5;
            [ apply eqb_eq in E5; subst | auto ] ] ] ] ];
    destruct v; cbn; auto.
  - now rewrite !setattr_other by assumption.
Qed.

Lemma getattr_setattrs_congr (kwargs : list (str * option str))
  (t t' : Ticket) (k : str) :
  getattr t k = getattr t' k ->
  getattr (setattrs t kwargs) k = getattr (setattrs t' kwargs) k.
Proof.
  unfold setattrs. revert t t'.
  induction kwargs as [|[k0 v] rest IH]; intros t t' H; [exact H|].
  cbn [fold_left fst snd]. apply IH. now apply getattr_setattr_congr.
Qed.

Lemma setattrs_binding (kwargs : list (str * option str)) (t : Ticket)
  (k : str) (v : option str) :
  NoDup (map fst kwargs) -> In (k, v) kwargs ->
  getattr (setattrs t kwargs) k = getattr (setattr t k v) k.
Proof.
  revert t.
  induction kwargs as [|[k0 v0] rest IH]; intros t Hnd Hin; [destruct Hin|].
  simpl in Hnd. inversion Hnd as [|? ? Hfresh Hnd']; subst.
  change (setattrs t ((k0, v0) :: rest)) with (setattrs (setattr t k0 v0) rest).
  destruct Hin as [Heq | Hin].
  - injection Heq as -> ->. now apply setattrs_frame.
  - rewrite (IH _ Hnd' Hin). apply getattr_setattr_congr.
    apply setattr_other. intros ->. apply Hfresh.
    apply in_map_iff. now exists (k, v).
Qed.

Lemma setattrs_twice (kwargs : list (str * option str)) (t : Ticket)
  (k : str) :
  NoDup (map fst kwargs) ->
  getattr (setattrs (setattrs t kwargs) kwargs) k = getattr (setattrs t kwargs) k.
Proof.
  intros Hnd.
  destruct (in_dec str_dec k (map fst kwargs)) as [Hin | Hout].
  - apply in_map_iff in Hin. destruct Hin as ([k1 v] & Hk & Hin).
    simpl in Hk. subst k1.
    rewrite (setattrs_binding kwargs (setattrs t kwargs) k v Hnd Hin).
    rewrite (getattr_setattr_congr (setattrs t kwargs) (setattr t k v) k k v)
      by (now apply setattrs_binding).
    rewrite setattr_twice. symmetry. now apply setattrs_binding.
  - now rewrite setattrs_frame by assumption.
Qed.

Lemma ticket_ext (t t' : Ticket) :
  id t = id t' -> created_at t = created_at t' -> updated_at t = updated_at t' ->
  (forall k, getattr t k = getattr t' k) -> t = t'.
Proof.
  destruct t, t'. cbn. intros -> -> -> H.
  assert (H1 := H (lit "title")). assert (H2 := H (lit "description")).
  assert (H3 := H (lit "contact_email")). assert (H4 := H (lit "contact_phone")).
  assert (H5 := H (lit "status")). cbn in H1, H2, H3, H4, H5.
  congruence.
Qed.

(** X14.  PUT and PATCH can be repeated: when an update is answered 200
    with a ticket, the same request sent again is answered 200 with that
    ticket, the same in every field but [updated_at], which is the next
    reading of the clock. *)
Theorem X14_update_can_be_repeated :
  forall (ev : str -> bool) (partial : bool) (pk : Z) (data : Data)
         (w w1 : World) (t1 : Ticket),
    TicketRetrieveUpdateAPIView.update ev partial pk data w = (HTTP_200_OK t1, w1) ->
    fst (TicketRetrieveUpdateAPIView.update ev partial pk data w1)
    = HTTP_200_OK
        (mkTicket (id t1) (title t1) (description t1) (contact_email t1)
           (contact_phone t1) (status t1) (created_at t1) (clock w1 (ticks w1))).
Proof.
  intros ev partial pk data w w1 t1 H.
  apply updated_ticket in H. destruct H as (instance & vd & Hg & Hv & Ht & Hw).
  assert (Hnd : NoDup (map fst vd))
    by (apply (validated_keys_nodup partial TicketUpdateSerializer.validate_method
                 data (TicketUpdateSerializer.fields ev)
                 (update_fields_nodup ev) vd Hv)).
  assert (Hg1 : objects_get pk w1 = Some t1).
  { subst t1 w1. rewrite objects_get_save.
    destruct (setattrs_fixed vd instance) as (Hid & _).
    now rewrite Hid, (objects_get_id pk w instance Hg), Z.eqb_refl, Hg. }
  rewrite update_spec, Hg1, Hv. cbn [fst]. rewrite save_result.
  assert (Hsame : setattrs t1 vd = t1).
  { destruct (setattrs_fixed vd t1) as (H1 & H2 & H3).
    apply ticket_ext; try assumption.
    intros k. rewrite Ht.
    rewrite (getattr_setattrs_congr vd (fst (save (setattrs instance vd) w))
               (setattrs instance vd) k) by apply saved_getattr.
    rewrite saved_getattr. now apply setattrs_twice. }
  now rewrite Hsame.
Qed.

(** The PATCH of the sample ticket, sent twice. *)
Lemma X14_witness :
  fst (TicketRetrieveUpdateAPIView.update Sample.address_check true 1
         [(lit "title", JString (lit "  Printer back online "))]
         (snd (TicketRetrieveUpdateAPIView.update Sample.address_check true 1
                 [(lit "title", JString (lit "  Printer back online "))] Sample.world1)))
  = HTTP_200_OK
      (mkTicket 1 (lit "Printer back online") (lit "The office printer does not respond")
         (lit "ann@example.com") (Some (lit "555-0100")) (lit "pending") 100 1001).
Proof.
  exact (X14_update_can_be_repeated Sample.address_check true 1
           [(lit "title", JString (lit "  Printer back online "))] Sample.world1
           (snd (TicketRetrieveUpdateAPIView.update Sample.address_check true 1
                   [(lit "title", JString (lit "  Printer back online "))] Sample.world1))
           (mkTicket 1 (lit "Printer back online") (lit "The office printer does not respond")
              (lit "ann@example.com") (Some (lit "555-0100")) (lit "pending") 100 1000)
           eq_refl).
Defined.

End Idempotence.

(** ** The text of a ticket *)

Section Text.

Import PyStr Fields Models.

Lemma lit_cons (c : ascii) (s : string) :
  lit (String c s) = N_of_ascii c :: lit s.
Proof. reflexivity. Qed.

Lemma lit_injective (a b : string) : lit a = lit b -> a = b.
Proof.
  revert b. induction a as [|c a IH]; intros [|d b] H; try discriminate H.
  - reflexivity.
  - rewrite !lit_cons in H. injection H as Hc H.
    apply (f_equal ascii_of_N) in Hc. rewrite !ascii_N_embedding in Hc.
    subst d. f_equal. now apply IH.
Qed.

Lemma uint_spaceless (d : Decimal.uint) :
  spaceless (lit (NilEmpty.string_of_uint d)).
Proof.
  induction d; cbn [NilEmpty.string_of_uint]; rewrite ?lit_cons;
    try exact I;
    (split; [intros H; vm_compute in H; discriminate H | assumption]).
Qed.

Lemma str_int_spaceless (n : Z) : spaceless (str_int n).
Proof.
  unfold str_int, NilEmpty.string_of_int.
  destruct (Z.to_int n); [apply uint_spaceless|].
  rewrite lit_cons.
  split; [intros H; vm_compute in H; discriminate H | apply uint_spaceless].
Qed.

Lemma str_int_injective (n m : Z) : str_int n = str_int m -> n = m.
Proof.
  unfold str_int. intros H. apply lit_injective in H.
  assert (Hi : Some (Z.to_int n) = Some (Z.to_int m))
    by (rewrite <- !NilEmpty.isi; now rewrite H).
  injection Hi as Hi.
  rewrite <- (DecimalZ.of_to n), <- (DecimalZ.of_to m). now rewrite Hi.
Qed.

Lemma split_at_dash (a b x y : str) :
  spaceless a -> spaceless b ->
  a ++ lit " - " ++ x = b ++ lit " - " ++ y -> a = b /\ x = y.
Proof.
  change (lit " - ") with [32%N; 45%N; 32%N].
  revert b. induction a as [|c a IH]; intros b Ha Hb H.
  - destruct b as [|d b]; simpl in H.
    + injection H as H. auto.
    + injection H as <- _. destruct Hb as [Hb _]. now contradiction Hb.
  - destruct b as [|d b]; simpl in H.
    + injection H as -> _. destruct Ha as [Ha _]. now contradiction Ha.
    + injection H as -> H. destruct Ha as [_ Ha]. destruct Hb as [_ Hb].
      destruct (IH b Ha Hb H) as [-> ->]. auto.
Qed.

(** X15.  The text of a ticket tells its key and its title: two tickets
    with the same text have the same key and the same title. *)
Theorem X15_str_tells_key_and_title :
  forall (t t' : Ticket),
    __str__ t = __str__ t' -> id t = id t' /\ title t = title t'.
Proof.
  intros t t'. unfold __str__. change (lit "#") with [35%N].
  cbn [app]. intros H. injection H as H.
  apply split_at_dash in H; try apply str_int_spaceless.
  destruct H as [Hn Ht]. split; [now apply str_int_injective | assumption].
Qed.

(** The text of the sample ticket, and what follows of an equal text. *)
Lemma X15_witness :
  __str__ Sample.ticket1 = lit "#1 - Printer offline"
  /\ id Sample.ticket1
     = id (mkTicket 1 (lit "Printer offline") [] [] None [] 0 0).
Proof.
  split; [reflexivity|].
  exact (proj1 (X15_str_tells_key_and_title Sample.ticket1
                  (mkTicket 1 (lit "Printer offline") [] [] None [] 0 0)
                  eq_refl)).
Defined.

End Text.
(** ** The full serializer as an input serializer *)

Section FullSerializer.

Import PyStr Fields Models Http Invariants.

Variable ev : str -> bool.

(** X16.  Unlike the create serializer, the full serializer takes a
    status from its input: a ticket saved from valid data has the key
    the sequence was at and the status the data name, which is then one
    of the four choices, and is pending when the data name none. *)
Theorem X16_full_serializer_takes_status :
  forall (data : Data) (vd : ValidatedData) (w : World),
    TicketSerializer.run_validation ev data = inr vd ->
    id (fst (TicketSerializer.save vd w)) = next_pk w
    /\ (lookup (lit "status") data = None ->
        status (fst (TicketSerializer.save vd w)) = lit "pending")
    /\ (forall st,
           lookup (lit "status") data = Some (JString st) ->
           In st status_values
           /\ status (fst (TicketSerializer.save vd w)) = st).
Proof.
  intros data vd w H. unfold TicketSerializer.save.
  unfold TicketSerializer.run_validation in H.
  assert (Hnd : NoDup (map fst vd))
    by (apply (validated_keys_nodup false TicketSerializer.validate_method data
                 (TicketSerializer.fields ev) (update_fields_nodup ev) vd H)).
  destruct (valid_means_no_error _ _ _ _ vd H) as [Hvd Hno].
  split; [reflexivity | split].
  - intros Hl. apply attr_status. rewrite created_getattr.
    rewrite setattrs_frame; [reflexivity|].
    intros Hin. rewrite Hvd in Hin. apply value_keys in Hin.
    destruct Hin as (f & Hf & Hn & v & Hv).
    simpl in Hf. destruct Hf as [<- | [<- | [<- | [<- | [<- | []]]]]];
      try discriminate.
    unfold validate_field, get_value, run_validation, field_run_validation
      in Hv.
    cbn [field_name kind required ModelFields.status ChoiceField] in Hv.
    rewrite Hl in Hv. discriminate.
  - intros st Hl.
    assert (Hs := status_given false TicketSerializer.validate_method data st
                    eq_refl Hl).
    destruct (existsb (eqb st) status_values) eqn:E.
    + split; [now apply choice_in|].
      apply attr_status. rewrite created_getattr.
      apply setattrs_set; [assumption | simpl; tauto|].
      rewrite Hvd. apply values_iff. exists ModelFields.status.
      repeat split; [simpl; tauto | assumption].
    + exfalso. apply (Hno (lit "status")). apply error_keys_iff.
      exists ModelFields.status, [msg_invalid_choice st].
      repeat split; [simpl; tauto | assumption].
Qed.

End FullSerializer.

Section FullSerializerExample.

Import PyStr Fields Models Http Invariants.

(** The sample body with a status, through the full serializer. *)
Lemma X16_witness :
  status
    (fst (TicketSerializer.save
            [ (lit "title", Some (lit "New Support Request"));
              (lit "description",
               Some (lit "This is a detailed description of the support request"));
              (lit "contact_email", Some (lit "user@example.com"));
              (lit "contact_phone", Some (lit "1234567890"));
              (lit "status", Some (lit "accepted")) ] Sample.world1))
  = lit "accepted".
Proof.
  exact (proj2 (proj2 (proj2 (X16_full_serializer_takes_status
                                Sample.address_check
                                ((lit "status", JString (lit "accepted")) :: Sample.valid_body)
                                _ Sample.world1 eq_refl))
                  (lit "accepted") eq_refl)).
Defined.

End FullSerializerExample.

(** ** Bodies that name nothing, and the phone number *)

Section EdgeBodies.

Import PyStr Fields Models Http Invariants.

Variable ev : str -> bool.

Lemma lookup_nil (k : str) : lookup k [] = None.
Proof. reflexivity. Qed.

(** X17.  A body that names none of the five fields, the empty body
    among them, still counts as an update under PATCH: the answer is
    200 with the ticket as it was but for [updated_at], which is the
    reading of the clock; under PUT it is answered 400 with title,
    description and contact_email marked required, and nothing is
    written. *)
Theorem X17_body_without_fields :
  forall (pk : Z) (data : Data) (w : World) (t : Ticket),
    objects_get pk w = Some t ->
    agree_on [lit "title"; lit "description"; lit "contact_email"; lit "contact_phone"; lit "status"]
      data [] ->
    fst (TicketRetrieveUpdateAPIView.patch ev pk data w)
    = HTTP_200_OK
        (mkTicket (id t) (title t) (description t) (contact_email t)
           (contact_phone t) (status t) (created_at t) (clock w (ticks w)))
    /\ TicketRetrieveUpdateAPIView.put ev pk data w
       = (HTTP_400_BAD_REQUEST
            [ (lit "title", [msg_required]); (lit "description", [msg_required]);
              (lit "contact_email", [msg_required]) ], w).
Proof.
  intros pk data w t Hg Ha.
  unfold TicketRetrieveUpdateAPIView.patch, TicketRetrieveUpdateAPIView.partial_update,
    TicketRetrieveUpdateAPIView.put.
  rewrite !update_spec, Hg.
  unfold TicketUpdateSerializer.run_validation, serializer_run_validation.
  rewrite (to_internal_value_agree true _ (TicketUpdateSerializer.fields ev) data [])
    by exact Ha.
  rewrite (to_internal_value_agree false _ (TicketUpdateSerializer.fields ev) data [])
    by exact Ha.
  split; reflexivity.
Qed.

Lemma attr_phone (t : Ticket) (v : option str) :
  getattr t (lit "contact_phone") = Some v -> contact_phone t = v.
Proof. intros H. now injection H. Qed.

(** The phone number given as a string or as a number. *)
Lemma phone_given (data : Data) (d : JValue) (s : str) :
  lookup (lit "contact_phone") data = Some d ->
  d = JString s \/ d = JNumber s ->
  (validate_field false TicketCreateSerializer.validate_method
     ModelFields.contact_phone data = Validated (Some (strip s))
   /\ len (strip s) <= 20)
  \/ exists e, validate_field false TicketCreateSerializer.validate_method
                 ModelFields.contact_phone data = ValidationError e.
Proof.
  intros H Hd. unfold validate_field, get_value.
  change (field_name ModelFields.contact_phone) with (lit "contact_phone").
  change (TicketCreateSerializer.validate_method (lit "contact_phone"))
    with (@None ValidateMethod).
  rewrite H.
  assert (Hr : run_validation false ModelFields.contact_phone (Some d)
               = run_validation false ModelFields.contact_phone
                   (Some (JString s)))
    by (destruct Hd as [-> | ->]; reflexivity).
  rewrite Hr, char_run_validation_text by reflexivity.
  change (allow_blank ModelFields.contact_phone) with true.
  destruct (eqb (strip s) []) eqn:Eb.
  - left. apply eqb_eq in Eb. rewrite Eb. split; [reflexivity|].
    apply Nat.le_0_l.
  - destruct (validated_cases ModelFields.contact_phone (strip s))
      as [[Hv ->] | (e & _ & _ & ->)].
    + left. split; [reflexivity|].
      apply char_validators_pass in Hv. now destruct Hv as (Hl & _).
    + right. now exists e.
Qed.

(** X18.  The phone number of a created ticket: NULL when the body
    leaves contact_phone out or gives null; otherwise the text given,
    stripped, which has at most 20 characters and is the empty text when
    only white space was given.  A number counts as the text it is
    written with; a boolean creates no ticket, and neither does a list
    or a dict, whose text is never blank. *)
Theorem X18_created_phone :
  forall (data : Data) (w w' : World) (t : Ticket),
    TicketListCreateAPIView.create ev data w = (HTTP_201_CREATED t, w') ->
    match lookup (lit "contact_phone") data with
    | None | Some JNull => contact_phone t = None
    | Some (JString s) | Some (JNumber s) =>
        contact_phone t = Some (strip s) /\ len (strip s) <= 20
    | Some (JBool _) => False
    | Some (JComposite text) => strip text = [] /\ contact_phone t = Some []
    end.
Proof.
  intros data w w' t H.
  apply created_ticket in H. destruct H as (vd & Hv & -> & _).
  unfold TicketCreateSerializer.run_validation in Hv.
  assert (Hnd : NoDup (map fst vd))
    by (apply (validated_keys_nodup false TicketCreateSerializer.validate_method
                 data (TicketCreateSerializer.fields ev)
                 (create_fields_nodup ev) vd Hv)).
  destruct (valid_means_no_error _ _ _ _ vd Hv) as [Hvd Hno].
  assert (Hfield : In ModelFields.contact_phone (TicketCreateSerializer.fields ev))
    by (simpl; tauto).
  assert (Hbind : forall v,
             validate_field false TicketCreateSerializer.validate_method
               ModelFields.contact_phone data = Validated v ->
             contact_phone (fst (objects_create vd w)) = v).
  { intros v Hval. apply attr_phone. rewrite created_getattr.
    rewrite (setattrs_binding vd Ticket_init (lit "contact_phone") v Hnd);
      [reflexivity|].
    rewrite Hvd. apply values_iff. exists ModelFields.contact_phone. auto. }
  assert (Hbad : forall e,
             validate_field false TicketCreateSerializer.validate_method
               ModelFields.contact_phone data = ValidationError e -> False).
  { intros e He. apply (Hno (lit "contact_phone")). apply error_keys_iff.
    exists ModelFields.contact_phone, e. auto. }
  assert (Hvf : validate_field false TicketCreateSerializer.validate_method
                  ModelFields.contact_phone data
                = match run_validation false ModelFields.contact_phone
                          (lookup (lit "contact_phone") data) with
                  | Validated (Some v) => Validated (Some v)
                  | o => o
                  end) by reflexivity.
  destruct (lookup (lit "contact_phone") data) as [[|b|n|s|c]|] eqn:El.
  - apply Hbind. rewrite Hvf. reflexivity.
  - apply (Hbad [msg_invalid]). rewrite Hvf. now destruct b.
  - destruct (phone_given data (JNumber n) n El (or_intror eq_refl))
      as [[Hval Hlen] | [e He]].
    + split; [now apply Hbind | assumption].
    + exfalso. now apply (Hbad e).
  - destruct (phone_given data (JString s) s El (or_introl eq_refl))
      as [[Hval Hlen] | [e He]].
    + split; [now apply Hbind | assumption].
    + exfalso. now apply (Hbad e).
  - unfold run_validation, field_run_validation, to_internal_value_of in Hvf.
    cbn [kind allow_blank ModelFields.contact_phone CharField str_of] in Hvf.
    destruct (eqb (strip c) []) eqn:Eb.
    + apply eqb_eq in Eb. split; [assumption | now apply Hbind].
    + exfalso. now apply (Hbad [msg_invalid]).
  - apply attr_phone. rewrite created_getattr.
    rewrite setattrs_frame; [reflexivity|].
    intros Hin. rewrite Hvd in Hin. apply value_keys in Hin.
    destruct Hin as (f & Hf & Hn & v & Hval).
    simpl in Hf. destruct Hf as [<- | [<- | [<- | [<- | []]]]]; try discriminate.
    rewrite Hvf in Hval. discriminate.
Qed.

End EdgeBodies.

Section EdgeBodiesExample.

Import PyStr Fields Models Http Invariants.

(** A PATCH of the sample ticket with a body that names only an id. *)
Lemma X17_witness :
  fst (TicketRetrieveUpdateAPIView.patch Sample.address_check 1
         [(lit "id", JString (lit "7"))] Sample.world1)
  = HTTP_200_OK
      (mkTicket 1 (lit "Printer offline") (lit "The office printer does not respond")
         (lit "ann@example.com") (Some (lit "555-0100")) (lit "pending") 100 1000).
Proof.
  refine (proj1 (X17_body_without_fields Sample.address_check 1
                   [(lit "id", JString (lit "7"))] Sample.world1 Sample.ticket1 eq_refl _)).
  intros k Hk. simpl in Hk.
  destruct Hk as [<- | [<- | [<- | [<- | [<- | []]]]]]; reflexivity.
Defined.

(** The sample body names the phone number 1234567890. *)
Lemma X18_witness :
  Some (lit "1234567890") = Some (strip (lit "1234567890")) /\ len (strip (lit "1234567890")) <= 20.
Proof.
  exact (X18_created_phone Sample.address_check Sample.valid_body Sample.world1
           (snd (TicketListCreateAPIView.create Sample.address_check
                   Sample.valid_body Sample.world1))
           (mkTicket 2 (lit "New Support Request")
              (lit "This is a detailed description of the support request")
              (lit "user@example.com") (Some (lit "1234567890")) (lit "pending") 1000 1001)
           eq_refl).
Defined.

End EdgeBodiesExample.
